(** * Evaluation and geometry engine of the North Pole strategy game

    A shallow embedding of [src/utils/gameData.ts], of the scoring module
    ([calculateTotalScore], [checkBadgeEarned] and their helpers) and of the
    connector routing of [src/components/DependencyLines.tsx].

    Numbers.  The program computes on JavaScript numbers.  They are modelled
    here as exact real numbers: [Math.sqrt] is [sqrt], [Math.min] is [Rmin],
    [Math.pow _ 2] is [_ ^ 2], [Math.tan] is [tan], array lengths are natural
    numbers injected with [INR], and [Math.round] is the floor of [_ + 1/2].
    Rounding error, infinities and NaN are outside this model, and no
    property below rests on the value of a division by zero or of the
    tangent at [PI / 2]. *)

From Stdlib Require Import String Ascii List Bool Arith ZArith Reals Lra Lia
  DecimalString DecimalNat DecimalZ.
Import ListNotations.

Local Open Scope string_scope.
Local Open Scope list_scope.
Local Open Scope R_scope.

(** ** Comparisons of numbers, as booleans *)

Definition Rltb (a b : R) : bool := if Rlt_dec a b then true else false.
Definition Rgtb (a b : R) : bool := if Rgt_dec a b then true else false.
Definition Rgeb (a b : R) : bool := if Rge_dec a b then true else false.

(** ** Types ([types/game.types.ts]) *)

Inductive EvolutionStage : Set := genesis | custom | product | commodity.

Inductive Classification : Set := build | buy | repurpose.

(** ["build" | "buy" | "repurpose" | null] *)
Definition ComponentClassification : Set := option Classification.

Record Position : Set := mkPosition { x : R; y : R }.

Record MapComponent : Set := mkMapComponent {
  id : string;
  name : string;
  description : string;
  correctEvolution : EvolutionStage;
  correctClassification : ComponentClassification;
  correctPosition : Position;
  position : option Position;
  classification : ComponentClassification;
  isPlaced : bool
}.

(** The field [id] of a dependency is [dependencyId] here, the name [id]
    being taken by the components. *)
Record Dependency : Set := mkDependency {
  dependencyId : string;
  fromComponentId : string;
  toComponentId : string
}.

Record ScoringWeights : Set := mkScoringWeights {
  positionAccuracy : R;
  classificationAccuracy : R;
  dependencyLogic : R;
  completionBonus : R
}.

(** The field [description] of a stage is [stageDescription] here. *)
Record EvolutionConfig : Set := mkEvolutionConfig {
  key : EvolutionStage;
  label : string;
  stageDescription : string;
  xRange : R * R
}.

Definition EvolutionStage_eqb (a b : EvolutionStage) : bool :=
  match a, b with
  | genesis, genesis | custom, custom
  | product, product | commodity, commodity => true
  | _, _ => false
  end.

Definition Classification_eqb (a b : Classification) : bool :=
  match a, b with
  | build, build | buy, buy | repurpose, repurpose => true
  | _, _ => false
  end.

(** [===] on two values of type [ComponentClassification] *)
Definition ComponentClassification_eqb (a b : ComponentClassification) : bool :=
  match a, b with
  | Some c, Some d => Classification_eqb c d
  | None, None => true
  | _, _ => false
  end.

Definition isSome {A : Type} (o : option A) : bool :=
  match o with Some _ => true | None => false end.

(** ** Game data ([utils/gameData.ts]) *)

Definition EVOLUTION_STAGES : list EvolutionConfig :=
  [ mkEvolutionConfig genesis "Genesis" "Novel, uncertain, rapidly changing" (0, 25);
    mkEvolutionConfig custom "Custom Built" "Emerging, stabilizing" (25, 50);
    mkEvolutionConfig product "Product/Service" "Mature, well understood" (50, 75);
    mkEvolutionConfig commodity "Commodity/Utility" "Ubiquitous, standardized" (75, 100) ].

Definition initialComponent (i n d : string) (e : EvolutionStage)
    (c : Classification) (px py : R) : MapComponent :=
  mkMapComponent i n d e (Some c) (mkPosition px py) None None false.

Definition INITIAL_COMPONENTS : list MapComponent :=
  [ initialComponent "mince-pie-delivery" "Mince Pie Delivery"
      "The core service delivering festive treats" product build 65 85;
    initialComponent "encounter-agents" "Existing Encounter Agents"
      "Pre-existing customer interaction systems" custom repurpose 40 70;
    initialComponent "ai-recipe-generator" "AI Recipe Generator"
      "Novel AI system for creating festive recipes" genesis build 15 55;
    initialComponent "delivery-routing" "Delivery Routing Service"
      "Optimized path planning for deliveries" product buy 60 50;
    initialComponent "orchestration-framework" "Multi-Agent Orchestration Framework"
      "Coordinates multiple AI agents" custom build 35 45;
    initialComponent "foundational-ai" "Foundational AI Models"
      "Large language models and AI infrastructure" product buy 65 30;
    initialComponent "cloud-compute" "Cloud Compute and Storage"
      "Infrastructure as a service" commodity buy 85 25;
    initialComponent "network-comms" "Network & Communications"
      "Basic networking infrastructure" commodity buy 90 15;
    initialComponent "trust-framework" "Trust & Transparency Framework"
      "System for ensuring ethical AI operations" genesis build 20 40;
    initialComponent "elf-dashboard" "ELF Operations Dashboard"
      "Monitoring and control interface" custom build 45 60;
    initialComponent "coordination-centre" "Multi-Agent Coordination Centre"
      "Central hub for agent communication" custom build 38 35 ].

Definition CORRECT_DEPENDENCIES : list (string * string) :=
  [ ("mince-pie-delivery", "elf-dashboard");
    ("mince-pie-delivery", "delivery-routing");
    ("elf-dashboard", "orchestration-framework");
    ("delivery-routing", "cloud-compute");
    ("ai-recipe-generator", "foundational-ai");
    ("orchestration-framework", "coordination-centre");
    ("orchestration-framework", "foundational-ai");
    ("foundational-ai", "cloud-compute");
    ("cloud-compute", "network-comms");
    ("coordination-centre", "cloud-compute");
    ("encounter-agents", "orchestration-framework");
    ("trust-framework", "orchestration-framework") ].

(** ** Scoring ([utils/scoring.ts]) *)

Definition WEIGHTS : ScoringWeights := mkScoringWeights 30 30 25 15.

Definition calculateDistance (pos1 pos2 : Position) : R :=
  let dx := x pos1 - x pos2 in
  let dy := y pos1 - y pos2 in
  sqrt (dx * dx + dy * dy).

(** The loop returns the key of the first stage whose range holds [px];
    when the loop ends without a match the last stage is the default. *)
Definition getEvolutionStageFromX (px : R) : EvolutionStage :=
  match find (fun stage =>
                Rgeb px (fst (xRange stage)) && Rltb px (snd (xRange stage)))
             EVOLUTION_STAGES with
  | Some stage => key stage
  | None => commodity
  end.

(** Body of the [for] loop of [calculatePositionScore]: one component's
    update of the accumulator [totalScore]. *)
Definition positionScoreStep (totalScore : R) (component : MapComponent) : R :=
  match position component with
  | None => totalScore
  | Some p =>
      let distance := calculateDistance p (correctPosition component) in
      let maxDistance := 141 in
      let normalizedDistance := Rmin (distance / maxDistance) 1 in
      let componentScore := (1 - normalizedDistance) ^ 2 * 100 in
      totalScore + componentScore
  end.

Definition calculatePositionScore (components : list MapComponent) : R :=
  let placedComponents :=
    filter (fun c => isPlaced c && isSome (position c)) components in
  if Nat.eqb (List.length placedComponents) 0 then 0
  else
    let totalScore := fold_left positionScoreStep placedComponents 0 in
    (totalScore / INR (List.length placedComponents))
    * (positionAccuracy WEIGHTS / 100).

Definition calculateClassificationScore (components : list MapComponent) : R :=
  let classifiedComponents :=
    filter (fun c => isSome (classification c)) components in
  if Nat.eqb (List.length classifiedComponents) 0 then 0
  else
    let correctClassifications :=
      List.length
        (filter (fun c => ComponentClassification_eqb
                            (classification c) (correctClassification c))
                classifiedComponents) in
    (INR correctClassifications / INR (List.length classifiedComponents))
    * classificationAccuracy WEIGHTS.

(** The callback given to [CORRECT_DEPENDENCIES.some], in both of its uses. *)
Definition isCorrectDependency (dep : Dependency) : bool :=
  existsb (fun '(from, to) =>
             (String.eqb (fromComponentId dep) from
              && String.eqb (toComponentId dep) to)
             || (String.eqb (fromComponentId dep) to
                 && String.eqb (toComponentId dep) from))
          CORRECT_DEPENDENCIES.

Definition calculateDependencyScore (dependencies : list Dependency) : R :=
  if Nat.eqb (List.length dependencies) 0 then 0
  else
    let correctDependencies :=
      fold_left (fun correctDependencies dep =>
                   if isCorrectDependency dep
                   then S correctDependencies else correctDependencies)
                dependencies 0%nat in
    let accuracy :=
      INR correctDependencies
      / INR (Nat.max (List.length dependencies)
                     (List.length CORRECT_DEPENDENCIES)) in
    accuracy * dependencyLogic WEIGHTS.

Definition calculateCompletionBonus (components : list MapComponent) : R :=
  let allPlaced := forallb (fun c => isPlaced c) components in
  let allClassified := forallb (fun c => isSome (classification c)) components in
  if allPlaced && allClassified then completionBonus WEIGHTS
  else
    let placedRatio :=
      INR (List.length (filter (fun c => isPlaced c) components))
      / INR (List.length components) in
    let classifiedRatio :=
      INR (List.length (filter (fun c => isSome (classification c)) components))
      / INR (List.length components) in
    ((placedRatio + classifiedRatio) / 2) * completionBonus WEIGHTS.

(** [Math.round]: the nearest integer, a tie going up. *)
Definition Math_round (r : R) : Z := Zfloor (r + / 2).

Definition calculateTotalScore (components : list MapComponent)
    (dependencies : list Dependency) : Z :=
  let positionScore := calculatePositionScore components in
  let classificationScore := calculateClassificationScore components in
  let dependencyScore := calculateDependencyScore dependencies in
  let completionBonus := calculateCompletionBonus components in
  Math_round (positionScore + classificationScore + dependencyScore
              + completionBonus).

Definition checkBadgeEarned (badgeId : string)
    (components : list MapComponent) (dependencies : list Dependency) : bool :=
  if String.eqb badgeId "cloud-wisdom" then
    match find (fun c => String.eqb (id c) "cloud-compute") components with
    | None => false
    | Some cloudCompute =>
        match position cloudCompute with
        | None => false
        | Some p =>
            let evolution := getEvolutionStageFromX (x p) in
            EvolutionStage_eqb evolution commodity
            && ComponentClassification_eqb (classification cloudCompute) (Some buy)
        end
    end
  else if String.eqb badgeId "innovation-star" then
    let genesisComponents :=
      filter (fun c => EvolutionStage_eqb (correctEvolution c) genesis)
             components in
    forallb (fun c =>
               match position c with
               | None => false
               | Some p =>
                   let evolution := getEvolutionStageFromX (x p) in
                   EvolutionStage_eqb evolution genesis
                   && ComponentClassification_eqb (classification c) (Some build)
               end)
            genesisComponents
  else if String.eqb badgeId "reindeer-efficiency" then
    match find (fun c => ComponentClassification_eqb
                           (correctClassification c) (Some repurpose))
               components with
    | None => false
    | Some repurposeComponent =>
        ComponentClassification_eqb (classification repurposeComponent)
                                    (Some repurpose)
    end
  else if String.eqb badgeId "strategic-mapper" then
    let score := calculateTotalScore components dependencies in
    (70 <=? score)%Z
  else if String.eqb badgeId "dependency-master" then
    let correctDeps := filter isCorrectDependency dependencies in
    (5 <=? List.length correctDeps)%nat
  else false.

(** ** Connector routing ([components/DependencyLines.tsx]) *)

Definition CARD_WIDTH : R := 190.
Definition CARD_HEIGHT : R := 120.
Definition ARROWHEAD_LENGTH : R := 10.

(** [Math.atan2 dy dx]: the angle of the vector [(dx, dy)], between [- PI]
    and [PI]. *)
Definition Math_atan2 (dy dx : R) : R :=
  if Rlt_dec 0 dx then atan (dy / dx)
  else if Rlt_dec dx 0 then
    if Rle_dec 0 dy then atan (dy / dx) + PI else atan (dy / dx) - PI
  else if Rlt_dec 0 dy then PI / 2
  else if Rlt_dec dy 0 then - (PI / 2)
  else 0.

Definition getComponentCenter (components : list MapComponent)
    (canvasWidth canvasHeight : R) (componentId : string) : option Position :=
  match find (fun c => String.eqb (id c) componentId) components with
  | None => None
  | Some component =>
      match position component with
      | None => None
      | Some p =>
          Some (mkPosition ((x p / 100) * canvasWidth)
                           ((y p / 100) * canvasHeight))
      end
  end.

Definition getEdgeIntersection (fromPoint toPoint : Position) : Position :=
  let dx := x toPoint - x fromPoint in
  let dy := y toPoint - y fromPoint in
  let angle := Math_atan2 dy dx in
  let halfWidth := CARD_WIDTH / 2 in
  let halfHeight := CARD_HEIGHT / 2 in
  let absAngle := Rabs angle in
  let cardAspectRatio := Math_atan2 halfHeight halfWidth in
  let '(intersectX, intersectY) :=
    if Rltb absAngle cardAspectRatio then
      (* Right edge *)
      (x toPoint - halfWidth, y toPoint - halfWidth * tan angle)
    else if Rgtb absAngle (PI - cardAspectRatio) then
      (* Left edge *)
      (x toPoint + halfWidth, y toPoint + halfWidth * tan angle)
    else if Rgtb angle 0 then
      (* Bottom edge *)
      (x toPoint - halfHeight / tan angle, y toPoint - halfHeight)
    else
      (* Top edge *)
      (x toPoint - halfHeight / tan angle, y toPoint + halfHeight) in
  let lineLength := sqrt (dx * dx + dy * dy) in
  let unitDx := dx / lineLength in
  let unitDy := dy / lineLength in
  mkPosition (intersectX - unitDx * ARROWHEAD_LENGTH)
             (intersectY - unitDy * ARROWHEAD_LENGTH).

(** The two end points handed to [createPath] for one dependency, or [None]
    where the component renders nothing for it. *)
Definition connectorEndpoints (components : list MapComponent)
    (canvasWidth canvasHeight : R) (dependency : Dependency)
    : option (Position * Position) :=
  match getComponentCenter components canvasWidth canvasHeight
                           (fromComponentId dependency),
        getComponentCenter components canvasWidth canvasHeight
                           (toComponentId dependency) with
  | Some fromPos, Some toCenter =>
      let toPos := getEdgeIntersection fromPos toCenter in
      Some (fromPos, toPos)
  | _, _ => None
  end.

(** ** Scoring, the per-component helpers ([utils/scoring.ts]) *)

Definition getPositionAccuracy (component : MapComponent) : Z :=
  match position component with
  | None => 0%Z
  | Some p =>
      let distance := calculateDistance p (correctPosition component) in
      let maxDistance := 141 in
      let normalizedDistance := Rmin (distance / maxDistance) 1 in
      Math_round ((1 - normalizedDistance) * 100)
  end.

Definition isClassificationCorrect (component : MapComponent) : bool :=
  ComponentClassification_eqb (classification component)
                              (correctClassification component).

Definition isEvolutionCorrect (component : MapComponent) : bool :=
  match position component with
  | None => false
  | Some p =>
      let actualEvolution := getEvolutionStageFromX (x p) in
      EvolutionStage_eqb actualEvolution (correctEvolution component)
  end.

(** ** Commentary ([utils/commentary.ts])

    The module keeps a counter and reads the clock.  Both are threaded
    through a [World]: [commentaryIdCounter] is the module's variable and
    [clockReads] counts the calls of [Date.now] made so far, the value of the
    n-th call being [clock n] for a [clock] that every function takes.  A
    number printed into a template string is printed in decimal. *)

Inductive CommentaryType : Set := hint | praise | correction | easterEgg.

(** The fields [id] and [type] of a commentary are [commentaryId] and
    [commentaryType] here. *)
Record Commentary : Set := mkCommentary {
  commentaryId : string;
  text : string;
  commentaryType : CommentaryType;
  timestamp : Z
}.

Record World : Set := mkWorld {
  commentaryIdCounter : nat;
  clockReads : nat
}.

Definition string_of_Z (z : Z) : string := NilZero.string_of_int (Z.to_int z).

Definition string_of_nat (n : nat) : string :=
  NilZero.string_of_uint (Nat.to_uint n).

Section Commentary.

Variable clock : nat -> Z.

(** [Date.now()] *)
Definition dateNow (w : World) : Z * World :=
  (clock (clockReads w), mkWorld (commentaryIdCounter w) (S (clockReads w))).

Definition generateCommentaryId (w : World) : string * World :=
  let '(now, w1) := dateNow w in
  let n := commentaryIdCounter w1 in
  (("commentary-" ++ string_of_Z now ++ "-" ++ string_of_nat n)%string,
   mkWorld (S n) (clockReads w1)).

Definition createCommentary (text : string) (type : CommentaryType) (w : World)
    : Commentary * World :=
  let '(i, w1) := generateCommentaryId w in
  let '(now, w2) := dateNow w1 in
  (mkCommentary i text type now, w2).

(** A function that returns [Commentary | null]: the commentary made, if
    any, and the world after. *)
Definition some (made : Commentary * World) : option Commentary * World :=
  (Some (fst made), snd made).

Definition getPlacementCommentary (component : MapComponent) (w : World)
    : option Commentary * World :=
  if String.eqb (id component) "cloud-compute" then
    some (createCommentary
            "That's already on Jeff's cloud shelf! Smart move going with AWS, Azure, or GCP."
            easterEgg w)
  else if String.eqb (id component) "ai-recipe-generator" then
    some (createCommentary
            "Steady there! That AI recipe generator looks novel - should we build or buy?"
            hint w)
  else if String.eqb (id component) "foundational-ai" then
    some (createCommentary
            "These LLMs are becoming productized. OpenAI, Anthropic... they're practically on every shelf now!"
            hint w)
  else if String.eqb (id component) "trust-framework" then
    some (createCommentary
            "Trust and transparency - that's brand new territory! Nobody's quite figured this out yet."
            hint w)
  else (None, w).

Definition getClassificationCommentary (component : MapComponent)
    (classification : ComponentClassification) (w : World)
    : option Commentary * World :=
  match classification with
  | None => (None, w)
  | Some chosen =>
      let isCorrect :=
        ComponentClassification_eqb classification
                                    (correctClassification component) in
      if isCorrect then
        match chosen with
        | build =>
            some (createCommentary
                    "Great strategic thinking! Building this makes perfect sense."
                    praise w)
        | buy =>
            some (createCommentary
                    "Smart! Why reinvent the wheel when you can buy it off the shelf?"
                    praise w)
        | repurpose =>
            some (createCommentary
                    "Brilliant! Reusing existing systems - that's reindeer efficiency right there!"
                    praise w)
        end
      else if ComponentClassification_eqb (correctClassification component)
                                          (Some buy)
              && ComponentClassification_eqb classification (Some build) then
        some (createCommentary
                "Hmm, are you sure you want to build that? Might be faster to buy it..."
                correction w)
      else if ComponentClassification_eqb (correctClassification component)
                                          (Some build)
              && ComponentClassification_eqb classification (Some buy) then
        some (createCommentary
                "Can you really buy that off the shelf? Seems pretty unique to me..."
                correction w)
      else (None, w)
  end.

(** The entries of [logicalPairs]: [from], [to] and [message]. *)
Definition logicalPairs : list (string * string * string) :=
  [ ("mince-pie-delivery", "delivery-routing", "Yes! Deliveries need routing!");
    ("ai-recipe-generator", "foundational-ai",
     "Of course! AI recipes need AI models!");
    ("cloud-compute", "network-comms", "Right! Cloud needs the network layer!");
    ("orchestration-framework", "foundational-ai",
     "Good thinking! Orchestration relies on those AI models!") ].

Definition getDependencyCommentary (fromComponent toComponent : MapComponent)
    (w : World) : option Commentary * World :=
  let match_ :=
    find (fun '(from, to, _) =>
            (String.eqb from (id fromComponent) && String.eqb to (id toComponent))
            || (String.eqb from (id toComponent)
                && String.eqb to (id fromComponent)))
         logicalPairs in
  match match_ with
  | Some (_, _, message) => some (createCommentary message praise w)
  | None => (None, w)
  end.

(** The score handed to the two functions below is the rounded total score,
    an integer. *)
Definition getScoreMilestoneCommentary (score : Z) (w : World)
    : option Commentary * World :=
  if (90 <=? score)%Z then
    some (createCommentary
            "Outstanding! Your nose is glowing brighter than mine! ✨" praise w)
  else if (75 <=? score)%Z then
    some (createCommentary
            "Excellent strategic thinking! You could lead the sleigh!" praise w)
  else if (50 <=? score)%Z then
    some (createCommentary
            "Good progress! Keep refining those placements." hint w)
  else if (25 <=? score)%Z then
    some (createCommentary
            "You're getting the hang of it! Think about evolution and value."
            hint w)
  else (None, w).

Definition getWelcomeCommentary (w : World) : Commentary * World :=
  createCommentary
    "Ho ho hello! I'm Rudolph, and I'll be your guide to strategic mapping. Let's map out this mince pie operation!"
    hint w.

Definition getCompletionCommentary (score : Z) (w : World)
    : Commentary * World :=
  if (80 <=? score)%Z then
    createCommentary
      ("Magnificent! Score: " ++ string_of_Z score
       ++ ". You've earned your place at the North Pole strategy table! 🎄")%string
      praise w
  else if (60 <=? score)%Z then
    createCommentary
      ("Well done! Score: " ++ string_of_Z score
       ++ ". That's solid strategic thinking!")%string
      praise w
  else
    createCommentary
      ("Nice effort! Score: " ++ string_of_Z score
       ++ ". Want to try refining your strategy?")%string
      hint w.

Definition getJeffBezosEasterEgg (w : World) : Commentary * World :=
  createCommentary
    "Checking Jeff Bezos on the naughty/nice list... 🎅 Still deliberating on that one!"
    easterEgg w.

End Commentary.

(** ** Badges of the game data ([utils/gameData.ts]) *)

(** The fields [id], [name] and [description] of a badge are [badgeId],
    [badgeName] and [badgeDescription] here. *)
Record Badge : Set := mkBadge {
  badgeId : string;
  badgeName : string;
  badgeDescription : string;
  icon : string;
  earned : bool
}.

Definition INITIAL_BADGES : list Badge :=
  [ mkBadge "cloud-wisdom" "Cloud Wisdom"
            "Correctly identified commodity cloud services" "☁️" false;
    mkBadge "innovation-star" "Innovation Star"
            "Identified novel components to build" "⭐" false;
    mkBadge "reindeer-efficiency" "Reindeer Efficiency"
            "Made smart repurpose decisions" "🦌" false;
    mkBadge "strategic-mapper" "Strategic Mapper"
            "Completed the map with high strategic clarity" "🗺️" false;
    mkBadge "dependency-master" "Dependency Master"
            "Created logical component dependencies" "🔗" false ].

(** ** The application ([App.tsx]) and the events of its canvas
       ([components/StrategyCanvas.tsx], [components/MapComponent.tsx])

    The state variables of [App] form a [State], together with the [World]
    of the commentary module.  A handler is a function from state to state;
    the updates a handler queues are applied in the order it queues them. *)

Module App.

Record State : Set := mkState {
  components : list MapComponent;
  dependencies : list Dependency;
  commentary : list Commentary;
  selectedComponentId : option string;
  pendingDependencyFromId : option string;
  showCertificate : bool;
  lastScore : Z;
  world : World
}.

Definition setComponents (v : list MapComponent) (s : State) : State :=
  mkState v (dependencies s) (commentary s) (selectedComponentId s)
          (pendingDependencyFromId s) (showCertificate s) (lastScore s) (world s).

Definition setDependencies (v : list Dependency) (s : State) : State :=
  mkState (components s) v (commentary s) (selectedComponentId s)
          (pendingDependencyFromId s) (showCertificate s) (lastScore s) (world s).

Definition setCommentary (v : list Commentary) (s : State) : State :=
  mkState (components s) (dependencies s) v (selectedComponentId s)
          (pendingDependencyFromId s) (showCertificate s) (lastScore s) (world s).

Definition setSelectedComponentId (v : option string) (s : State) : State :=
  mkState (components s) (dependencies s) (commentary s) v
          (pendingDependencyFromId s) (showCertificate s) (lastScore s) (world s).

Definition setPendingDependencyFromId (v : option string) (s : State) : State :=
  mkState (components s) (dependencies s) (commentary s) (selectedComponentId s)
          v (showCertificate s) (lastScore s) (world s).

Definition setShowCertificate (v : bool) (s : State) : State :=
  mkState (components s) (dependencies s) (commentary s) (selectedComponentId s)
          (pendingDependencyFromId s) v (lastScore s) (world s).

Definition setLastScore (v : Z) (s : State) : State :=
  mkState (components s) (dependencies s) (commentary s) (selectedComponentId s)
          (pendingDependencyFromId s) (showCertificate s) v (world s).

(** The world after a call into the commentary module. *)
Definition setWorld (v : World) (s : State) : State :=
  mkState (components s) (dependencies s) (commentary s) (selectedComponentId s)
          (pendingDependencyFromId s) (showCertificate s) (lastScore s) v.

(** [{ ...c, position, isPlaced: true }] *)
Definition withPosition (position : Position) (c : MapComponent) : MapComponent :=
  mkMapComponent (id c) (name c) (description c) (correctEvolution c)
                 (correctClassification c) (correctPosition c)
                 (Some position) (classification c) true.

(** [{ ...c, classification }] *)
Definition withClassification (classification : ComponentClassification)
    (c : MapComponent) : MapComponent :=
  mkMapComponent (id c) (name c) (description c) (correctEvolution c)
                 (correctClassification c) (correctPosition c)
                 (position c) classification (isPlaced c).

Section Handlers.

Variable clock : nat -> Z.

(** The derived values [score], [badges] and [allComponentsPlaced]. *)
Definition score (s : State) : Z :=
  calculateTotalScore (components s) (dependencies s).

Definition badges (s : State) : list Badge :=
  map (fun badge =>
         mkBadge (badgeId badge) (badgeName badge) (badgeDescription badge)
                 (icon badge)
                 (checkBadgeEarned (badgeId badge) (components s)
                                   (dependencies s)))
      INITIAL_BADGES.

Definition allComponentsPlaced (s : State) : bool :=
  forallb (fun c => isPlaced c) (components s).

Definition addCommentary (newCommentary : Commentary) (s : State) : State :=
  setCommentary (commentary s ++ [newCommentary]) s.

(** Adds what a function of the commentary module returned, if it returned
    a commentary, and keeps the world it left. *)
Definition addReturned (returned : option Commentary * World) (s : State) : State :=
  match fst returned with
  | Some k => addCommentary k (setWorld (snd returned) s)
  | None => setWorld (snd returned) s
  end.

(** The first state: what the [useState] calls of [App] are given. *)
Definition initial : State :=
  let welcome := getWelcomeCommentary clock (mkWorld 0 0) in
  mkState INITIAL_COMPONENTS [] [fst welcome] None None false 0 (snd welcome).

(** The effect that watches for score milestones. *)
Definition scoreEffect (s : State) : State :=
  let score := score s in
  let s1 :=
    if (lastScore s <? score)%Z && (Z.rem score 25 =? 0)%Z && (0 <? score)%Z then
      addReturned (getScoreMilestoneCommentary clock score (world s)) s
    else s in
  setLastScore score s1.

Definition handleComponentPlace (componentId : string) (position : Position)
    (s : State) : State :=
  match find (fun c => String.eqb (id c) componentId) (components s) with
  | None => s
  | Some component =>
      let s1 :=
        setComponents
          (map (fun c => if String.eqb (id c) componentId
                         then withPosition position c else c)
               (components s)) s in
      addReturned (getPlacementCommentary clock component (world s1)) s1
  end.

Definition handleClassificationChange (componentId : string)
    (classification : ComponentClassification) (s : State) : State :=
  match find (fun c => String.eqb (id c) componentId) (components s) with
  | None => s
  | Some component =>
      let s1 :=
        setComponents
          (map (fun c => if String.eqb (id c) componentId
                         then withClassification classification c else c)
               (components s)) s in
      addReturned
        (getClassificationCommentary clock component classification (world s1)) s1
  end.

Definition handleDependencyCreate (fromId toId : string) (s : State) : State :=
  let exists_ :=
    existsb (fun d =>
               (String.eqb (fromComponentId d) fromId
                && String.eqb (toComponentId d) toId)
               || (String.eqb (fromComponentId d) toId
                   && String.eqb (toComponentId d) fromId))
            (dependencies s) in
  if exists_ then s
  else
    let '(now, w1) := dateNow clock (world s) in
    let newDependency :=
      mkDependency ("dep-" ++ string_of_Z now)%string fromId toId in
    let s1 :=
      setWorld w1 (setDependencies (dependencies s ++ [newDependency]) s) in
    let fromComponent :=
      find (fun c => String.eqb (id c) fromId) (components s) in
    let toComponent :=
      find (fun c => String.eqb (id c) toId) (components s) in
    match fromComponent, toComponent with
    | Some fromComponent, Some toComponent =>
        addReturned
          (getDependencyCommentary clock fromComponent toComponent (world s1)) s1
    | _, _ => s1
    end.

Definition handleComponentSelect (componentId : option string) (s : State)
    : State :=
  setSelectedComponentId componentId s.

Definition handlePendingDependencySet (componentId : option string) (s : State)
    : State :=
  setPendingDependencyFromId componentId s.

Definition handleComplete (s : State) : State :=
  let completionCommentary :=
    getCompletionCommentary clock (score s) (world s) in
  setShowCertificate true
    (addCommentary (fst completionCommentary)
                   (setWorld (snd completionCommentary) s)).

Definition handleRestart (s : State) : State :=
  let welcome := getWelcomeCommentary clock (world s) in
  mkState INITIAL_COMPONENTS [] [fst welcome] None None false 0 (snd welcome).

Definition handleJeffBezosEasterEgg (s : State) : State :=
  let egg := getJeffBezosEasterEgg clock (world s) in
  addCommentary (fst egg) (setWorld (snd egg) s).

(** *** The canvas ([StrategyCanvas.tsx]) *)

(** The bounding rectangle of the canvas; its fields [left], [top], [width]
    and [height] are prefixed here. *)
Record DOMRect : Set := mkDOMRect {
  rectLeft : R;
  rectTop : R;
  rectWidth : R;
  rectHeight : R
}.

(** A string or [null] used as a condition: [null] and the empty string
    count as false. *)
Definition truthy (o : option string) : bool :=
  match o with
  | Some v => negb (String.eqb v "")
  | None => false
  end.

(** A drop: [componentId] is what the drag carries, [clientX] and [clientY]
    are the coordinates of the event and [rect] is the bounding rectangle of
    the canvas, which is mounted when a drop reaches it.  The component that
    is being dragged is display state of the canvas and is not kept here. *)
Definition handleDrop (componentId : string) (clientX clientY : R)
    (rect : DOMRect) (s : State) : State :=
  if String.eqb componentId "" then s
  else
    let px := ((clientX - rectLeft rect) / rectWidth rect) * 100 in
    let py := ((clientY - rectTop rect) / rectHeight rect) * 100 in
    let clampedX := Rmax 0 (Rmin 100 px) in
    let clampedY := Rmax 0 (Rmin 100 py) in
    handleComponentPlace componentId (mkPosition clampedX clampedY) s.

Definition handleComponentClick (componentId : string) (s : State) : State :=
  if truthy (pendingDependencyFromId s) then
    let s1 :=
      match pendingDependencyFromId s with
      | Some pending =>
          if negb (String.eqb pending componentId)
          then handleDependencyCreate pending componentId s
          else s
      | None => s
      end in
    handleComponentSelect None (handlePendingDependencySet None s1)
  else
    handleComponentSelect
      (if match selectedComponentId s with
          | Some selected => String.eqb componentId selected
          | None => false
          end
       then None else Some componentId)
      s.

(** [onCanvas] says that the click hit the canvas itself and none of the
    components on it. *)
Definition handleCanvasClick (onCanvas : bool) (s : State) : State :=
  if onCanvas
  then handlePendingDependencySet None (handleComponentSelect None s)
  else s.

(** The button "Create Dependency". *)
Definition createDependencyButton (s : State) : State :=
  if truthy (selectedComponentId s)
  then handlePendingDependencySet (selectedComponentId s) s
  else s.

End Handlers.

End App.

(** ** The mascots ([components/Characters.tsx]) *)

(** [handleRudolphClick] on the click counter it keeps: whether the easter
    egg is asked for, and the counter after the click. *)
Definition handleRudolphClick (bezosClicks : nat) : bool * nat :=
  let newClicks := (bezosClicks + 1)%nat in
  if Nat.eqb newClicks 3 then (true, 0%nat) else (false, newClicks).

(** ** What a user can do

    The events that reach the handlers, the condition under which the page
    offers each of them, and the state after an event: the handler runs,
    then the score effect. *)

Module UI.

Record State : Set := mkState {
  app : App.State;
  bezosClicks : nat
}.

Inductive Event : Set :=
| Drop (componentId : string) (clientX clientY : R) (rect : App.DOMRect)
| ClassificationButton (componentId : string) (classification : Classification)
| ComponentClick (componentId : string)
| CanvasClick (onCanvas : bool)
| CreateDependencyButton
| ViewCertificate
| CloseCertificate
| RestartButton
| RudolphClick.

(** A component shows as a card in the sidebar while it is not placed, and
    on the canvas once it is placed and has a position. *)
Definition shown (c : MapComponent) : bool :=
  negb (isPlaced c) || isSome (position c).

(** When the page offers an event.  The canvas that takes a drop has a
    positive size; the classification buttons are on the cards of placed
    components only; a card can be clicked when it shows; "View Certificate"
    shows once every component is placed; the certificate, with its buttons,
    shows while [showCertificate] is set. *)
Definition offered (e : Event) (s : State) : Prop :=
  match e with
  | Drop _ _ _ rect => 0 < App.rectWidth rect /\ 0 < App.rectHeight rect
  | ClassificationButton componentId _ =>
      exists c, In c (App.components (app s)) /\ id c = componentId
                /\ isPlaced c = true /\ shown c = true
  | ComponentClick componentId =>
      exists c, In c (App.components (app s)) /\ id c = componentId
                /\ shown c = true
  | ViewCertificate => App.allComponentsPlaced (app s) = true
  | CloseCertificate | RestartButton => App.showCertificate (app s) = true
  | CanvasClick _ | CreateDependencyButton | RudolphClick => True
  end.

Section Steps.

Variable clock : nat -> Z.

Definition initial : State := mkState (App.initial clock) 0.

Definition handle (e : Event) (s : State) : State :=
  match e with
  | Drop componentId clientX clientY rect =>
      mkState (App.handleDrop clock componentId clientX clientY rect (app s))
              (bezosClicks s)
  | ClassificationButton componentId classification =>
      mkState (App.handleClassificationChange clock componentId
                                              (Some classification) (app s))
              (bezosClicks s)
  | ComponentClick componentId =>
      mkState (App.handleComponentClick clock componentId (app s))
              (bezosClicks s)
  | CanvasClick onCanvas =>
      mkState (App.handleCanvasClick onCanvas (app s)) (bezosClicks s)
  | CreateDependencyButton =>
      mkState (App.createDependencyButton (app s)) (bezosClicks s)
  | ViewCertificate => mkState (App.handleComplete clock (app s)) (bezosClicks s)
  | CloseCertificate =>
      mkState (App.setShowCertificate false (app s)) (bezosClicks s)
  | RestartButton => mkState (App.handleRestart clock (app s)) (bezosClicks s)
  | RudolphClick =>
      let '(egg, clicks) := handleRudolphClick (bezosClicks s) in
      mkState (if egg then App.handleJeffBezosEasterEgg clock (app s) else app s)
              clicks
  end.

Definition step (e : Event) (s : State) : State :=
  let s1 := handle e s in
  mkState (App.scoreEffect clock (app s1)) (bezosClicks s1).

(** The states a user can bring about. *)
Inductive reachable : State -> Prop :=
| reachable_initial : reachable initial
| reachable_step (e : Event) (s : State) :
    reachable s -> offered e s -> reachable (step e s).

End Steps.

End UI.

(** ** The score panel ([components/ScorePanel.tsx]) *)

Module ScorePanel.

Definition getScoreColor (score : Z) : string :=
  if (80 <=? score)%Z then "text-christmas-green"
  else if (60 <=? score)%Z then "text-christmas-gold"
  else if (40 <=? score)%Z then "text-winter-blue"
  else "text-gray-600".

Definition getScoreLabel (score : Z) : string :=
  if (90 <=? score)%Z then "Exceptional!"
  else if (80 <=? score)%Z then "Excellent!"
  else if (70 <=? score)%Z then "Very Good!"
  else if (60 <=? score)%Z then "Good Progress!"
  else if (50 <=? score)%Z then "Getting There!"
  else if (30 <=? score)%Z then "Keep Going!"
  else "Just Started!".

End ScorePanel.

(** ** The certificate ([components/Certificate.tsx]) *)

Module Certificate.

Definition getPerformanceLevel (score : Z) : string :=
  if (90 <=? score)%Z then "Outstanding Strategic Excellence"
  else if (80 <=? score)%Z then "Excellent Strategic Thinking"
  else if (70 <=? score)%Z then "Strong Strategic Understanding"
  else if (60 <=? score)%Z then "Good Strategic Awareness"
  else "Strategic Participation".

End Certificate.

(** ** The path of a connector ([components/DependencyLines.tsx])

    [createPath] prints an SVG path, "M x y Q cx cy ex ey": a move to the
    start, then a quadratic curve to the end under one control point.  The
    path is kept here as the three points that the string holds. *)



(** * Vocabulary of the properties

    The notions the properties below are stated with.  They are not part of
    the program: each one names what a property says of it. *)

(** ** Badges *)

(** What the genesis-build badge asks of one component: it has a position,
    the X coordinate of that position lies in the range [0, 25) of the genesis
    stage, and it is classified "build". *)
Definition placedInGenesisAsBuild (c : MapComponent) : Prop :=
  exists p,
    position c = Some p /\ 0 <= x p < 25 /\ classification c = Some build.

(** [c] is the first element of [l] that satisfies [f]. *)
Definition firstSatisfying {A : Type} (f : A -> bool) (l : list A) (c : A) : Prop :=
  exists pre post,
    l = pre ++ c :: post /\ f c = true /\ forall d, In d pre -> f d = false.

(** [c] is the first element of [l] of which [P] holds. *)
Definition isFirstWith {A : Type} (P : A -> Prop) (l : list A) (c : A) : Prop :=
  exists pre post,
    l = pre ++ c :: post /\ P c /\ forall d, In d pre -> ~ P d.

(** ** Classification score and completion bonus *)

Definition isClassified (c : MapComponent) : bool := isSome (classification c).

(** A classification is set and it is the correct one. *)
Definition isCorrectlyClassified (c : MapComponent) : bool :=
  match classification c, correctClassification c with
  | Some k, Some t => Classification_eqb k t
  | _, _ => false
  end.

Definition classifiedCount (components : list MapComponent) : nat :=
  List.length (filter isClassified components).

Definition correctlyClassifiedCount (components : list MapComponent) : nat :=
  List.length (filter isCorrectlyClassified components).

Definition placedCount (components : list MapComponent) : nat :=
  List.length (filter (fun c => isPlaced c) components).

(** Every component is both placed and classified. *)
Definition allComplete (components : list MapComponent) : Prop :=
  forall c, In c components -> isPlaced c = true /\ classification c <> None.

(** ** Dependency score *)

(** The pair of ids of [dep] is, in one order or the other, an entry of the
    reference table. *)
Definition matchesReferenceTable (dep : Dependency) : Prop :=
  exists from to,
    In (from, to) CORRECT_DEPENDENCIES
    /\ ((fromComponentId dep = from /\ toComponentId dep = to)
        \/ (fromComponentId dep = to /\ toComponentId dep = from)).

Definition correctCount (dependencies : list Dependency) : nat :=
  List.length (filter isCorrectDependency dependencies).

(** ** Position score *)

(** The components kept by the filter of [calculatePositionScore]. *)
Definition isPlacedItem (c : MapComponent) : bool :=
  isPlaced c && isSome (position c).

Definition placedItems (components : list MapComponent) : list MapComponent :=
  filter isPlacedItem components.

(** The value of one component on the scale 0..100 when distances are
    normalised by [D]: [(1 - min (d / D) 1) ^ 2], times 100. *)
Definition itemPositionValue (D : R) (c : MapComponent) : R :=
  match position c with
  | Some p =>
      (1 - Rmin (calculateDistance p (correctPosition c) / D) 1) ^ 2 * 100
  | None => 0
  end.

Fixpoint Rsum (l : list R) : R :=
  match l with
  | [] => 0
  | a :: l => a + Rsum l
  end.

(** The position score as the specification words it, for a maximum
    distance [D]: the mean value of the placed components, scaled by 30/100,
    and 0 when nothing is placed. *)
Definition positionScoreFormula (D : R) (components : list MapComponent) : R :=
  match placedItems components with
  | [] => 0
  | placed =>
      Rsum (map (itemPositionValue D) placed) / INR (List.length placed)
      * (30 / 100)
  end.

(** The diagonal of the 100 x 100 space. *)
Definition maxDiagonal : R := sqrt (100 * 100 + 100 * 100).

(** ** Connector routing *)

(** The four edges, under the names the comments of [getEdgeIntersection]
    give to its four branches. *)
Inductive Edge : Set := RightEdge | LeftEdge | BottomEdge | TopEdge.

(** The edge selected for a direction [theta] and a corner half-angle [phi]:
    right if [|theta| < phi], left if [|theta| > PI - phi], otherwise bottom
    or top by the sign of [theta]. *)
Definition struckEdge (theta phi : R) : Edge :=
  if Rlt_dec (Rabs theta) phi then RightEdge
  else if Rgt_dec (Rabs theta) (PI - phi) then LeftEdge
  else if Rgt_dec theta 0 then BottomEdge
  else TopEdge.

(** The point computed on edge [e] from the tangent of [theta] and the
    half-extent that goes with the edge. *)
Definition edgePoint (e : Edge) (halfWidth halfHeight theta : R)
    (toPoint : Position) : Position :=
  match e with
  | RightEdge =>
      mkPosition (x toPoint - halfWidth) (y toPoint - halfWidth * tan theta)
  | LeftEdge =>
      mkPosition (x toPoint + halfWidth) (y toPoint + halfWidth * tan theta)
  | BottomEdge =>
      mkPosition (x toPoint - halfHeight / tan theta) (y toPoint - halfHeight)
  | TopEdge =>
      mkPosition (x toPoint - halfHeight / tan theta) (y toPoint + halfHeight)
  end.

(** [p] moved back by [clearance] along the unit vector from [fromPoint] to
    [toPoint]. *)
Definition pullBack (clearance : R) (fromPoint toPoint p : Position) : Position :=
  let dx := x toPoint - x fromPoint in
  let dy := y toPoint - y fromPoint in
  let lineLength := sqrt (dx * dx + dy * dy) in
  mkPosition (x p - dx / lineLength * clearance)
             (y p - dy / lineLength * clearance).

(** The angle of the vector from [fromPoint] to [toPoint]. *)
Definition direction (fromPoint toPoint : Position) : R :=
  Math_atan2 (y toPoint - y fromPoint) (x toPoint - x fromPoint).

(** The cross product of [p - a] and [b - a]: it is 0 exactly when [p] lies on
    the line through [a] and [b]. *)
Definition offLine (a b p : Position) : R :=
  (x p - x a) * (y b - y a) - (y p - y a) * (x b - x a).

(** ** Distances and perfect play *)

(** The distance of a component from its correct position, when it has a
    position. *)
Definition distanceFromTarget (c : MapComponent) : option R :=
  match position c with
  | Some p => Some (calculateDistance p (correctPosition c))
  | None => None
  end.

(** [c2] is placed when [c1] is, and when both have a position [c2] is not
    nearer to its correct position than [c1] is to its own. *)
Definition notNearer (c1 c2 : MapComponent) : Prop :=
  isPlacedItem c1 = isPlacedItem c2
  /\ forall p1 p2,
       position c1 = Some p1 -> position c2 = Some p2 ->
       calculateDistance p1 (correctPosition c1)
       <= calculateDistance p2 (correctPosition c2).

(** ** Dependencies *)

(** The same dependency drawn the other way round. *)
Definition reverseDependency (d : Dependency) : Dependency :=
  mkDependency (dependencyId d) (toComponentId d) (fromComponentId d).

(** A component played perfectly: placed on its correct position and given
    its correct classification. *)
Definition playedPerfectly (c : MapComponent) : Prop :=
  isPlaced c = true
  /\ position c = Some (correctPosition c)
  /\ classification c = correctClassification c
  /\ classification c <> None.

(** The X range that [getEvolutionStageFromX] reads as [stage]: the range of
    the stage in [EVOLUTION_STAGES], and for the last stage also every X that
    no range holds. *)
Definition readAsStage (stage : EvolutionStage) (px : R) : Prop :=
  match stage with
  | genesis => 0 <= px < 25
  | custom => 25 <= px < 50
  | product => 50 <= px < 75
  | commodity => px < 0 \/ 75 <= px
  end.

(** The component [c] once it is placed on its correct position and given
    its correct classification. *)
Definition playPerfectly (c : MapComponent) : MapComponent :=
  mkMapComponent (id c) (name c) (description c) (correctEvolution c)
                 (correctClassification c) (correctPosition c)
                 (Some (correctPosition c)) (correctClassification c) true.

(** The dependency that declares one pair of the reference table. *)
Definition declarePair (pair : string * string) : Dependency :=
  mkDependency "dep" (fst pair) (snd pair).

(** ** The card around a centre *)


(** ** States of the application *)

(** What a component is from the start and keeps: its identity and its
    targets. *)
Definition target (c : MapComponent)
    : string * string * string * EvolutionStage * ComponentClassification
      * Position :=
  (id c, name c, description c, correctEvolution c, correctClassification c,
   correctPosition c).

(** A component is marked placed exactly when it has a position, a position
    lies in the 100 by 100 space, and only a placed component is classified. *)
Definition componentWellFormed (c : MapComponent) : Prop :=
  (isPlaced c = true <-> position c <> None)
  /\ (forall p, position c = Some p -> 0 <= x p <= 100 /\ 0 <= y p <= 100)
  /\ (classification c <> None -> isPlaced c = true).

(** The components are those of the game data, in their order, each with
    its targets, and each well formed. *)
Definition componentsWellFormed (components : list MapComponent) : Prop :=
  map target components = map target INITIAL_COMPONENTS
  /\ Forall componentWellFormed components.

(** Two dependencies join the same two components, in either direction. *)
Definition samePair (d e : Dependency) : Prop :=
  (fromComponentId d = fromComponentId e /\ toComponentId d = toComponentId e)
  \/ (fromComponentId d = toComponentId e /\ toComponentId d = fromComponentId e).

Definition isComponentId (v : string) : Prop :=
  In v (map id INITIAL_COMPONENTS).

(** No two dependencies join the same pair, and each joins two different
    components of the game. *)
Definition dependenciesWellFormed (dependencies : list Dependency) : Prop :=
  ForallOrdPairs (fun d e => ~ samePair d e) dependencies
  /\ Forall (fun d => fromComponentId d <> toComponentId d
                      /\ isComponentId (fromComponentId d)
                      /\ isComponentId (toComponentId d))
            dependencies.

Definition stateWellFormed (s : App.State) : Prop :=
  componentsWellFormed (App.components s)
  /\ dependenciesWellFormed (App.dependencies s)
  /\ (forall v, App.selectedComponentId s = Some v -> isComponentId v)
  /\ (forall v, App.pendingDependencyFromId s = Some v -> isComponentId v).

(** ** A session, for instances

    A clock that starts at some instant and advances by one millisecond at
    each reading; a canvas of 1000 by 600; and the state after dropping
    "cloud-compute" on the canvas, selecting it, pressing "Create Dependency"
    and clicking "network-comms". *)

Definition exampleClock (n : nat) : Z := (1700000000000 + Z.of_nat n)%Z.

Definition exampleRect : App.DOMRect := App.mkDOMRect 0 0 1000 600.

Definition exampleSession : UI.State :=
  UI.step exampleClock (UI.ComponentClick "network-comms")
    (UI.step exampleClock UI.CreateDependencyButton
       (UI.step exampleClock (UI.ComponentClick "cloud-compute")
          (UI.step exampleClock (UI.Drop "cloud-compute" 850 150 exampleRect)
             (UI.initial exampleClock)))).

(** The state after dropping each of the components [l] in the middle of
    the canvas, and the session in which every component of the game is
    dropped so and the certificate is then asked for. *)
Definition dropEach (clock : nat -> Z) (l : list MapComponent) (u : UI.State)
    : UI.State :=
  fold_left (fun u c => UI.step clock (UI.Drop (id c) 500 300 exampleRect) u)
            l u.

Definition completedSession : UI.State :=
  UI.step exampleClock UI.ViewCertificate
    (dropEach exampleClock INITIAL_COMPONENTS (UI.initial exampleClock)).

(** ** Gestures on the canvas *)

(** The dependency [d] joins [a] and [b], in either direction. *)
Definition joins (a b : string) (d : Dependency) : bool :=
  (String.eqb (fromComponentId d) a && String.eqb (toComponentId d) b)
  || (String.eqb (fromComponentId d) b && String.eqb (toComponentId d) a).


(** ** Milestones of the score *)

(** The scores at which the score effect asks for a commentary. *)
Definition isMilestone (score : Z) : bool :=
  existsb (Z.eqb score) [25; 50; 75; 100]%Z.

(** ** The numbering of the commentaries *)

(** The commentary [k] carries the number [n]: its id ends with a dash and
    [n] in decimal. *)
Definition numbered (n : nat) (k : Commentary) : Prop :=
  exists front, commentaryId k = (front ++ "-" ++ string_of_nat n)%string.

(** What a function of the commentary module returns from the world [w]: a
    commentary that carries the counter of [w], the counter then going up by
    one; or no commentary, and the counter as it was. *)
Definition countsFrom (w : World) (returned : option Commentary * World) : Prop :=
  match fst returned with
  | Some k =>
      numbered (commentaryIdCounter w) k
      /\ commentaryIdCounter (snd returned) = S (commentaryIdCounter w)
  | None => commentaryIdCounter (snd returned) = commentaryIdCounter w
  end.

(** The commentaries carry numbers that differ from one another and lie
    below the counter. *)
Definition commentaryWellNumbered (s : App.State) : Prop :=
  exists ns,
    Forall2 numbered ns (App.commentary s)
    /\ NoDup ns
    /\ Forall (fun n => (n < commentaryIdCounter (App.world s))%nat) ns.

(** ** The dating of the dependencies *)

(** The dependency [d] was made at the [i]-th reading of the clock: its id
    is "dep-" and what the clock showed then. *)
Definition madeAtReading (clock : nat -> Z) (i : nat) (d : Dependency) : Prop :=
  dependencyId d = ("dep-" ++ string_of_Z (clock i))%string.

(** The dependencies were made at readings of the clock that differ from
    one another and are past. *)
Definition dependenciesWellDated (clock : nat -> Z) (s : App.State) : Prop :=
  exists readings,
    Forall2 (madeAtReading clock) readings (App.dependencies s)
    /\ NoDup readings
    /\ Forall (fun i => (i < clockReads (App.world s))%nat) readings.

(** ** Curves and segments *)



(** The example session continued: the foundational models are selected and
    joined to the cloud, which leaves two dependencies. *)
Definition twoDependencySession : UI.State :=
  UI.step exampleClock (UI.ComponentClick "cloud-compute")
    (UI.step exampleClock UI.CreateDependencyButton
       (UI.step exampleClock (UI.ComponentClick "foundational-ai")
          exampleSession)).

(** * Properties *)

(** ** Comparisons and equality tests *)

Lemma Rltb_true_iff (a b : R) : Rltb a b = true <-> a < b.
Proof.
  unfold Rltb; destruct (Rlt_dec a b); split; intros H;
    solve [ assumption | reflexivity | discriminate | contradiction ].
Qed.

Lemma Rgtb_true_iff (a b : R) : Rgtb a b = true <-> a > b.
Proof.
  unfold Rgtb; destruct (Rgt_dec a b); split; intros H;
    solve [ assumption | reflexivity | discriminate | contradiction ].
Qed.

Lemma Rgeb_true_iff (a b : R) : Rgeb a b = true <-> a >= b.
Proof.
  unfold Rgeb; destruct (Rge_dec a b); split; intros H;
    solve [ assumption | reflexivity | discriminate | contradiction ].
Qed.

Lemma EvolutionStage_eqb_eq (a b : EvolutionStage) :
  EvolutionStage_eqb a b = true <-> a = b.
Proof. destruct a, b; cbn; split; congruence. Qed.

Lemma Classification_eqb_eq (a b : Classification) :
  Classification_eqb a b = true <-> a = b.
Proof. destruct a, b; cbn; split; congruence. Qed.

Lemma ComponentClassification_eqb_eq (a b : ComponentClassification) :
  ComponentClassification_eqb a b = true <-> a = b.
Proof.
  destruct a as [c|], b as [d|]; cbn; try (split; congruence).
  rewrite Classification_eqb_eq; split; congruence.
Qed.

Lemma isSome_true_iff {A : Type} (o : option A) :
  isSome o = true <-> exists a, o = Some a.
Proof.
  destruct o as [a|]; cbn; split; intros H.
  - now exists a.
  - reflexivity.
  - discriminate.
  - destruct H as [a H]; discriminate.
Qed.

(** Splits every comparison of the goal into its two cases. *)
Ltac split_comparisons :=
  repeat match goal with
         | |- context [Rlt_dec ?a ?b] => destruct (Rlt_dec a b)
         | |- context [Rge_dec ?a ?b] => destruct (Rge_dec a b)
         | |- context [Rgt_dec ?a ?b] => destruct (Rgt_dec a b)
         | |- context [Rle_dec ?a ?b] => destruct (Rle_dec a b)
         end.

Ltac unfold_stage_lookup :=
  unfold getEvolutionStageFromX, EVOLUTION_STAGES, Rgeb, Rltb;
  cbn [find xRange fst snd key].

(** ** The evolution stage of an X coordinate *)

Lemma getEvolutionStageFromX_genesis (px : R) :
  getEvolutionStageFromX px = genesis <-> 0 <= px < 25.
Proof.
  unfold_stage_lookup; split_comparisons; cbn; split; intros H;
    solve [ lra | discriminate | reflexivity ].
Qed.

Lemma getEvolutionStageFromX_custom (px : R) :
  getEvolutionStageFromX px = custom <-> 25 <= px < 50.
Proof.
  unfold_stage_lookup; split_comparisons; cbn; split; intros H;
    solve [ lra | discriminate | reflexivity ].
Qed.

Lemma getEvolutionStageFromX_product (px : R) :
  getEvolutionStageFromX px = product <-> 50 <= px < 75.
Proof.
  unfold_stage_lookup; split_comparisons; cbn; split; intros H;
    solve [ lra | discriminate | reflexivity ].
Qed.

Lemma getEvolutionStageFromX_commodity (px : R) :
  getEvolutionStageFromX px = commodity <-> px < 0 \/ 75 <= px.
Proof.
  unfold_stage_lookup; split_comparisons; cbn; split; intros H;
    solve [ lra | discriminate | reflexivity ].
Qed.

(** ** Searching a list *)

Lemma find_firstSatisfying {A : Type} (f : A -> bool) (l : list A) (c : A) :
  find f l = Some c <-> firstSatisfying f l c.
Proof.
  unfold firstSatisfying; induction l as [|a l IH]; cbn.
  - split; [discriminate|].
    intros (pre & post & E & _); destruct pre; discriminate.
  - destruct (f a) eqn:Fa.
    + split.
      * intros E; injection E as ->.
        exists [], l; cbn; repeat split; auto. intros d [].
      * intros (pre & post & E & Fc & Hpre).
        destruct pre as [|b pre]; cbn in E; injection E as -> El.
        -- reflexivity.
        -- rewrite (Hpre b) in Fa by (left; reflexivity). discriminate.
    + rewrite IH; split.
      * intros (pre & post & -> & Fc & Hpre).
        exists (a :: pre), post; cbn; repeat split; auto.
        intros d [<-|Hd]; auto.
      * intros (pre & post & E & Fc & Hpre).
        destruct pre as [|b pre]; cbn in E; injection E as -> El.
        -- congruence.
        -- exists pre, post; repeat split; auto.
           intros d Hd; apply Hpre; right; exact Hd.
Qed.

Lemma find_isFirstWith {A : Type} (f : A -> bool) (P : A -> Prop)
    (l : list A) (c : A) :
  (forall a, f a = true <-> P a) ->
  find f l = Some c <-> isFirstWith P l c.
Proof.
  intros Hf. rewrite find_firstSatisfying.
  unfold firstSatisfying, isFirstWith; split;
    intros (pre & post & E & Hc & Hpre); exists pre, post;
    (split; [exact E|]); (split; [now apply Hf|]); intros d Hd.
  - intros Pd. apply Hf in Pd. rewrite (Hpre d Hd) in Pd. discriminate.
  - destruct (f d) eqn:Fd; [|reflexivity].
    apply Hf in Fd. now destruct (Hpre d Hd).
Qed.

Lemma find_none_iff {A : Type} (f : A -> bool) (l : list A) :
  find f l = None <-> forall d, In d l -> f d = false.
Proof.
  split.
  - apply find_none.
  - induction l as [|a l IH]; cbn; intros H; [reflexivity|].
    rewrite (H a) by (left; reflexivity).
    apply IH; intros d Hd; apply H; right; exact Hd.
Qed.

(** ** Badges *)

Lemma genesis_range_in_table :
  In (genesis, (0, 25)) (map (fun s => (key s, xRange s)) EVOLUTION_STAGES).
Proof. cbn; auto. Qed.

Lemma innovation_star_callback (c : MapComponent) :
  match position c with
  | None => false
  | Some p =>
      EvolutionStage_eqb (getEvolutionStageFromX (x p)) genesis
      && ComponentClassification_eqb (classification c) (Some build)
  end = true <-> placedInGenesisAsBuild c.
Proof.
  unfold placedInGenesisAsBuild; destruct (position c) as [p|].
  - rewrite andb_true_iff, EvolutionStage_eqb_eq, ComponentClassification_eqb_eq,
      getEvolutionStageFromX_genesis.
    split.
    + intros [Hx Hc]; exists p; auto.
    + intros (q & E & Hx & Hc); injection E as <-; auto.
  - split; [discriminate|]. intros (q & E & _); discriminate.
Qed.

(** C7: the innovation-star badge is earned exactly when every component whose
    correct evolution is genesis has a position with X in the genesis range
    and is classified "build"; with no genesis component at all it is earned. *)
Theorem innovation_star_iff (components : list MapComponent)
    (dependencies : list Dependency) :
  (checkBadgeEarned "innovation-star" components dependencies = true <->
   forall c, In c components -> correctEvolution c = genesis ->
             placedInGenesisAsBuild c)
  /\ ((forall c, In c components -> correctEvolution c <> genesis) ->
      checkBadgeEarned "innovation-star" components dependencies = true).
Proof.
  assert (E : checkBadgeEarned "innovation-star" components dependencies = true <->
              forall c, In c components -> correctEvolution c = genesis ->
                        placedInGenesisAsBuild c).
  { change (checkBadgeEarned "innovation-star" components dependencies)
      with (forallb (fun c =>
                       match position c with
                       | None => false
                       | Some p =>
                           EvolutionStage_eqb (getEvolutionStageFromX (x p)) genesis
                           && ComponentClassification_eqb (classification c)
                                                          (Some build)
                       end)
                    (filter (fun c => EvolutionStage_eqb (correctEvolution c) genesis)
                            components)).
    rewrite forallb_forall; split.
    - intros H c Hin Hg. apply innovation_star_callback, H.
      apply filter_In; split; [exact Hin|]. now apply EvolutionStage_eqb_eq.
    - intros H c Hc. apply filter_In in Hc as [Hin Hg].
      apply innovation_star_callback, H; [exact Hin|].
      now apply EvolutionStage_eqb_eq. }
  split; [exact E|].
  intros Hnone; apply E; intros c Hin Hg. now destruct (Hnone c Hin).
Qed.

(** An instance without genesis components, and one where the only genesis
    component sits at X = 15 as "build". *)
Lemma innovation_star_iff_witness :
  checkBadgeEarned "innovation-star"
    [initialComponent "cloud-compute" "Cloud Compute and Storage"
       "Infrastructure as a service" commodity buy 85 25] [] = true
  /\ checkBadgeEarned "innovation-star"
       [mkMapComponent "trust-framework" "Trust & Transparency Framework"
          "System for ensuring ethical AI operations" genesis (Some build)
          (mkPosition 20 40) (Some (mkPosition 15 40)) (Some build) true] []
     = true.
Proof.
  split.
  - apply (proj2 (innovation_star_iff _ [])).
    intros c [<-|[]]; cbn; discriminate.
  - apply (proj1 (innovation_star_iff _ [])).
    intros c [<-|[]] _.
    exists (mkPosition 15 40); cbn; repeat split; lra.
Defined.

(** C8: the reindeer-efficiency badge is earned exactly when the first
    component whose correct classification is "repurpose" is classified
    "repurpose"; with no such component it is not earned. *)
Theorem reindeer_efficiency_iff (components : list MapComponent)
    (dependencies : list Dependency) :
  (checkBadgeEarned "reindeer-efficiency" components dependencies = true <->
   exists c,
     isFirstWith (fun c => correctClassification c = Some repurpose)
                 components c
     /\ classification c = Some repurpose)
  /\ ((forall c, In c components -> correctClassification c <> Some repurpose) ->
      checkBadgeEarned "reindeer-efficiency" components dependencies = false).
Proof.
  set (f := fun c : MapComponent =>
              ComponentClassification_eqb (correctClassification c) (Some repurpose)).
  assert (Hf : forall c, f c = true <-> correctClassification c = Some repurpose)
    by (intros c; apply ComponentClassification_eqb_eq).
  change (checkBadgeEarned "reindeer-efficiency" components dependencies)
    with (match find f components with
          | None => false
          | Some repurposeComponent =>
              ComponentClassification_eqb (classification repurposeComponent)
                                          (Some repurpose)
          end).
  split.
  - destruct (find f components) as [r|] eqn:F.
    + rewrite ComponentClassification_eqb_eq; split.
      * intros H; exists r; split; [|exact H].
        now apply (find_isFirstWith f _ _ _ Hf).
      * intros (c & Hc & Hcl). apply (find_isFirstWith f _ _ _ Hf) in Hc.
        rewrite F in Hc; injection Hc as ->; exact Hcl.
    + split; [discriminate|].
      intros (c & Hc & _). apply (find_isFirstWith f _ _ _ Hf) in Hc.
      congruence.
  - intros Hnone.
    assert (F : find f components = None).
    { apply find_none_iff; intros d Hd.
      destruct (f d) eqn:Fd; [|reflexivity].
      apply Hf in Fd. now destruct (Hnone d Hd). }
    now rewrite F.
Qed.

Lemma reindeer_efficiency_iff_witness :
  checkBadgeEarned "reindeer-efficiency"
    [initialComponent "cloud-compute" "Cloud Compute and Storage"
       "Infrastructure as a service" commodity buy 85 25] [] = false.
Proof.
  apply (proj2 (reindeer_efficiency_iff _ [])).
  intros c [<-|[]]; cbn; discriminate.
Defined.

Lemma checkBadgeEarned_cloud_wisdom (components : list MapComponent)
    (dependencies : list Dependency) :
  checkBadgeEarned "cloud-wisdom" components dependencies = true <->
  exists cloudCompute p,
    isFirstWith (fun c => id c = "cloud-compute") components cloudCompute
    /\ position cloudCompute = Some p
    /\ classification cloudCompute = Some buy
    /\ getEvolutionStageFromX (x p) = commodity.
Proof.
  set (f := fun c : MapComponent => String.eqb (id c) "cloud-compute").
  assert (Hf : forall c, f c = true <-> id c = "cloud-compute")
    by (intros c; apply String.eqb_eq).
  change (checkBadgeEarned "cloud-wisdom" components dependencies)
    with (match find f components with
          | None => false
          | Some cloudCompute =>
              match position cloudCompute with
              | None => false
              | Some p =>
                  EvolutionStage_eqb (getEvolutionStageFromX (x p)) commodity
                  && ComponentClassification_eqb (classification cloudCompute)
                                                 (Some buy)
              end
          end).
  split.
  - destruct (find f components) as [c|] eqn:F; [|discriminate].
    destruct (position c) as [p|] eqn:P; [|discriminate].
    rewrite andb_true_iff, EvolutionStage_eqb_eq, ComponentClassification_eqb_eq.
    intros [He Hc]. exists c, p; repeat split; auto.
    now apply (find_isFirstWith f _ _ _ Hf).
  - intros (c & p & Hfirst & P & C & He).
    apply (find_isFirstWith f _ _ _ Hf) in Hfirst.
    rewrite Hfirst, P, C, He. reflexivity.
Qed.

(** C10: an X coordinate below 0 or at least 100 is read as the commodity
    stage, so the cloud-wisdom badge is earned when the first component with
    the id "cloud-compute" is classified "buy" and has such an X; the badge is
    earned exactly when that component is classified "buy" and its X is below
    0 or at least 75. *)
Theorem cloud_wisdom_outside_tiled_range :
  (forall px, px < 0 \/ 100 <= px -> getEvolutionStageFromX px = commodity)
  /\ (forall components dependencies cloudCompute p,
         isFirstWith (fun c => id c = "cloud-compute") components cloudCompute ->
         position cloudCompute = Some p ->
         classification cloudCompute = Some buy ->
         x p < 0 \/ 100 <= x p ->
         checkBadgeEarned "cloud-wisdom" components dependencies = true)
  /\ (forall components dependencies,
         checkBadgeEarned "cloud-wisdom" components dependencies = true <->
         exists cloudCompute p,
           isFirstWith (fun c => id c = "cloud-compute") components cloudCompute
           /\ position cloudCompute = Some p
           /\ classification cloudCompute = Some buy
           /\ (x p < 0 \/ 75 <= x p)).
Proof.
  assert (S : forall px, px < 0 \/ 100 <= px ->
                         getEvolutionStageFromX px = commodity).
  { intros px H; apply getEvolutionStageFromX_commodity; lra. }
  split; [exact S|]. split.
  - intros components dependencies cloudCompute p F P C X.
    apply checkBadgeEarned_cloud_wisdom.
    exists cloudCompute, p; repeat split; auto.
  - intros components dependencies.
    rewrite checkBadgeEarned_cloud_wisdom.
    split; intros (c & p & F & P & C & X); exists c, p; repeat split; auto;
      now apply getEvolutionStageFromX_commodity.
Qed.

Lemma cloud_wisdom_outside_tiled_range_witness :
  getEvolutionStageFromX (-5) = commodity
  /\ checkBadgeEarned "cloud-wisdom"
       [mkMapComponent "cloud-compute" "Cloud Compute and Storage"
          "Infrastructure as a service" commodity (Some buy)
          (mkPosition 85 25) (Some (mkPosition 120 25)) (Some buy) true] []
     = true.
Proof.
  split.
  - apply (proj1 cloud_wisdom_outside_tiled_range); lra.
  - eapply (proj1 (proj2 cloud_wisdom_outside_tiled_range)).
    + exists [], []. split; [reflexivity|]. split; [reflexivity|]. intros d [].
    + reflexivity.
    + reflexivity.
    + cbn; lra.
Defined.

(** ** Classification score *)

Lemma filter_idempotent {A : Type} (f : A -> bool) (l : list A) :
  filter f (filter f l) = filter f l.
Proof.
  induction l as [|a l IH]; cbn; [reflexivity|].
  destruct (f a) eqn:Fa; cbn; [rewrite Fa, IH|]; auto.
Qed.

Lemma correctClassifications_count (components : list MapComponent) :
  List.length
    (filter (fun c => ComponentClassification_eqb (classification c)
                                                  (correctClassification c))
            (filter (fun c => isSome (classification c)) components))
  = correctlyClassifiedCount components.
Proof.
  unfold correctlyClassifiedCount, isCorrectlyClassified.
  induction components as [|c l IH]; cbn; [reflexivity|].
  destruct (classification c) as [k|] eqn:K; cbn.
  - rewrite K. destruct (correctClassification c) as [t|]; cbn.
    + destruct (Classification_eqb k t); cbn; now rewrite IH.
    + exact IH.
  - exact IH.
Qed.

Lemma calculateClassificationScore_unfold (components : list MapComponent) :
  calculateClassificationScore components
  = if Nat.eqb (classifiedCount components) 0 then 0
    else INR (correctlyClassifiedCount components)
         / INR (classifiedCount components) * 30.
Proof.
  unfold calculateClassificationScore.
  rewrite correctClassifications_count. reflexivity.
Qed.

Lemma classified_counts_of_filter (components : list MapComponent) :
  classifiedCount (filter isClassified components) = classifiedCount components
  /\ correctlyClassifiedCount (filter isClassified components)
     = correctlyClassifiedCount components.
Proof.
  unfold classifiedCount, correctlyClassifiedCount; split.
  - now rewrite filter_idempotent.
  - induction components as [|c l IH]; cbn; [reflexivity|].
    unfold isClassified at 1, isCorrectlyClassified at 2.
    destruct (classification c) as [k|] eqn:K; cbn.
    + unfold isCorrectlyClassified at 1; rewrite K.
      destruct (correctClassification c) as [t|]; [|exact IH].
      destruct (Classification_eqb k t); cbn; now rewrite IH.
    + exact IH.
Qed.

Lemma isClassified_iff (c : MapComponent) :
  isClassified c = true <-> classification c <> None.
Proof.
  unfold isClassified. destruct (classification c); cbn; split; congruence.
Qed.

(** A component counts as correctly classified exactly when its
    classification is set and equals its correct classification. *)
Lemma isCorrectlyClassified_iff (c : MapComponent) :
  isCorrectlyClassified c = true <->
  classification c <> None /\ classification c = correctClassification c.
Proof.
  unfold isCorrectlyClassified.
  destruct (classification c) as [k|], (correctClassification c) as [t|].
  - rewrite Classification_eqb_eq. split.
    + intros ->. split; [discriminate | reflexivity].
    + intros [_ E]. now injection E.
  - split; [discriminate | intros [_ E]; discriminate E].
  - split; [discriminate | intros [H _]; now destruct H].
  - split; [discriminate | intros [H _]; now destruct H].
Qed.

(** C9: a component is counted as classified when its classification is
    set, and as correct when moreover its classification equals its correct
    classification; the classification score is 30 times the share of the
    correct components among the classified ones, 0 when none is classified,
    and unclassified components do not change it; two classified components,
    both correct, among four give 30. *)
Theorem classification_score_spec (components : list MapComponent) :
  (forall c, isClassified c = true <-> classification c <> None)
  /\ (forall c, isCorrectlyClassified c = true <->
                classification c <> None
                /\ classification c = correctClassification c)
  /\ (classifiedCount components = 0%nat ->
      calculateClassificationScore components = 0)
  /\ (classifiedCount components <> 0%nat ->
      calculateClassificationScore components
      = INR (correctlyClassifiedCount components)
        / INR (classifiedCount components) * 30)
  /\ calculateClassificationScore components
     = calculateClassificationScore (filter isClassified components)
  /\ (List.length components = 4%nat ->
      classifiedCount components = 2%nat ->
      correctlyClassifiedCount components = 2%nat ->
      calculateClassificationScore components = 30).
Proof.
  split; [exact isClassified_iff|]. split; [exact isCorrectlyClassified_iff|].
  rewrite !calculateClassificationScore_unfold.
  destruct (classified_counts_of_filter components) as [-> ->].
  repeat split.
  - intros ->; reflexivity.
  - intros H; apply Nat.eqb_neq in H; now rewrite H.
  - intros _ -> ->; cbn [Nat.eqb INR]. field.
Qed.

(** Two correct components among four, two of them unclassified, score 30;
    nothing scores 0; and with a third classified component, one to buy
    that is classified as build, the two correct ones among three classified
    score 20. *)
Lemma classification_score_spec_witness :
  let classified (i : string) (k : Classification) :=
    mkMapComponent i i i product (Some k) (mkPosition 60 50) None (Some k) false in
  let unclassified (i : string) (k : Classification) :=
    mkMapComponent i i i product (Some k) (mkPosition 60 50) None None false in
  let mistaken :=
    mkMapComponent "cloud-compute" "cloud-compute" "cloud-compute" commodity
                   (Some buy) (mkPosition 85 25) None (Some build) false in
  let components :=
    [ classified "delivery-routing" buy; unclassified "foundational-ai" buy;
      classified "mince-pie-delivery" build; unclassified "elf-dashboard" build ] in
  calculateClassificationScore components = 30
  /\ calculateClassificationScore [] = 0
  /\ calculateClassificationScore components
     = INR (correctlyClassifiedCount components)
       / INR (classifiedCount components) * 30
  /\ isClassified mistaken = true
  /\ isCorrectlyClassified mistaken = false
  /\ calculateClassificationScore (mistaken :: components) = 20.
Proof.
  intros classified unclassified mistaken components.
  destruct (classification_score_spec components)
    as (_ & Hcorrect & _ & Hratio & _ & Hfour).
  destruct (classification_score_spec []) as (_ & _ & Hzero & _).
  destruct (classification_score_spec (mistaken :: components))
    as (Hset & _ & _ & Hmixed & _).
  split; [|split; [|split; [|split; [|split]]]].
  - apply Hfour; reflexivity.
  - apply Hzero; reflexivity.
  - apply Hratio; cbn; discriminate.
  - apply Hset. cbn. discriminate.
  - destruct (isCorrectlyClassified mistaken) eqn:E; [|reflexivity].
    apply Hcorrect in E as [_ E]. cbn in E. discriminate E.
  - rewrite Hmixed by (cbn; discriminate).
    change (correctlyClassifiedCount (mistaken :: components)) with 2%nat.
    change (classifiedCount (mistaken :: components)) with 3%nat.
    cbn [INR]. field.
Defined.

(** ** Completion bonus *)

Lemma isSome_classification (c : MapComponent) :
  isSome (classification c) = true <-> classification c <> None.
Proof. destruct (classification c); cbn; split; congruence. Qed.

Lemma allComplete_iff (components : list MapComponent) :
  forallb (fun c => isPlaced c) components
  && forallb (fun c => isSome (classification c)) components = true
  <-> allComplete components.
Proof.
  unfold allComplete; rewrite andb_true_iff, !forallb_forall; split.
  - intros [Hp Hc] c Hin; split; [now apply Hp | now apply isSome_classification, Hc].
  - intros H; split; intros c Hin; destruct (H c Hin) as [Hp Hc]; auto.
    now apply isSome_classification.
Qed.

(** C6: the completion bonus is 15 when every component is placed and
    classified, and otherwise 15 times the mean of the placed share and the
    classified share; 11 components with 5 placed and 5 classified give
    75/11, which is 6.8 to one decimal. *)
Theorem completion_bonus_spec (components : list MapComponent) :
  (allComplete components -> calculateCompletionBonus components = 15)
  /\ (~ allComplete components ->
      calculateCompletionBonus components
      = ((INR (placedCount components) / INR (List.length components)
          + INR (classifiedCount components) / INR (List.length components)) / 2)
        * 15)
  /\ (List.length components = 11%nat ->
      placedCount components = 5%nat ->
      classifiedCount components = 5%nat ->
      calculateCompletionBonus components = 75 / 11
      /\ Rabs (calculateCompletionBonus components - 68 / 10) < 5 / 100).
Proof.
  assert (Hnot : ~ allComplete components ->
                 calculateCompletionBonus components
                 = ((INR (placedCount components) / INR (List.length components)
                     + INR (classifiedCount components)
                       / INR (List.length components)) / 2) * 15).
  { intros H. unfold calculateCompletionBonus.
    destruct (forallb (fun c => isPlaced c) components
              && forallb (fun c => isSome (classification c)) components) eqn:E.
    - now apply allComplete_iff in E.
    - reflexivity. }
  split; [|split; [exact Hnot|]].
  - intros H. unfold calculateCompletionBonus.
    apply allComplete_iff in H. now rewrite H.
  - intros Hlen Hp Hc.
    assert (Hinc : ~ allComplete components).
    { intros H. apply allComplete_iff, andb_true_iff in H as [H _].
      assert (Hall : filter (fun c => isPlaced c) components = components).
      { clear - H. induction components as [|c l IH]; cbn in *; [reflexivity|].
        apply andb_true_iff in H as [-> H]. now rewrite IH. }
      unfold placedCount in Hp. rewrite Hall in Hp. lia. }
    rewrite (Hnot Hinc), Hlen, Hp, Hc. cbn [INR].
    split; [field|].
    replace (((1 + 1 + 1 + 1 + 1) / (1 + 1 + 1 + 1 + 1 + 1 + 1 + 1 + 1 + 1 + 1)
              + (1 + 1 + 1 + 1 + 1) / (1 + 1 + 1 + 1 + 1 + 1 + 1 + 1 + 1 + 1 + 1))
             / 2 * 15 - 68 / 10) with (1 / 55) by field.
    rewrite Rabs_pos_eq; lra.
Qed.

Lemma completion_bonus_spec_witness :
  let item (i : string) (pos : option Position) (k : ComponentClassification)
           (placed : bool) :=
    mkMapComponent i i i custom (Some build) (mkPosition 35 45) pos k placed in
  let placedOnly (i : string) := item i (Some (mkPosition 30 40)) None true in
  let classifiedOnly (i : string) := item i None (Some build) false in
  let components :=
    [ placedOnly "a"; placedOnly "b"; placedOnly "c"; placedOnly "d";
      placedOnly "e"; classifiedOnly "f"; classifiedOnly "g";
      classifiedOnly "h"; classifiedOnly "i"; classifiedOnly "j";
      item "k" None None false ] in
  (calculateCompletionBonus components = 75 / 11
   /\ Rabs (calculateCompletionBonus components - 68 / 10) < 5 / 100)
  /\ calculateCompletionBonus
       [item "a" (Some (mkPosition 30 40)) (Some buy) true] = 15.
Proof.
  intros item placedOnly classifiedOnly components. split.
  - apply (proj2 (proj2 (completion_bonus_spec components))); reflexivity.
  - apply (proj1 (completion_bonus_spec _)).
    intros c [<-|[]]; cbn; split; [reflexivity | discriminate].
Defined.

(** ** Dependency score *)

Lemma isCorrectDependency_iff (dep : Dependency) :
  isCorrectDependency dep = true <-> matchesReferenceTable dep.
Proof.
  unfold isCorrectDependency, matchesReferenceTable.
  rewrite existsb_exists; split.
  - intros ([from to] & Hin & H). exists from, to; split; [exact Hin|].
    apply orb_true_iff in H as [H|H]; apply andb_true_iff in H as [H1 H2];
      apply String.eqb_eq in H1, H2; auto.
  - intros (from & to & Hin & H). exists (from, to); split; [exact Hin|].
    apply orb_true_iff.
    destruct H as [[H1 H2]|[H1 H2]]; [left|right];
      apply andb_true_iff; split; now apply String.eqb_eq.
Qed.

(** The counting loop of [calculateDependencyScore], started at any count. *)
Lemma correctDependencies_loop (dependencies : list Dependency) (n : nat) :
  fold_left (fun correctDependencies dep =>
               if isCorrectDependency dep
               then S correctDependencies else correctDependencies)
            dependencies n
  = (n + correctCount dependencies)%nat.
Proof.
  unfold correctCount; revert n.
  induction dependencies as [|d l IH]; intros n; cbn [fold_left filter].
  - cbn; lia.
  - rewrite IH. destruct (isCorrectDependency d); cbn [List.length]; lia.
Qed.

Lemma correctCount_le (dependencies : list Dependency) :
  (correctCount dependencies <= List.length dependencies)%nat.
Proof. apply filter_length_le. Qed.

Lemma calculateDependencyScore_unfold (dependencies : list Dependency) :
  calculateDependencyScore dependencies
  = if Nat.eqb (List.length dependencies) 0 then 0
    else INR (correctCount dependencies)
         / INR (Nat.max (List.length dependencies) 12) * 25.
Proof.
  unfold calculateDependencyScore.
  rewrite correctDependencies_loop. reflexivity.
Qed.

(** C2: the dependency score is 25 times the number of declared dependencies
    that match the reference table, in either order, over the larger of the
    number declared and the 12 entries of the table; nothing declared gives
    0, and three declared that all match give 6.25. *)
Theorem dependency_score_spec (dependencies : list Dependency) :
  List.length CORRECT_DEPENDENCIES = 12%nat
  /\ (forall dep, isCorrectDependency dep = true <-> matchesReferenceTable dep)
  /\ calculateDependencyScore dependencies
     = INR (correctCount dependencies)
       / INR (Nat.max (List.length dependencies)
                      (List.length CORRECT_DEPENDENCIES)) * 25
  /\ (dependencies = [] -> calculateDependencyScore dependencies = 0)
  /\ (List.length dependencies = 3%nat ->
      (forall dep, In dep dependencies -> matchesReferenceTable dep) ->
      calculateDependencyScore dependencies = 625 / 100).
Proof.
  split; [reflexivity|]. split; [exact isCorrectDependency_iff|].
  rewrite calculateDependencyScore_unfold.
  change (List.length CORRECT_DEPENDENCIES) with 12%nat.
  split; [|split].
  - destruct dependencies as [|d l]; [|reflexivity].
    cbn [List.length Nat.eqb correctCount filter Nat.max INR]. field.
  - intros ->; reflexivity.
  - intros Hlen Hall.
    assert (Hc : correctCount dependencies = 3%nat).
    { unfold correctCount. rewrite <- Hlen. f_equal.
      clear Hlen. induction dependencies as [|d l IH]; [reflexivity|].
      cbn [filter].
      rewrite (proj2 (isCorrectDependency_iff d)) by (apply Hall; now left).
      f_equal; apply IH; intros dep Hdep; apply Hall; now right. }
    rewrite Hc, Hlen. cbn [Nat.eqb Nat.max INR]. field.
Qed.

Lemma dependency_score_spec_witness :
  let dependencies :=
    [ mkDependency "dep-1" "elf-dashboard" "mince-pie-delivery";
      mkDependency "dep-2" "delivery-routing" "cloud-compute";
      mkDependency "dep-3" "network-comms" "cloud-compute" ] in
  calculateDependencyScore dependencies = 625 / 100
  /\ calculateDependencyScore [] = 0.
Proof.
  intros dependencies; split.
  - apply (proj2 (proj2 (proj2 (proj2 (dependency_score_spec dependencies)))));
      [reflexivity|].
    intros dep [<-|[<-|[<-|[]]]]; apply isCorrectDependency_iff; reflexivity.
  - apply (proj1 (proj2 (proj2 (proj2 (dependency_score_spec []))))).
    reflexivity.
Defined.

(** ** Position score *)

Lemma positionScore_loop (l : list MapComponent) (totalScore : R) :
  fold_left positionScoreStep l totalScore
  = totalScore + Rsum (map (itemPositionValue 141) l).
Proof.
  revert totalScore; induction l as [|c l IH]; intros totalScore;
    cbn [fold_left map Rsum]; [ring|].
  rewrite IH. unfold positionScoreStep, itemPositionValue.
  destruct (position c); cbv zeta; ring.
Qed.

Lemma calculatePositionScore_formula (components : list MapComponent) :
  calculatePositionScore components = positionScoreFormula 141 components.
Proof.
  unfold calculatePositionScore, positionScoreFormula, placedItems.
  change (filter (fun c => isPlaced c && isSome (position c)) components)
    with (filter isPlacedItem components).
  destruct (filter isPlacedItem components) as [|c l]; [reflexivity|].
  cbn [List.length Nat.eqb]. rewrite positionScore_loop.
  cbn [positionAccuracy WEIGHTS]. now rewrite Rplus_0_l.
Qed.

(** C4, as the code has it: the position score is the mean over the placed
    components of [(1 - min (d / 141) 1) ^ 2] on the scale 0..100, scaled by
    30/100, where 141 is the constant the code divides by; unplaced components
    count neither in the sum nor in the number, and with nothing placed the
    score is 0. *)
Theorem position_score_spec (components : list MapComponent) :
  calculatePositionScore components = positionScoreFormula 141 components
  /\ (placedItems components <> [] ->
      calculatePositionScore components
      = Rsum (map (itemPositionValue 141) (placedItems components))
        / INR (List.length (placedItems components)) * (30 / 100))
  /\ (placedItems components = [] -> calculatePositionScore components = 0)
  /\ calculatePositionScore components
     = calculatePositionScore (placedItems components).
Proof.
  rewrite !calculatePositionScore_formula.
  unfold positionScoreFormula.
  assert (E : placedItems (placedItems components) = placedItems components)
    by apply filter_idempotent.
  rewrite E.
  repeat split.
  - intros H. destruct (placedItems components); [now destruct H | reflexivity].
  - intros ->; reflexivity.
Qed.

Lemma position_score_spec_witness :
  let components :=
    [ mkMapComponent "mince-pie-delivery" "Mince Pie Delivery"
        "The core service delivering festive treats" product (Some build)
        (mkPosition 65 85) (Some (mkPosition 65 35)) None true ] in
  calculatePositionScore components
  = Rsum (map (itemPositionValue 141) (placedItems components))
    / INR (List.length (placedItems components)) * (30 / 100)
  /\ calculatePositionScore INITIAL_COMPONENTS = 0.
Proof.
  intros components; split.
  - apply (proj1 (proj2 (position_score_spec components))).
    cbn; discriminate.
  - apply (proj1 (proj2 (proj2 (position_score_spec INITIAL_COMPONENTS)))).
    reflexivity.
Defined.

Lemma maxDiagonal_sqr : maxDiagonal * maxDiagonal = 20000.
Proof. unfold maxDiagonal; rewrite sqrt_sqrt; lra. Qed.

Lemma maxDiagonal_gt_141 : 141 < maxDiagonal.
Proof.
  assert (H := maxDiagonal_sqr).
  assert (P : 0 <= maxDiagonal) by apply sqrt_pos.
  nra.
Qed.

(** C4 as stated fails: with the diagonal of the space as the maximum
    distance the formula is not the score the code gives: a component placed 50 below its target scores
    [(91/141) ^ 2 * 30], not [(1 - 50 / maxDiagonal) ^ 2 * 30]. *)
Lemma position_score_not_by_diagonal :
  let components :=
    [ mkMapComponent "mince-pie-delivery" "Mince Pie Delivery"
        "The core service delivering festive treats" product (Some build)
        (mkPosition 65 85) (Some (mkPosition 65 35)) None true ] in
  calculatePositionScore components
  <> positionScoreFormula maxDiagonal components.
Proof.
  intros components. rewrite calculatePositionScore_formula.
  unfold positionScoreFormula, components.
  cbn [placedItems filter isPlacedItem isPlaced position isSome andb
       map Rsum List.length INR itemPositionValue correctPosition].
  assert (Hd : calculateDistance (mkPosition 65 35) (mkPosition 65 85) = 50).
  { unfold calculateDistance; cbn [x y].
    replace ((65 - 65) * (65 - 65) + (35 - 85) * (35 - 85)) with (50 * 50) by ring.
    apply sqrt_square; lra. }
  rewrite Hd.
  assert (HD := maxDiagonal_gt_141). assert (HS := maxDiagonal_sqr).
  assert (Hinv : 0 < / maxDiagonal) by (apply Rinv_0_lt_compat; lra).
  assert (Hq : 50 / maxDiagonal * maxDiagonal = 50) by (field; lra).
  rewrite !Rmin_left.
  - intros E.
    assert (Hsq : (1 - 50 / 141) ^ 2 = (1 - 50 / maxDiagonal) ^ 2) by lra.
    assert (Hlt : 50 / maxDiagonal < 50 / 141).
    { unfold Rdiv. apply Rmult_lt_compat_l; [lra|].
      apply Rinv_lt_contravar; lra. }
    assert (Hpos : 0 < 50 / maxDiagonal) by (unfold Rdiv; nra).
    nra.
  - unfold Rdiv; nra.
  - lra.
Qed.

(** ** Total score *)

Lemma Rsum_bounds (l : list R) (hi : R) :
  (forall r, In r l -> 0 <= r <= hi) ->
  0 <= Rsum l <= INR (List.length l) * hi.
Proof.
  induction l as [|a l IH]; intros H.
  - cbn; lra.
  - assert (Ha : 0 <= a <= hi) by (apply H; now left).
    assert (Hl : 0 <= Rsum l <= INR (List.length l) * hi)
      by (apply IH; intros r Hr; apply H; now right).
    change (List.length (a :: l)) with (S (List.length l)).
    rewrite S_INR. cbn [Rsum]. lra.
Qed.

Lemma itemPositionValue_bounds (c : MapComponent) :
  0 <= itemPositionValue 141 c <= 100.
Proof.
  unfold itemPositionValue. destruct (position c) as [p|]; [|lra].
  assert (Hd : 0 <= calculateDistance p (correctPosition c))
    by apply sqrt_pos.
  set (n := Rmin (calculateDistance p (correctPosition c) / 141) 1).
  assert (Hn : 0 <= n <= 1).
  { unfold n; split; [|apply Rmin_r].
    apply Rmin_glb; [|lra]. unfold Rdiv; nra. }
  nra.
Qed.

Lemma ratio_bounds (a b : nat) :
  (a <= b)%nat -> (0 < b)%nat -> 0 <= INR a / INR b <= 1.
Proof.
  intros Hab Hb.
  assert (Ha : 0 <= INR a) by apply pos_INR.
  assert (Hb' : 0 < INR b) by now apply lt_0_INR.
  assert (Hab' : INR a <= INR b) by now apply le_INR.
  split.
  - apply Rmult_le_pos; [exact Ha|]. left; now apply Rinv_0_lt_compat.
  - apply (Rmult_le_reg_r (INR b)); [exact Hb'|].
    unfold Rdiv; rewrite Rmult_assoc, Rinv_l; lra.
Qed.

Lemma calculatePositionScore_bounds (components : list MapComponent) :
  0 <= calculatePositionScore components <= 30.
Proof.
  rewrite calculatePositionScore_formula; unfold positionScoreFormula.
  destruct (placedItems components) as [|c l]; [lra|].
  set (placed := c :: l).
  assert (Hs : 0 <= Rsum (map (itemPositionValue 141) placed)
               <= INR (List.length (map (itemPositionValue 141) placed)) * 100).
  { apply Rsum_bounds. intros r Hr. apply in_map_iff in Hr as (d & <- & _).
    apply itemPositionValue_bounds. }
  rewrite length_map in Hs.
  assert (Hn : 0 < INR (List.length placed)) by (apply lt_0_INR; cbn; lia).
  set (s := Rsum (map (itemPositionValue 141) placed)) in *.
  set (n := INR (List.length placed)) in *.
  assert (Hq : 0 <= s / n <= 100).
  { assert (Hi : 0 < / n) by now apply Rinv_0_lt_compat.
    split.
    - apply Rmult_le_pos; lra.
    - apply (Rmult_le_reg_r n); [exact Hn|].
      unfold Rdiv; rewrite Rmult_assoc, Rinv_l; lra. }
  lra.
Qed.

Lemma calculateClassificationScore_bounds (components : list MapComponent) :
  0 <= calculateClassificationScore components <= 30.
Proof.
  rewrite calculateClassificationScore_unfold.
  destruct (Nat.eqb (classifiedCount components) 0) eqn:E; [lra|].
  apply Nat.eqb_neq in E.
  assert (H : 0 <= INR (correctlyClassifiedCount components)
                   / INR (classifiedCount components) <= 1).
  { apply ratio_bounds; [|lia].
    rewrite <- correctClassifications_count. apply filter_length_le. }
  lra.
Qed.

Lemma calculateDependencyScore_bounds (dependencies : list Dependency) :
  0 <= calculateDependencyScore dependencies <= 25.
Proof.
  rewrite calculateDependencyScore_unfold.
  destruct (Nat.eqb (List.length dependencies) 0); [lra|].
  assert (H : 0 <= INR (correctCount dependencies)
                   / INR (Nat.max (List.length dependencies) 12) <= 1).
  { apply ratio_bounds; [|lia].
    pose proof (correctCount_le dependencies). lia. }
  lra.
Qed.

Lemma calculateCompletionBonus_bounds (components : list MapComponent) :
  0 <= calculateCompletionBonus components <= 15.
Proof.
  unfold calculateCompletionBonus.
  destruct (forallb (fun c => isPlaced c) components
            && forallb (fun c => isSome (classification c)) components) eqn:E;
    cbn [completionBonus WEIGHTS]; [lra|].
  assert (Hlen : (0 < List.length components)%nat).
  { destruct components; [discriminate E | cbn; lia]. }
  assert (Hp := ratio_bounds _ _ (filter_length_le (fun c => isPlaced c) components)
                             Hlen).
  assert (Hc := ratio_bounds _ _
                  (filter_length_le (fun c => isSome (classification c)) components)
                  Hlen).
  lra.
Qed.

Lemma Math_round_bounds (r : R) (lo hi : Z) :
  IZR lo <= r <= IZR hi -> (lo <= Math_round r <= hi)%Z.
Proof.
  intros [Hlo Hhi]; unfold Math_round; split.
  - apply Zfloor_lub; lra.
  - rewrite <- (Zfloor_eq hi (IZR hi + / 2)) by lra.
    apply Zfloor_le; lra.
Qed.

(** X1: The total score is an integer between 0 and 100 whatever the input. *)
Theorem calculateTotalScore_range (components : list MapComponent)
    (dependencies : list Dependency) :
  (0 <= calculateTotalScore components dependencies <= 100)%Z.
Proof.
  unfold calculateTotalScore. apply Math_round_bounds.
  pose proof (calculatePositionScore_bounds components).
  pose proof (calculateClassificationScore_bounds components).
  pose proof (calculateDependencyScore_bounds dependencies).
  pose proof (calculateCompletionBonus_bounds components).
  lra.
Qed.

(** C1 at the empty input: with no component and no dependency the three
    guarded sub-scores are 0 but the completion bonus is its full 15, since
    "every component" holds of an empty list; the total score is 15. *)
Theorem calculateTotalScore_empty :
  calculatePositionScore [] = 0
  /\ calculateClassificationScore [] = 0
  /\ calculateDependencyScore [] = 0
  /\ calculateCompletionBonus [] = 15
  /\ calculateTotalScore [] [] = 15%Z.
Proof.
  repeat split.
  unfold calculateTotalScore, Math_round.
  change (calculatePositionScore []) with 0.
  change (calculateClassificationScore []) with 0.
  change (calculateDependencyScore []) with 0.
  change (calculateCompletionBonus []) with 15.
  apply Zfloor_eq; lra.
Qed.

(** ** Connector routing *)

Lemma tan_shift_PI (a : R) : tan (a + PI) = tan a /\ tan (a - PI) = tan a.
Proof.
  assert (H : forall b, tan (b + PI) = tan b).
  { intros b; unfold tan. rewrite neg_sin, neg_cos.
    unfold Rdiv. rewrite Rinv_opp. ring. }
  split; [apply H|].
  rewrite <- (H (a - PI)). f_equal; ring.
Qed.

Lemma Math_atan2_right (dy dx : R) :
  0 < dx -> Math_atan2 dy dx = atan (dy / dx).
Proof. intros H; unfold Math_atan2. destruct (Rlt_dec 0 dx); [reflexivity|lra]. Qed.

Lemma tan_Math_atan2 (dy dx : R) :
  dx <> 0 -> tan (Math_atan2 dy dx) = dy / dx.
Proof.
  intros H; unfold Math_atan2.
  destruct (Rlt_dec 0 dx); [apply tan_atan|].
  destruct (Rlt_dec dx 0); [|lra].
  destruct (Rle_dec 0 dy).
  - rewrite (proj1 (tan_shift_PI _)); apply tan_atan.
  - rewrite (proj2 (tan_shift_PI _)); apply tan_atan.
Qed.

Lemma cardAspectRatio_value :
  Math_atan2 (CARD_HEIGHT / 2) (CARD_WIDTH / 2) = atan (12 / 19).
Proof.
  unfold CARD_HEIGHT, CARD_WIDTH. rewrite Math_atan2_right by lra.
  f_equal; field.
Qed.

Lemma cardAspectRatio_bounds : 0 < atan (12 / 19) < PI / 4.
Proof.
  split.
  - rewrite <- atan_0. apply atan_increasing; lra.
  - rewrite <- atan_1. apply atan_increasing; lra.
Qed.

Lemma getEdgeIntersection_by_edge (fromPoint toPoint : Position) :
  getEdgeIntersection fromPoint toPoint
  = pullBack 10 fromPoint toPoint
      (edgePoint (struckEdge (direction fromPoint toPoint) (atan (12 / 19)))
                 95 60 (direction fromPoint toPoint) toPoint).
Proof.
  unfold getEdgeIntersection, struckEdge, direction, Rltb, Rgtb, pullBack.
  cbv zeta. rewrite cardAspectRatio_value.
  replace (CARD_WIDTH / 2) with 95 by (unfold CARD_WIDTH; field).
  replace (CARD_HEIGHT / 2) with 60 by (unfold CARD_HEIGHT; field).
  unfold ARROWHEAD_LENGTH.
  set (theta := Math_atan2 _ _).
  destruct (Rlt_dec (Rabs theta) (atan (12 / 19))); [reflexivity|].
  destruct (Rgt_dec (Rabs theta) (PI - atan (12 / 19))); [reflexivity|].
  destruct (Rgt_dec theta 0); reflexivity.
Qed.

Lemma Math_atan2_horizontal (dx : R) :
  dx <> 0 -> Math_atan2 0 dx = 0 \/ Math_atan2 0 dx = PI.
Proof.
  intros H; unfold Math_atan2.
  replace (0 / dx) with 0 by (field; exact H). rewrite atan_0.
  destruct (Rlt_dec 0 dx); [now left|].
  destruct (Rlt_dec dx 0); [|lra].
  destruct (Rle_dec 0 0); [right; ring | lra].
Qed.

Lemma struckEdge_horizontal (fromPoint toPoint : Position) :
  x toPoint - x fromPoint <> 0 -> y toPoint - y fromPoint = 0 ->
  struckEdge (direction fromPoint toPoint) (atan (12 / 19)) = RightEdge
  \/ struckEdge (direction fromPoint toPoint) (atan (12 / 19)) = LeftEdge.
Proof.
  intros Hx Hy. unfold direction. rewrite Hy.
  pose proof cardAspectRatio_bounds as [Hlo Hhi]. pose proof PI_RGT_0.
  unfold struckEdge.
  destruct (Math_atan2_horizontal _ Hx) as [-> | ->].
  - rewrite Rabs_R0. destruct (Rlt_dec 0 (atan (12 / 19))); [now left | lra].
  - rewrite (Rabs_pos_eq PI) by lra.
    destruct (Rlt_dec PI (atan (12 / 19))); [now left|].
    destruct (Rgt_dec PI (PI - atan (12 / 19))); [now right | lra].
Qed.

Lemma offLine_pullBack (clearance : R) (fromPoint toPoint p : Position) :
  offLine fromPoint toPoint (pullBack clearance fromPoint toPoint p)
  = offLine fromPoint toPoint p.
Proof. unfold offLine, pullBack, Rdiv; cbv zeta; cbn [x y]. ring. Qed.

(** For a connection that is not vertical, the returned point lies on the
    line through the two centres when the right, left or bottom edge is
    struck; when the top edge is struck it is off that line, by an amount
    proportional to [dx]. *)
Lemma getEdgeIntersection_offLine (fromPoint toPoint : Position) :
  x toPoint <> x fromPoint ->
  offLine fromPoint toPoint (getEdgeIntersection fromPoint toPoint)
  = match struckEdge (direction fromPoint toPoint) (atan (12 / 19)) with
    | TopEdge => - (2 * 60 * (x toPoint - x fromPoint))
    | _ => 0
    end.
Proof.
  intros Hne.
  assert (Hx : x toPoint - x fromPoint <> 0) by lra.
  rewrite getEdgeIntersection_by_edge, offLine_pullBack.
  unfold offLine.
  assert (Ht : tan (direction fromPoint toPoint)
               = (y toPoint - y fromPoint) / (x toPoint - x fromPoint)).
  { unfold direction. now apply tan_Math_atan2. }
  destruct (Req_dec (y toPoint - y fromPoint) 0) as [Hy|Hy].
  - (* horizontal: the right or the left edge *)
    assert (Ey : y toPoint = y fromPoint) by lra.
    destruct (struckEdge_horizontal _ _ Hx Hy) as [-> | ->];
      cbn [edgePoint x y]; rewrite Ht, Ey; field; exact Hx.
  - destruct (struckEdge _ _); cbn [edgePoint x y]; rewrite Ht;
      field; auto.
Qed.

(** The source end of a rendered connector is the centre of the source
    component, as [getComponentCenter] gives it, and the target end is what
    [getEdgeIntersection] makes of the two centres. *)
Lemma connectorEndpoints_source (components : list MapComponent)
    (canvasWidth canvasHeight : R) (dependency : Dependency)
    (fromPos toPos : Position) :
  connectorEndpoints components canvasWidth canvasHeight dependency
  = Some (fromPos, toPos) ->
  getComponentCenter components canvasWidth canvasHeight
                     (fromComponentId dependency) = Some fromPos
  /\ exists toCenter,
       getComponentCenter components canvasWidth canvasHeight
                          (toComponentId dependency) = Some toCenter
       /\ toPos = getEdgeIntersection fromPos toCenter.
Proof.
  unfold connectorEndpoints.
  destruct (getComponentCenter components canvasWidth canvasHeight
                               (fromComponentId dependency)) as [f|];
    [|discriminate].
  destruct (getComponentCenter components canvasWidth canvasHeight
                               (toComponentId dependency)) as [t|];
    [|discriminate].
  intros E; injection E as <- <-. split; [reflexivity|].
  exists t; split; reflexivity.
Qed.

(** The connection from (0, 100) to (100, 0): its direction, the edge it
    strikes and the tangent of its direction. *)
Lemma top_edge_example_direction :
  direction (mkPosition 0 100) (mkPosition 100 0) = - (PI / 4)
  /\ struckEdge (direction (mkPosition 0 100) (mkPosition 100 0))
                (atan (12 / 19)) = TopEdge
  /\ tan (direction (mkPosition 0 100) (mkPosition 100 0)) = - 1.
Proof.
  pose proof cardAspectRatio_bounds as [Hlo Hhi]. pose proof PI_RGT_0.
  assert (Hdir : direction (mkPosition 0 100) (mkPosition 100 0) = - (PI / 4)).
  { unfold direction; cbn [x y].
    rewrite Math_atan2_right by lra.
    replace ((0 - 100) / (100 - 0)) with (Ropp 1) by field.
    now rewrite atan_opp, atan_1. }
  split; [exact Hdir|]. split.
  - rewrite Hdir. unfold struckEdge.
    rewrite Rabs_Ropp, (Rabs_pos_eq (PI / 4)) by lra.
    destruct (Rlt_dec (PI / 4) (atan (12 / 19))); [lra|].
    destruct (Rgt_dec (PI / 4) (PI - atan (12 / 19))); [lra|].
    destruct (Rgt_dec (- (PI / 4)) 0); [lra | reflexivity].
  - unfold direction; cbn [x y]. rewrite tan_Math_atan2 by lra. field.
Qed.

Lemma top_edge_example_value :
  getEdgeIntersection (mkPosition 0 100) (mkPosition 100 0)
  = mkPosition (160 - 100 / sqrt 20000 * 10) (60 + 100 / sqrt 20000 * 10).
Proof.
  destruct top_edge_example_direction as (_ & Hedge & Htan).
  rewrite getEdgeIntersection_by_edge, Hedge.
  unfold pullBack, edgePoint; cbv zeta. rewrite Htan. cbn [x y].
  replace ((100 - 0) * (100 - 0) + (0 - 100) * (0 - 100)) with 20000 by ring.
  assert (Hs : sqrt 20000 <> 0) by (apply Rgt_not_eq, sqrt_lt_R0; lra).
  f_equal; field; exact Hs.
Qed.

(** C5 at a connection that strikes the top edge: from (0, 100) to (100, 0)
    the direction is [- PI / 4], the top edge is selected, and the point
    computed on it is (160, 60), pulled back by 10 along the direction.  The
    line from the source to the target centre crosses that edge at (40, 60):
    the returned point lies off that line, where the point pulled back from
    (40, 60) lies on it.  These are the end points of the connector between
    components placed at (0, 10) and (10, 0) on a canvas of 1000 by 1000; its
    source end is the centre of the source component. *)
Theorem getEdgeIntersection_top_edge_off_line :
  let fromPoint := mkPosition 0 100 in
  let toPoint := mkPosition 100 0 in
  let placedAt (i : string) (px py : R) :=
    mkMapComponent i i i custom (Some build) (mkPosition 35 45)
                   (Some (mkPosition px py)) None true in
  direction fromPoint toPoint = - (PI / 4)
  /\ struckEdge (direction fromPoint toPoint) (atan (12 / 19)) = TopEdge
  /\ getEdgeIntersection fromPoint toPoint
     = mkPosition (160 - 100 / sqrt 20000 * 10) (60 + 100 / sqrt 20000 * 10)
  /\ offLine fromPoint toPoint (getEdgeIntersection fromPoint toPoint) = - 12000
  /\ offLine fromPoint toPoint (mkPosition 40 60) = 0
  /\ offLine fromPoint toPoint
             (pullBack 10 fromPoint toPoint (mkPosition 40 60)) = 0
  /\ connectorEndpoints
       [ placedAt "elf-dashboard" 0 10; placedAt "orchestration-framework" 10 0 ]
       1000 1000
       (mkDependency "dep-1" "elf-dashboard" "orchestration-framework")
     = Some (fromPoint,
             mkPosition (160 - 100 / sqrt 20000 * 10)
                        (60 + 100 / sqrt 20000 * 10)).
Proof.
  intros fromPoint toPoint placedAt.
  destruct top_edge_example_direction as (Hdir & Hedge & _).
  split; [exact Hdir|]. split; [exact Hedge|].
  split; [exact top_edge_example_value|].
  split; [|split; [|split]].
  - unfold fromPoint, toPoint.
    rewrite getEdgeIntersection_offLine, Hedge by (cbn [x y]; lra).
    cbn [x y]. ring.
  - unfold offLine, fromPoint, toPoint; cbn [x y]. ring.
  - rewrite offLine_pullBack.
    unfold offLine, fromPoint, toPoint; cbn [x y]. ring.
  - unfold connectorEndpoints, getComponentCenter.
    cbn [fromComponentId toComponentId].
    set (components := [placedAt "elf-dashboard" 0 10;
                        placedAt "orchestration-framework" 10 0]).
    assert (F1 : find (fun c => String.eqb (id c) "elf-dashboard") components
                 = Some (placedAt "elf-dashboard" 0 10)) by reflexivity.
    assert (F2 : find (fun c => String.eqb (id c) "orchestration-framework")
                      components
                 = Some (placedAt "orchestration-framework" 10 0)) by reflexivity.
    rewrite F1, F2. unfold placedAt; cbn [position x y].
    replace (0 / 100 * 1000) with 0 by field.
    replace (10 / 100 * 1000) with 100 by field.
    now rewrite top_edge_example_value.
Qed.

(** ** Rounding *)

Lemma Math_round_IZR (z : Z) : Math_round (IZR z) = z.
Proof. unfold Math_round; apply Zfloor_eq; lra. Qed.

Lemma Math_round_le (a b : R) : a <= b -> (Math_round a <= Math_round b)%Z.
Proof. intros H; unfold Math_round; apply Zfloor_le; lra. Qed.

(** [Math_round r] is at least [z] exactly when [r] is at least [z - 1/2]. *)
Lemma Math_round_ge_iff (r : R) (z : Z) :
  (z <= Math_round r)%Z <-> IZR z - / 2 <= r.
Proof.
  unfold Math_round; split; intros H.
  - pose proof (Zfloor_bound (r + / 2)) as [Hlo _].
    apply IZR_le in H. lra.
  - apply Zfloor_lub; lra.
Qed.

Lemma Math_round_le_iff (r : R) (z : Z) :
  (Math_round r <= z)%Z <-> r < IZR z + / 2.
Proof.
  split; intros H.
  - destruct (Rlt_dec r (IZR z + / 2)) as [Hlt|Hge]; [exact Hlt|].
    assert (Hz : (z + 1 <= Math_round r)%Z).
    { apply Math_round_ge_iff. rewrite plus_IZR. lra. }
    lia.
  - destruct (Z_le_gt_dec (Math_round r) z) as [Hle|Hgt]; [exact Hle|].
    assert (Hz : (z + 1 <= Math_round r)%Z) by lia.
    apply Math_round_ge_iff in Hz. rewrite plus_IZR in Hz. lra.
Qed.

(** ** Position accuracy of one component *)

Lemma calculateDistance_nonneg (p q : Position) : 0 <= calculateDistance p q.
Proof. apply sqrt_pos. Qed.

Lemma calculateDistance_same (p : Position) : calculateDistance p p = 0.
Proof.
  unfold calculateDistance; cbv zeta.
  replace ((x p - x p) * (x p - x p) + (y p - y p) * (y p - y p)) with 0 by ring.
  apply sqrt_0.
Qed.

Lemma calculateDistance_zero_iff (p q : Position) :
  calculateDistance p q = 0 <-> p = q.
Proof.
  split.
  - unfold calculateDistance; cbv zeta; intros H.
    set (a := x p - x q) in *. set (b := y p - y q) in *.
    assert (Ha : 0 <= a * a) by nra. assert (Hb : 0 <= b * b) by nra.
    assert (Hs : a * a + b * b = 0) by (apply sqrt_eq_0; [lra | exact H]).
    assert (Hx : a = 0) by nra.
    assert (Hy : b = 0) by nra.
    unfold a, b in Hx, Hy.
    destruct p as [px py], q as [qx qy]; cbn [x y] in *.
    f_equal; lra.
  - intros ->; apply calculateDistance_same.
Qed.

(** The share of the maximum distance, capped at 1, that the code calls
    [normalizedDistance]. *)
Lemma normalizedDistance_bounds (d : R) :
  0 <= d -> 0 <= Rmin (d / 141) 1 <= 1.
Proof.
  intros Hd; split; [|apply Rmin_r].
  apply Rmin_glb; [|lra]. unfold Rdiv; nra.
Qed.

Lemma normalizedDistance_le (d e : R) :
  d <= e -> Rmin (d / 141) 1 <= Rmin (e / 141) 1.
Proof.
  intros H. apply Rmin_glb; [|apply Rmin_r].
  eapply Rle_trans; [apply Rmin_l|]. unfold Rdiv; nra.
Qed.

Lemma getPositionAccuracy_placed (c : MapComponent) (p : Position) :
  position c = Some p ->
  getPositionAccuracy c
  = Math_round ((1 - Rmin (calculateDistance p (correctPosition c) / 141) 1) * 100).
Proof. intros H; unfold getPositionAccuracy; now rewrite H. Qed.

(** X2: The accuracy shown for a component is a whole percentage between 0
    and 100, and 0 for a component without a position.  The cut-offs of the
    rounding lie at 141/200 and at 141 * 199/200 from the correct position;
    they are stated with a margin on either side, within which the rounding
    of the arithmetic decides: the accuracy is 100 whenever the component is
    within 7/10 of its correct position and only when it is within 71/100,
    and it is 0 whenever the component is 1403/10 or more away and only when
    it is 14029/100 or more away. *)
Theorem getPositionAccuracy_thresholds (c : MapComponent) :
  (0 <= getPositionAccuracy c <= 100)%Z
  /\ (position c = None -> getPositionAccuracy c = 0%Z)
  /\ forall p, position c = Some p ->
       (calculateDistance p (correctPosition c) <= 7 / 10 ->
        getPositionAccuracy c = 100%Z)
       /\ (getPositionAccuracy c = 100%Z ->
           calculateDistance p (correctPosition c) <= 71 / 100)
       /\ (1403 / 10 <= calculateDistance p (correctPosition c) ->
           getPositionAccuracy c = 0%Z)
       /\ (getPositionAccuracy c = 0%Z ->
           14029 / 100 <= calculateDistance p (correctPosition c)).
Proof.
  split; [|split].
  - destruct (position c) as [p|] eqn:P.
    + rewrite (getPositionAccuracy_placed c p P).
      pose proof (normalizedDistance_bounds _
                    (calculateDistance_nonneg p (correctPosition c))).
      apply Math_round_bounds; lra.
    + unfold getPositionAccuracy; rewrite P. lia.
  - intros P. unfold getPositionAccuracy; now rewrite P.
  - intros p P. rewrite (getPositionAccuracy_placed c p P).
    set (d := calculateDistance p (correctPosition c)).
    assert (Hd : 0 <= d) by apply calculateDistance_nonneg.
    pose proof (normalizedDistance_bounds d Hd) as Hn.
    assert (Hrange : (0 <= Math_round ((1 - Rmin (d / 141) 1) * 100) <= 100)%Z)
      by (apply Math_round_bounds; lra).
    assert (Hl : Rmin (d / 141) 1 <= d / 141) by apply Rmin_l.
    repeat split.
    + intros Hq.
      assert (H : (100 <= Math_round ((1 - Rmin (d / 141) 1) * 100))%Z)
        by (apply Math_round_ge_iff; lra).
      lia.
    + intros E.
      assert (H : (100 <= Math_round ((1 - Rmin (d / 141) 1) * 100))%Z) by lia.
      apply Math_round_ge_iff in H.
      assert (Hm : Rmin (d / 141) 1 <= 1 / 200) by lra.
      unfold Rmin in Hm. destruct (Rle_dec (d / 141) 1); lra.
    + intros Hq.
      assert (H : (Math_round ((1 - Rmin (d / 141) 1) * 100) <= 0)%Z).
      { apply Math_round_le_iff.
        assert (Hm : 199 / 200 < Rmin (d / 141) 1)
          by (apply Rmin_glb_lt; lra).
        lra. }
      lia.
    + intros E.
      assert (H : (Math_round ((1 - Rmin (d / 141) 1) * 100) <= 0)%Z) by lia.
      apply Math_round_le_iff in H. lra.
Qed.

(** Of two components, the one nearer to its correct position has at least
    the accuracy of the other. *)
Theorem getPositionAccuracy_monotone (c1 c2 : MapComponent) (p1 p2 : Position) :
  position c1 = Some p1 ->
  position c2 = Some p2 ->
  calculateDistance p1 (correctPosition c1)
  <= calculateDistance p2 (correctPosition c2) ->
  (getPositionAccuracy c2 <= getPositionAccuracy c1)%Z.
Proof.
  intros P1 P2 H.
  rewrite (getPositionAccuracy_placed c1 p1 P1), (getPositionAccuracy_placed c2 p2 P2).
  apply Math_round_le.
  pose proof (normalizedDistance_le _ _ H). lra.
Qed.

Lemma getPositionAccuracy_monotone_witness :
  let target := mkPosition 65 85 in
  let at_ (p : Position) :=
    mkMapComponent "mince-pie-delivery" "Mince Pie Delivery"
      "The core service delivering festive treats" product (Some build)
      target (Some p) None true in
  (getPositionAccuracy (at_ (mkPosition 65 35))
   <= getPositionAccuracy (at_ target))%Z.
Proof.
  intros target at_.
  apply (getPositionAccuracy_monotone (at_ target) (at_ (mkPosition 65 35))
                                      target (mkPosition 65 35));
    [reflexivity | reflexivity |].
  cbn [correctPosition at_]. rewrite calculateDistance_same.
  apply calculateDistance_nonneg.
Defined.

(** ** Position score of a list *)

Lemma itemPositionValue_le (c1 c2 : MapComponent) (p1 p2 : Position) :
  position c1 = Some p1 ->
  position c2 = Some p2 ->
  calculateDistance p1 (correctPosition c1)
  <= calculateDistance p2 (correctPosition c2) ->
  itemPositionValue 141 c2 <= itemPositionValue 141 c1.
Proof.
  intros P1 P2 H. unfold itemPositionValue; rewrite P1, P2.
  pose proof (normalizedDistance_le _ _ H) as Hn.
  pose proof (normalizedDistance_bounds _ (calculateDistance_nonneg p1 (correctPosition c1))).
  pose proof (normalizedDistance_bounds _ (calculateDistance_nonneg p2 (correctPosition c2))).
  nra.
Qed.

Lemma itemPositionValue_full_iff (c : MapComponent) (p : Position) :
  position c = Some p ->
  itemPositionValue 141 c = 100 <-> p = correctPosition c.
Proof.
  intros P. unfold itemPositionValue; rewrite P.
  rewrite <- calculateDistance_zero_iff.
  set (d := calculateDistance p (correctPosition c)).
  assert (Hd : 0 <= d) by apply calculateDistance_nonneg.
  pose proof (normalizedDistance_bounds d Hd) as Hn.
  split.
  - intros E.
    assert (Hm : Rmin (d / 141) 1 = 0) by nra.
    unfold Rmin in Hm. destruct (Rle_dec (d / 141) 1); lra.
  - intros ->. replace (0 / 141) with 0 by field.
    rewrite Rmin_left by lra. ring.
Qed.

Lemma placedItems_position (components : list MapComponent) (c : MapComponent) :
  In c (placedItems components) ->
  In c components /\ isPlaced c = true /\ exists p, position c = Some p.
Proof.
  unfold placedItems, isPlacedItem; intros H.
  apply filter_In in H as [Hin H]. apply andb_true_iff in H as [Hp Hs].
  repeat split; auto. now apply isSome_true_iff.
Qed.

Lemma placedItems_notNearer (l1 l2 : list MapComponent) :
  Forall2 notNearer l1 l2 ->
  List.length (placedItems l1) = List.length (placedItems l2)
  /\ Rsum (map (itemPositionValue 141) (placedItems l2))
     <= Rsum (map (itemPositionValue 141) (placedItems l1)).
Proof.
  induction 1 as [|c1 c2 l1 l2 [Hp Hd] _ [IHlen IHsum]]; [cbn; split; [reflexivity|lra]|].
  unfold placedItems in *; cbn [filter]. rewrite <- Hp.
  destruct (isPlacedItem c1) eqn:P1; [|split; assumption].
  cbn [List.length map Rsum]. split; [now rewrite IHlen|].
  assert (S1 : exists p1, position c1 = Some p1).
  { unfold isPlacedItem in P1. apply andb_true_iff in P1 as [_ P1].
    now apply isSome_true_iff. }
  assert (S2 : exists p2, position c2 = Some p2).
  { symmetry in Hp. unfold isPlacedItem in Hp. apply andb_true_iff in Hp as [_ Hp].
    now apply isSome_true_iff. }
  destruct S1 as [p1 S1], S2 as [p2 S2].
  pose proof (itemPositionValue_le c1 c2 p1 p2 S1 S2 (Hd p1 p2 S1 S2)).
  lra.
Qed.

(** X4: Moving placed components away from their correct positions, each one
    staying placed, never raises the position score. *)
Theorem calculatePositionScore_monotone (l1 l2 : list MapComponent) :
  Forall2 notNearer l1 l2 ->
  calculatePositionScore l2 <= calculatePositionScore l1.
Proof.
  intros H. destruct (placedItems_notNearer l1 l2 H) as [Hlen Hsum].
  rewrite !calculatePositionScore_formula. unfold positionScoreFormula.
  destruct (placedItems l1) as [|a1 k1] eqn:E1;
    destruct (placedItems l2) as [|a2 k2] eqn:E2;
    try discriminate Hlen; [lra|].
  rewrite <- Hlen.
  assert (Hn : 0 < INR (List.length (a1 :: k1))) by (apply lt_0_INR; cbn; lia).
  set (n := INR (List.length (a1 :: k1))) in *.
  assert (Hi : 0 < / n) by now apply Rinv_0_lt_compat.
  unfold Rdiv. nra.
Qed.

Lemma calculatePositionScore_monotone_witness :
  let at_ (p : Position) :=
    mkMapComponent "mince-pie-delivery" "Mince Pie Delivery"
      "The core service delivering festive treats" product (Some build)
      (mkPosition 65 85) (Some p) None true in
  calculatePositionScore [at_ (mkPosition 65 35)]
  <= calculatePositionScore [at_ (mkPosition 65 85)].
Proof.
  intros at_.
  apply (calculatePositionScore_monotone [at_ (mkPosition 65 85)]
                                         [at_ (mkPosition 65 35)]).
  constructor; [|constructor]. split; [reflexivity|].
  intros p1 p2 E1 E2. injection E1 as <-. injection E2 as <-.
  cbn [correctPosition at_]. rewrite calculateDistance_same.
  apply calculateDistance_nonneg.
Defined.

(** ** Completion bonus *)

Lemma filter_length_lt {A : Type} (f : A -> bool) (l : list A) :
  forallb f l = false -> (List.length (filter f l) < List.length l)%nat.
Proof.
  induction l as [|a l IH]; cbn; [discriminate|].
  destruct (f a); cbn.
  - intros H. apply IH in H. lia.
  - intros _. pose proof (filter_length_le f l). lia.
Qed.

Lemma completionBonus_full_only (components : list MapComponent) :
  calculateCompletionBonus components = 15 <-> allComplete components.
Proof.
  rewrite <- allComplete_iff. unfold calculateCompletionBonus.
  destruct (forallb (fun c => isPlaced c) components) eqn:Ep;
    destruct (forallb (fun c => isSome (classification c)) components) eqn:Ec;
    cbn [andb completionBonus WEIGHTS]; split;
    try reflexivity; try discriminate; intros H; exfalso.
  - (* all placed, not all classified *)
    pose proof (filter_length_lt _ _ Ec) as Hc.
    pose proof (filter_length_le (fun c => isPlaced c) components) as Hp.
    assert (Hlen : (0 < List.length components)%nat) by lia.
    apply lt_INR in Hc. apply le_INR in Hp. apply lt_INR in Hlen. cbn in Hlen.
    set (n := INR (List.length components)) in *.
    assert (Hi : 0 < / n) by now apply Rinv_0_lt_compat.
    assert (E1 : n * / n = 1) by (field; lra).
    unfold Rdiv in H. nra.
  - pose proof (filter_length_lt _ _ Ep) as Hp.
    pose proof (filter_length_le (fun c => isSome (classification c)) components) as Hc.
    assert (Hlen : (0 < List.length components)%nat) by lia.
    apply lt_INR in Hp. apply le_INR in Hc. apply lt_INR in Hlen. cbn in Hlen.
    set (n := INR (List.length components)) in *.
    assert (Hi : 0 < / n) by now apply Rinv_0_lt_compat.
    assert (E1 : n * / n = 1) by (field; lra).
    unfold Rdiv in H. nra.
  - pose proof (filter_length_lt _ _ Ep) as Hp.
    pose proof (filter_length_le (fun c => isSome (classification c)) components) as Hc.
    assert (Hlen : (0 < List.length components)%nat) by lia.
    apply lt_INR in Hp. apply le_INR in Hc. apply lt_INR in Hlen. cbn in Hlen.
    set (n := INR (List.length components)) in *.
    assert (Hi : 0 < / n) by now apply Rinv_0_lt_compat.
    assert (E1 : n * / n = 1) by (field; lra).
    unfold Rdiv in H. nra.
Qed.

(** The completion bonus lies between 0 and 15, and it is 15 only when every
    component is placed and classified. *)
Theorem calculateCompletionBonus_full_iff (components : list MapComponent) :
  0 <= calculateCompletionBonus components <= 15
  /\ (calculateCompletionBonus components = 15 <-> allComplete components).
Proof.
  split.
  - apply calculateCompletionBonus_bounds.
  - apply completionBonus_full_only.
Qed.

(** ** Dependency score *)

Lemma Rdiv_le_cross (a b c d : R) :
  0 < b -> 0 < d -> a * d <= c * b -> a / b <= c / d.
Proof.
  intros Hb Hd H.
  apply (Rmult_le_reg_r (b * d)); [nra|].
  replace (a / b * (b * d)) with (a * d) by (field; lra).
  replace (c / d * (b * d)) with (c * b) by (field; lra).
  exact H.
Qed.

Lemma correctCount_app (l1 l2 : list Dependency) :
  correctCount (l1 ++ l2) = (correctCount l1 + correctCount l2)%nat.
Proof. unfold correctCount. now rewrite filter_app, length_app. Qed.

Lemma correctCount_single (d : Dependency) :
  correctCount [d] = if isCorrectDependency d then 1%nat else 0%nat.
Proof. unfold correctCount; cbn [filter]. now destruct (isCorrectDependency d). Qed.

(** The score as a function of the two counts it depends on. *)
Lemma calculateDependencyScore_counts (dependencies : list Dependency) :
  calculateDependencyScore dependencies
  = INR (correctCount dependencies)
    / INR (Nat.max (List.length dependencies) 12) * 25.
Proof.
  rewrite calculateDependencyScore_unfold.
  destruct dependencies as [|d l]; [|reflexivity].
  cbn [List.length Nat.eqb correctCount filter Nat.max INR]. field.
Qed.

(** X5: Declaring one more dependency, as [handleDependencyCreate] appends it:
    a dependency that is not in the reference table never raises the score,
    and one that is in the table never lowers it. *)
Theorem calculateDependencyScore_append (dependencies : list Dependency)
    (d : Dependency) :
  (isCorrectDependency d = false ->
   calculateDependencyScore (dependencies ++ [d])
   <= calculateDependencyScore dependencies)
  /\ (isCorrectDependency d = true ->
      calculateDependencyScore dependencies
      <= calculateDependencyScore (dependencies ++ [d])).
Proof.
  rewrite !calculateDependencyScore_counts, correctCount_app, length_app,
    correctCount_single.
  cbn [List.length].
  pose proof (correctCount_le dependencies) as Hc.
  set (c := correctCount dependencies) in *.
  set (n := List.length dependencies) in *.
  assert (Hm : 0 < INR (Nat.max n 12)) by (apply lt_0_INR; lia).
  assert (Hm' : 0 < INR (Nat.max (n + 1) 12)) by (apply lt_0_INR; lia).
  assert (Hmm : INR (Nat.max n 12) <= INR (Nat.max (n + 1) 12))
    by (apply le_INR; lia).
  assert (Hc0 : 0 <= INR c) by apply pos_INR.
  split; intros ->.
  - rewrite Nat.add_0_r.
    apply Rmult_le_compat_r; [lra|]. apply Rdiv_le_cross; nra.
  - apply Rmult_le_compat_r; [lra|]. apply Rdiv_le_cross; try assumption.
    rewrite plus_INR; cbn [INR].
    destruct (le_lt_dec 12 n) as [Hn|Hn].
    + rewrite !Nat.max_l by lia. rewrite plus_INR; cbn [INR].
      apply le_INR in Hc. fold c in Hc. nra.
    + rewrite !Nat.max_r by lia. pose proof (pos_INR 12). nra.
Qed.

Lemma calculateDependencyScore_append_witness :
  let declared := [ mkDependency "dep-1" "elf-dashboard" "mince-pie-delivery" ] in
  calculateDependencyScore
    (declared ++ [mkDependency "dep-2" "elf-dashboard" "network-comms"])
  <= calculateDependencyScore declared
  /\ calculateDependencyScore declared
     <= calculateDependencyScore
          (declared ++ [mkDependency "dep-3" "cloud-compute" "network-comms"]).
Proof.
  intros declared; split.
  - apply (proj1 (calculateDependencyScore_append declared _)). reflexivity.
  - apply (proj2 (calculateDependencyScore_append declared _)). reflexivity.
Defined.

Lemma correctCount_all (dependencies : list Dependency) :
  (forall d, In d dependencies -> matchesReferenceTable d) ->
  correctCount dependencies = List.length dependencies.
Proof.
  unfold correctCount.
  induction dependencies as [|d l IH]; intros H; cbn [filter List.length];
    [reflexivity|].
  rewrite (proj2 (isCorrectDependency_iff d)) by (apply H; now left).
  cbn [List.length]. f_equal. apply IH. intros e He; apply H; now right.
Qed.

Lemma dependencyScore_full (dependencies : list Dependency) :
  (12 <= List.length dependencies)%nat ->
  (forall d, In d dependencies -> matchesReferenceTable d) ->
  calculateDependencyScore dependencies = 25.
Proof.
  intros Hn H. rewrite calculateDependencyScore_counts, (correctCount_all _ H).
  rewrite Nat.max_l by exact Hn. field. apply not_0_INR. lia.
Qed.

Lemma dependencyScore_full_counts (dependencies : list Dependency) :
  calculateDependencyScore dependencies = 25 <->
  correctCount dependencies = Nat.max (List.length dependencies) 12.
Proof.
  rewrite calculateDependencyScore_counts.
  set (c := correctCount dependencies). set (n := List.length dependencies).
  assert (Hm : 0 < INR (Nat.max n 12)) by (apply lt_0_INR; lia).
  split.
  - intros E. apply INR_eq.
    replace (INR c) with (INR c / INR (Nat.max n 12) * 25
                          * (INR (Nat.max n 12) / 25)) by (field; lra).
    rewrite E. field.
  - intros ->. field. lra.
Qed.

Lemma correctCount_all_iff (dependencies : list Dependency) :
  correctCount dependencies = List.length dependencies <->
  forall d, In d dependencies -> matchesReferenceTable d.
Proof.
  split; [|apply correctCount_all].
  unfold correctCount.
  induction dependencies as [|d l IH]; cbn [filter List.length];
    [intros _ d []|].
  pose proof (filter_length_le isCorrectDependency l) as Hle.
  destruct (isCorrectDependency d) eqn:Ed; cbn [List.length].
  - intros E. injection E as E. pose proof (IH E) as Hl.
    intros e [<-|He]; [now apply isCorrectDependency_iff | now apply Hl].
  - intros E; lia.
Qed.

(** X6: The dependency score is its full 25 exactly when at least 12 dependencies
    are declared and every one of them is in the reference table. *)
Theorem calculateDependencyScore_full_iff (dependencies : list Dependency) :
  calculateDependencyScore dependencies = 25 <->
  (12 <= List.length dependencies)%nat
  /\ forall d, In d dependencies -> matchesReferenceTable d.
Proof.
  rewrite dependencyScore_full_counts, <- correctCount_all_iff.
  pose proof (correctCount_le dependencies). lia.
Qed.

Lemma isCorrectDependency_reverse (d : Dependency) :
  isCorrectDependency (reverseDependency d) = isCorrectDependency d.
Proof.
  unfold isCorrectDependency, reverseDependency;
    cbn [fromComponentId toComponentId].
  induction CORRECT_DEPENDENCIES as [|[from to] l IH]; cbn [existsb]; [reflexivity|].
  rewrite IH.
  destruct (String.eqb (fromComponentId d) from),
           (String.eqb (fromComponentId d) to),
           (String.eqb (toComponentId d) from),
           (String.eqb (toComponentId d) to); reflexivity.
Qed.

(** X7: The direction in which a dependency is drawn does not count: reversing
    any of the declared dependencies leaves the dependency score, and the
    dependency-master badge, as they were. *)
Theorem calculateDependencyScore_direction (l1 l2 : list Dependency)
    (d : Dependency) (components : list MapComponent) :
  calculateDependencyScore (l1 ++ reverseDependency d :: l2)
  = calculateDependencyScore (l1 ++ d :: l2)
  /\ checkBadgeEarned "dependency-master" components
                      (l1 ++ reverseDependency d :: l2)
     = checkBadgeEarned "dependency-master" components (l1 ++ d :: l2).
Proof.
  assert (Hc : correctCount (l1 ++ reverseDependency d :: l2)
               = correctCount (l1 ++ d :: l2)).
  { rewrite !correctCount_app. f_equal.
    unfold correctCount; cbn [filter]. rewrite isCorrectDependency_reverse.
    destruct (isCorrectDependency d); reflexivity. }
  split.
  - rewrite !calculateDependencyScore_counts, Hc, !length_app. reflexivity.
  - change (checkBadgeEarned "dependency-master" components
                             (l1 ++ reverseDependency d :: l2))
      with (5 <=? correctCount (l1 ++ reverseDependency d :: l2))%nat.
    now rewrite Hc.
Qed.

(** ** Total score and badges *)

Lemma positionScore_on_target (components : list MapComponent) :
  placedItems components <> [] ->
  (forall c, In c (placedItems components) ->
             position c = Some (correctPosition c)) ->
  calculatePositionScore components = 30.
Proof.
  intros Hne H.
  rewrite calculatePositionScore_formula. unfold positionScoreFormula.
  destruct (placedItems components) as [|c0 l0] eqn:E; [now destruct Hne|].
  rewrite <- E in *.
  assert (Hs : Rsum (map (itemPositionValue 141) (placedItems components))
               = INR (List.length (placedItems components)) * 100).
  { clear E Hne. induction (placedItems components) as [|c l IH]; [cbn; ring|].
    change (List.length (c :: l)) with (S (List.length l)).
    rewrite S_INR. cbn [map Rsum].
    rewrite IH by (intros d Hd; apply H; now right).
    rewrite (proj2 (itemPositionValue_full_iff c (correctPosition c)
                      (H c (or_introl eq_refl))) eq_refl).
    ring. }
  rewrite Hs. field. apply not_0_INR. rewrite E; cbn; lia.
Qed.

Lemma completionBonus_allComplete (components : list MapComponent) :
  allComplete components -> calculateCompletionBonus components = 15.
Proof.
  intros H. apply allComplete_iff in H.
  unfold calculateCompletionBonus. now rewrite H.
Qed.

Lemma perfect_components_scores (components : list MapComponent) :
  components <> [] ->
  (forall c, In c components -> playedPerfectly c) ->
  calculatePositionScore components = 30
  /\ calculateClassificationScore components = 30
  /\ calculateCompletionBonus components = 15.
Proof.
  intros Hne Hall.
  assert (Hplaced : placedItems components = components).
  { unfold placedItems. clear Hne.
    induction components as [|c l IH]; cbn [filter]; [reflexivity|].
    destruct (Hall c (or_introl eq_refl)) as (Hp & Hpos & _).
    unfold isPlacedItem at 1. rewrite Hp, Hpos; cbn.
    f_equal. apply IH. intros d Hd; apply Hall; now right. }
  assert (Hclassified : filter isClassified components = components).
  { clear Hne Hplaced.
    induction components as [|c l IH]; cbn [filter]; [reflexivity|].
    destruct (Hall c (or_introl eq_refl)) as (_ & _ & _ & Hc).
    unfold isClassified at 1. destruct (classification c); [|now destruct Hc].
    cbn. f_equal. apply IH. intros d Hd; apply Hall; now right. }
  assert (Hcorrect : filter isCorrectlyClassified components = components).
  { clear Hne Hplaced Hclassified.
    induction components as [|c l IH]; cbn [filter]; [reflexivity|].
    destruct (Hall c (or_introl eq_refl)) as (_ & _ & He & Hc).
    unfold isCorrectlyClassified at 1. rewrite <- He.
    destruct (classification c) as [k|]; [|now destruct Hc].
    rewrite (proj2 (Classification_eqb_eq k k) eq_refl).
    f_equal. apply IH. intros d Hd; apply Hall; now right. }
  assert (Hlen : (0 < List.length components)%nat)
    by (destruct components; [now destruct Hne | cbn; lia]).
  split; [|split].
  - apply positionScore_on_target; rewrite Hplaced; [exact Hne|].
    intros c Hc. now destruct (Hall c Hc) as (_ & Hpos & _).
  - rewrite calculateClassificationScore_unfold.
    unfold classifiedCount, correctlyClassifiedCount.
    rewrite Hclassified, Hcorrect.
    destruct (Nat.eqb_spec (List.length components) 0) as [E|_]; [lia|].
    field. apply not_0_INR. lia.
  - apply completionBonus_allComplete.
    intros c Hc. destruct (Hall c Hc) as (Hp & _ & _ & Hcl). now split.
Qed.

(** X8: Perfect play scores 100: when every component of a non-empty list sits on
    its correct position with its correct classification and at least 12
    dependencies are declared, all of them in the reference table, the total
    score is 100. *)
Theorem calculateTotalScore_perfect (components : list MapComponent)
    (dependencies : list Dependency) :
  components <> [] ->
  (forall c, In c components -> playedPerfectly c) ->
  (12 <= List.length dependencies)%nat ->
  (forall d, In d dependencies -> matchesReferenceTable d) ->
  calculateTotalScore components dependencies = 100%Z.
Proof.
  intros Hne Hall Hlen Hdeps.
  destruct (perfect_components_scores components Hne Hall) as (Hp & Hc & Hb).
  unfold calculateTotalScore. rewrite Hp, Hc, Hb.
  rewrite (dependencyScore_full dependencies Hlen Hdeps).
  replace (30 + 30 + 25 + 15) with (IZR 100) by lra.
  apply Math_round_IZR.
Qed.

Lemma playPerfectly_playedPerfectly (l : list MapComponent) :
  (forall c, In c l -> correctClassification c <> None) ->
  forall c, In c (map playPerfectly l) -> playedPerfectly c.
Proof.
  intros H c Hc. apply in_map_iff in Hc as (d & <- & Hd).
  unfold playedPerfectly, playPerfectly; cbn. repeat split.
  now apply H.
Qed.

Lemma declarePair_matches (d : Dependency) :
  In d (map declarePair CORRECT_DEPENDENCIES) -> matchesReferenceTable d.
Proof.
  intros H. apply in_map_iff in H as ([from to] & <- & Hin).
  exists from, to; split; [exact Hin|]. left; split; reflexivity.
Qed.

Lemma INITIAL_COMPONENTS_have_targets (c : MapComponent) :
  In c INITIAL_COMPONENTS -> correctClassification c <> None.
Proof.
  unfold INITIAL_COMPONENTS; intros H.
  repeat (destruct H as [<-|H]; [cbn; discriminate|]). destruct H.
Qed.

Lemma shipped_game_played_perfectly :
  map playPerfectly INITIAL_COMPONENTS <> []
  /\ (forall c, In c (map playPerfectly INITIAL_COMPONENTS) -> playedPerfectly c)
  /\ (12 <= List.length (map declarePair CORRECT_DEPENDENCIES))%nat
  /\ (forall d, In d (map declarePair CORRECT_DEPENDENCIES) ->
                matchesReferenceTable d).
Proof.
  split; [cbn; discriminate|]. split.
  - apply playPerfectly_playedPerfectly, INITIAL_COMPONENTS_have_targets.
  - split; [cbn; lia | apply declarePair_matches].
Qed.

Lemma shipped_game_perfect_score :
  calculateTotalScore (map playPerfectly INITIAL_COMPONENTS)
                      (map declarePair CORRECT_DEPENDENCIES) = 100%Z.
Proof.
  destruct shipped_game_played_perfectly as (Hne & Hall & Hlen & Hdeps).
  destruct (perfect_components_scores _ Hne Hall) as (Hp & Hc & Hb).
  unfold calculateTotalScore. rewrite Hp, Hc, Hb.
  rewrite (dependencyScore_full _ Hlen Hdeps).
  replace (30 + 30 + 25 + 15) with (IZR 100) by lra.
  apply Math_round_IZR.
Qed.

Lemma calculateTotalScore_perfect_witness :
  calculateTotalScore (map playPerfectly INITIAL_COMPONENTS)
                      (map declarePair CORRECT_DEPENDENCIES) = 100%Z.
Proof.
  apply calculateTotalScore_perfect.
  - cbn; discriminate.
  - apply playPerfectly_playedPerfectly, INITIAL_COMPONENTS_have_targets.
  - cbn; lia.
  - apply declarePair_matches.
Defined.

Lemma score_sum_le_63 (p c d b : R) :
  p + c + d + b <= 125 / 2 -> (Math_round (p + c + d + b) <= 63)%Z.
Proof. intros H. apply Math_round_le_iff. lra. Qed.

Lemma filter_none {A : Type} (f : A -> bool) (l : list A) :
  (forall a, In a l -> f a = false) -> filter f l = [].
Proof.
  induction l as [|a l IH]; intros H; cbn; [reflexivity|].
  rewrite (H a) by now left. apply IH. intros b Hb; apply H; now right.
Qed.

Lemma score_without_placed (components : list MapComponent)
    (dependencies : list Dependency) :
  (forall c, In c components -> isPlaced c = false) ->
  (calculateTotalScore components dependencies <= 63)%Z.
Proof.
  intros H. unfold calculateTotalScore. apply score_sum_le_63.
  pose proof (calculateClassificationScore_bounds components).
  pose proof (calculateDependencyScore_bounds dependencies).
  assert (Hp : calculatePositionScore components = 0).
  { rewrite calculatePositionScore_formula. unfold positionScoreFormula.
    replace (placedItems components) with (@nil MapComponent); [reflexivity|].
    symmetry; apply filter_none. intros c Hc.
    unfold isPlacedItem. now rewrite (H c Hc). }
  rewrite Hp.
  destruct components as [|c0 l0] eqn:E.
  - change (calculateCompletionBonus []) with 15.
    change (calculateClassificationScore []) with 0. lra.
  - rewrite <- E in *.
    assert (Hf : filter (fun c => isPlaced c) components = [])
      by now apply filter_none.
    assert (Hn : 0 < INR (List.length components))
      by (apply lt_0_INR; rewrite E; cbn; lia).
    pose proof (ratio_bounds _ _
                  (filter_length_le (fun c => isSome (classification c)) components)
                  ltac:(rewrite E; cbn; lia)) as Hr.
    unfold calculateCompletionBonus.
    replace (forallb (fun c => isPlaced c) components) with false
      by (rewrite E; cbn; rewrite (H c0) by (rewrite E; now left); reflexivity).
    cbn [andb completionBonus WEIGHTS]. rewrite Hf. cbn [List.length INR].
    unfold Rdiv at 2. rewrite Rmult_0_l. lra.
Qed.

Lemma score_without_classified (components : list MapComponent)
    (dependencies : list Dependency) :
  (forall c, In c components -> classification c = None) ->
  (calculateTotalScore components dependencies <= 63)%Z.
Proof.
  intros H. unfold calculateTotalScore. apply score_sum_le_63.
  pose proof (calculatePositionScore_bounds components).
  pose proof (calculateDependencyScore_bounds dependencies).
  assert (Hf : filter (fun c => isSome (classification c)) components = []).
  { apply filter_none. intros c Hc. now rewrite (H c Hc). }
  assert (Hc : calculateClassificationScore components = 0).
  { unfold calculateClassificationScore. now rewrite Hf. }
  rewrite Hc.
  destruct components as [|c0 l0] eqn:E.
  - change (calculateCompletionBonus []) with 15.
    change (calculatePositionScore []) with 0. lra.
  - rewrite <- E in *.
    pose proof (ratio_bounds _ _
                  (filter_length_le (fun c => isPlaced c) components)
                  ltac:(rewrite E; cbn; lia)) as Hr.
    unfold calculateCompletionBonus.
    replace (forallb (fun c => isSome (classification c)) components) with false
      by (rewrite E; cbn; rewrite (H c0) by (rewrite E; now left); reflexivity).
    rewrite andb_false_r. cbn [completionBonus WEIGHTS].
    rewrite Hf. cbn [List.length INR].
    unfold Rdiv at 3. rewrite Rmult_0_l. lra.
Qed.

Lemma existsb_false_forall {A : Type} (f : A -> bool) (l : list A) :
  existsb f l = false -> forall a, In a l -> f a = false.
Proof.
  intros H a Ha. destruct (f a) eqn:Fa; [|reflexivity].
  assert (E : existsb f l = true) by (apply existsb_exists; now exists a).
  congruence.
Qed.

(** X9: The strategic-mapper badge is out of reach while nothing is placed or
    nothing is classified: earning it takes a score of 70, and without a
    placed component, or without a classified one, the score is at most 63
    whatever the dependencies. *)
Theorem strategic_mapper_needs_both (components : list MapComponent)
    (dependencies : list Dependency) :
  checkBadgeEarned "strategic-mapper" components dependencies = true ->
  (exists c, In c components /\ isPlaced c = true)
  /\ (exists c, In c components /\ classification c <> None).
Proof.
  change (checkBadgeEarned "strategic-mapper" components dependencies)
    with (70 <=? calculateTotalScore components dependencies)%Z.
  intros H. apply Z.leb_le in H. split.
  - destruct (existsb (fun c => isPlaced c) components) eqn:E.
    + apply existsb_exists in E as (c & Hc & Hp). now exists c.
    + pose proof (score_without_placed components dependencies
                    (existsb_false_forall _ _ E)). lia.
  - destruct (existsb (fun c => isSome (classification c)) components) eqn:E.
    + apply existsb_exists in E as (c & Hc & Hp). exists c; split; [exact Hc|].
      now apply isSome_classification.
    + assert (Hn : forall c, In c components -> classification c = None).
      { intros c Hc. pose proof (existsb_false_forall _ _ E c Hc) as Hs.
        cbn in Hs. now destruct (classification c). }
      pose proof (score_without_classified components dependencies Hn). lia.
Qed.

Lemma strategic_mapper_needs_both_witness :
  let components := map playPerfectly INITIAL_COMPONENTS in
  let dependencies := map declarePair CORRECT_DEPENDENCIES in
  (exists c, In c components /\ isPlaced c = true)
  /\ (exists c, In c components /\ classification c <> None).
Proof.
  intros components dependencies.
  apply (strategic_mapper_needs_both components dependencies).
  change (checkBadgeEarned "strategic-mapper" components dependencies)
    with (70 <=? calculateTotalScore components dependencies)%Z.
  unfold components, dependencies.
  now rewrite shipped_game_perfect_score.
Defined.

(** A badge id other than the five known ones is never earned. *)
Theorem checkBadgeEarned_unknown (badgeId : string)
    (components : list MapComponent) (dependencies : list Dependency) :
  badgeId <> "cloud-wisdom" ->
  badgeId <> "innovation-star" ->
  badgeId <> "reindeer-efficiency" ->
  badgeId <> "strategic-mapper" ->
  badgeId <> "dependency-master" ->
  checkBadgeEarned badgeId components dependencies = false.
Proof.
  intros H1 H2 H3 H4 H5. unfold checkBadgeEarned.
  apply String.eqb_neq in H1, H2, H3, H4, H5.
  now rewrite H1, H2, H3, H4, H5.
Qed.

Lemma checkBadgeEarned_unknown_witness :
  checkBadgeEarned "cloud-wisdom "
                   (map playPerfectly INITIAL_COMPONENTS)
                   (map declarePair CORRECT_DEPENDENCIES) = false.
Proof. apply checkBadgeEarned_unknown; discriminate. Defined.

(** X10: The dependency-master badge takes at least five declared dependencies,
    and once earned it stays earned whatever is declared after. *)
Theorem dependency_master_kept (components : list MapComponent)
    (dependencies more : list Dependency) :
  checkBadgeEarned "dependency-master" components dependencies = true ->
  (5 <= List.length dependencies)%nat
  /\ checkBadgeEarned "dependency-master" components (dependencies ++ more)
     = true.
Proof.
  change (checkBadgeEarned "dependency-master" components dependencies)
    with (5 <=? correctCount dependencies)%nat.
  change (checkBadgeEarned "dependency-master" components (dependencies ++ more))
    with (5 <=? correctCount (dependencies ++ more))%nat.
  intros H. apply Nat.leb_le in H.
  pose proof (correctCount_le dependencies). split; [lia|].
  apply Nat.leb_le. rewrite correctCount_app. lia.
Qed.

Lemma dependency_master_kept_witness :
  (5 <= List.length (map declarePair CORRECT_DEPENDENCIES))%nat
  /\ checkBadgeEarned "dependency-master" INITIAL_COMPONENTS
       (map declarePair CORRECT_DEPENDENCIES
        ++ [mkDependency "dep-13" "elf-dashboard" "network-comms"]) = true.
Proof.
  apply (dependency_master_kept INITIAL_COMPONENTS
           (map declarePair CORRECT_DEPENDENCIES)
           [mkDependency "dep-13" "elf-dashboard" "network-comms"]).
  reflexivity.
Defined.

(** ** Evolution stage of a placement *)

Lemma getEvolutionStageFromX_readAsStage (stage : EvolutionStage) (px : R) :
  getEvolutionStageFromX px = stage <-> readAsStage stage px.
Proof.
  destruct stage; cbn [readAsStage].
  - apply getEvolutionStageFromX_genesis.
  - apply getEvolutionStageFromX_custom.
  - apply getEvolutionStageFromX_product.
  - apply getEvolutionStageFromX_commodity.
Qed.

(** X11: A placement counts as evolution-correct exactly when the component has
    a position whose X lies in the range of its correct stage, whatever its
    Y; for a commodity component every X below 0 or from 75 on counts. *)
Theorem isEvolutionCorrect_iff (c : MapComponent) :
  isEvolutionCorrect c = true <->
  exists p, position c = Some p /\ readAsStage (correctEvolution c) (x p).
Proof.
  unfold isEvolutionCorrect. destruct (position c) as [p|].
  - cbv zeta. rewrite EvolutionStage_eqb_eq, getEvolutionStageFromX_readAsStage.
    split.
    + intros H; now exists p.
    + intros (q & E & H); now injection E as <-.
  - split; [discriminate|]. intros (q & E & _); discriminate.
Qed.

(** ** The edge a connection strikes *)

Lemma atan_lt_iff (a b : R) : atan a < atan b <-> a < b.
Proof.
  split; [|apply atan_increasing].
  intros H. destruct (Rlt_dec a b) as [Hlt|Hge]; [exact Hlt|].
  destruct (Req_dec a b) as [->|Hne]; [lra|].
  assert (Hba : b < a) by lra.
  apply atan_increasing in Hba. lra.
Qed.

Lemma atan_le_iff (a b : R) : atan a <= atan b <-> a <= b.
Proof.
  split; intros H.
  - destruct (Rle_dec a b) as [Hle|Hgt]; [exact Hle|].
    assert (Hba : b < a) by lra. apply atan_increasing in Hba. lra.
  - destruct H as [H| ->]; [left; now apply atan_increasing | right; reflexivity].
Qed.

Lemma atan_pos_iff (a : R) : 0 < atan a <-> 0 < a.
Proof. rewrite <- atan_0 at 1. apply atan_lt_iff. Qed.

Lemma atan_neg_iff (a : R) : atan a < 0 <-> a < 0.
Proof. rewrite <- atan_0 at 1. apply atan_lt_iff. Qed.

(** The quotient [dy / dx] against the aspect ratio 12/19 of the card. *)
Lemma slope_lt_iff (dy dx : R) :
  0 < dx -> (dy / dx < 12 / 19 <-> 19 * dy < 12 * dx).
Proof.
  intros H. split; intros Hq.
  - apply (Rmult_lt_compat_r dx) in Hq; [|exact H].
    replace (dy / dx * dx) with dy in Hq by (field; lra). lra.
  - apply (Rmult_lt_reg_r dx); [exact H|].
    replace (dy / dx * dx) with dy by (field; lra). lra.
Qed.

Lemma slope_gt_iff (dy dx : R) :
  0 < dx -> (- (12 / 19) < dy / dx <-> - (12 * dx) < 19 * dy).
Proof.
  intros H. split; intros Hq.
  - apply (Rmult_lt_compat_r dx) in Hq; [|exact H].
    replace (dy / dx * dx) with dy in Hq by (field; lra). lra.
  - apply (Rmult_lt_reg_r dx); [exact H|].
    replace (dy / dx * dx) with dy by (field; lra). lra.
Qed.

Lemma slope_flip (dy dx : R) : dx <> 0 -> dy / dx = (- dy) / (- dx).
Proof. intros H; field; lra. Qed.

(** Decides the edge once the goal's context bounds the direction. *)
Ltac decide_edge :=
  unfold struckEdge, Rabs;
  repeat match goal with
         | |- context [Rcase_abs ?a] => destruct (Rcase_abs a)
         | |- context [Rlt_dec ?a ?b] => destruct (Rlt_dec a b)
         | |- context [Rgt_dec ?a ?b] => destruct (Rgt_dec a b)
         end;
  solve [ reflexivity | exfalso; lra ].

Lemma Math_atan2_left_up (dy dx : R) :
  dx < 0 -> 0 <= dy -> Math_atan2 dy dx = atan (dy / dx) + PI.
Proof.
  intros Hx Hy; unfold Math_atan2.
  destruct (Rlt_dec 0 dx); [lra|]. destruct (Rlt_dec dx 0); [|lra].
  destruct (Rle_dec 0 dy); [reflexivity | lra].
Qed.

Lemma Math_atan2_left_down (dy dx : R) :
  dx < 0 -> dy < 0 -> Math_atan2 dy dx = atan (dy / dx) - PI.
Proof.
  intros Hx Hy; unfold Math_atan2.
  destruct (Rlt_dec 0 dx); [lra|]. destruct (Rlt_dec dx 0); [|lra].
  destruct (Rle_dec 0 dy); [lra | reflexivity].
Qed.

Lemma Math_atan2_up (dy : R) : 0 < dy -> Math_atan2 dy 0 = PI / 2.
Proof.
  intros Hy; unfold Math_atan2.
  destruct (Rlt_dec 0 0); [lra|]. destruct (Rlt_dec 0 dy); [reflexivity | lra].
Qed.

Lemma Math_atan2_down (dy : R) : dy < 0 -> Math_atan2 dy 0 = - (PI / 2).
Proof.
  intros Hy; unfold Math_atan2.
  destruct (Rlt_dec 0 0); [lra|]. destruct (Rlt_dec 0 dy); [lra|].
  destruct (Rlt_dec dy 0); [reflexivity | lra].
Qed.

Lemma Math_atan2_origin : Math_atan2 0 0 = 0.
Proof.
  unfold Math_atan2.
  destruct (Rlt_dec 0 0); [lra|]. reflexivity.
Qed.

(** How the arctangent of a quotient compares with the corner half-angle. *)
Lemma atan_slope_facts (dy dx : R) :
  0 < dx ->
  - (PI / 2) < atan (dy / dx) < PI / 2
  /\ (atan (dy / dx) < atan (12 / 19) <-> 19 * dy < 12 * dx)
  /\ (- atan (12 / 19) < atan (dy / dx) <-> - (12 * dx) < 19 * dy)
  /\ (0 < atan (dy / dx) <-> 0 < dy)
  /\ (atan (dy / dx) < 0 <-> dy < 0).
Proof.
  intros H. split; [pose proof (atan_bound (dy / dx)); lra|].
  assert (Hi : 0 < / dx) by now apply Rinv_0_lt_compat.
  split; [|split; [|split]].
  - rewrite atan_lt_iff. now apply slope_lt_iff.
  - rewrite <- atan_opp, atan_lt_iff. now apply slope_gt_iff.
  - rewrite atan_pos_iff. unfold Rdiv. split; intros Hq; nra.
  - rewrite atan_neg_iff. unfold Rdiv. split; intros Hq; nra.
Qed.

Lemma struckEdge_cases (dy dx : R) :
  let edge := struckEdge (Math_atan2 dy dx) (atan (12 / 19)) in
  (0 < dx /\ 19 * Rabs dy < 12 * dx -> edge = RightEdge)
  /\ (dx < 0 /\ 19 * Rabs dy < 12 * - dx -> edge = LeftEdge)
  /\ (0 < dy /\ 12 * Rabs dx <= 19 * dy -> edge = BottomEdge)
  /\ (dy < 0 /\ 12 * Rabs dx <= 19 * - dy -> edge = TopEdge)
  /\ (dx = 0 /\ dy = 0 -> edge = RightEdge).
Proof.
  intros edge. unfold edge. clear edge.
  pose proof cardAspectRatio_bounds as [Hlo Hhi]. pose proof PI_RGT_0 as Hpi.
  assert (Hcases :
    (0 < dx -> Math_atan2 dy dx = atan (dy / dx))
    /\ (dx < 0 -> 0 <= dy -> Math_atan2 dy dx = atan ((- dy) / (- dx)) + PI)
    /\ (dx < 0 -> dy < 0 -> Math_atan2 dy dx = atan ((- dy) / (- dx)) - PI)).
  { split; [apply Math_atan2_right|]. split; intros Hx Hy.
    - rewrite <- slope_flip by lra. now apply Math_atan2_left_up.
    - rewrite <- slope_flip by lra. now apply Math_atan2_left_down. }
  destruct Hcases as (Hr & Hlu & Hld).
  assert (Habs_y : Rabs dy = dy \/ Rabs dy = - dy)
    by (unfold Rabs; destruct (Rcase_abs dy); auto).
  assert (Habs_x : Rabs dx = dx \/ Rabs dx = - dx)
    by (unfold Rabs; destruct (Rcase_abs dx); auto).
  pose proof (Rabs_pos dx) as Hax. pose proof (Rabs_pos dy) as Hay.
  pose proof (Rle_abs dx) as Hlx. pose proof (Rle_abs dy) as Hly.
  pose proof (Rle_abs (- dx)) as Hlx'. rewrite Rabs_Ropp in Hlx'.
  pose proof (Rle_abs (- dy)) as Hly'. rewrite Rabs_Ropp in Hly'.
  repeat split.
  - intros [Hx Hs]. rewrite (Hr Hx).
    destruct (atan_slope_facts dy dx Hx) as (Hb & H1 & H2 & _).
    assert (atan (dy / dx) < atan (12 / 19)) by (apply H1; lra).
    assert (- atan (12 / 19) < atan (dy / dx)) by (apply H2; lra).
    decide_edge.
  - intros [Hx Hs].
    assert (Hx' : 0 < - dx) by lra.
    destruct (atan_slope_facts (- dy) (- dx) Hx') as (Hb & H1 & H2 & H3 & H4).
    destruct (Rle_dec 0 dy) as [Hy|Hy].
    + rewrite (Hlu Hx Hy).
      assert (- atan (12 / 19) < atan (- dy / - dx)) by (apply H2; lra).
      assert (atan (- dy / - dx) <= 0).
      { destruct (Rle_dec (atan (- dy / - dx)) 0); [assumption|].
        assert (0 < - dy) by (apply H3; lra). lra. }
      decide_edge.
    + assert (Hy' : dy < 0) by lra. rewrite (Hld Hx Hy').
      assert (atan (- dy / - dx) < atan (12 / 19)) by (apply H1; lra).
      assert (0 < atan (- dy / - dx)) by (apply H3; lra).
      decide_edge.
  - intros [Hy Hs].
    destruct (Rtotal_order dx 0) as [Hx|[Hx|Hx]].
    + assert (Hx' : 0 < - dx) by lra.
      destruct (atan_slope_facts (- dy) (- dx) Hx') as (Hb & H1 & H2 & H3 & H4).
      rewrite (Hlu Hx) by lra.
      assert (atan (- dy / - dx) <= - atan (12 / 19)).
      { destruct (Rle_dec (atan (- dy / - dx)) (- atan (12 / 19))); [assumption|].
        assert (- (12 * - dx) < 19 * - dy) by (apply H2; lra). lra. }
      decide_edge.
    + subst dx. rewrite (Math_atan2_up dy Hy). decide_edge.
    + destruct (atan_slope_facts dy dx Hx) as (Hb & H1 & H2 & H3 & H4).
      rewrite (Hr Hx).
      assert (atan (12 / 19) <= atan (dy / dx)).
      { destruct (Rle_dec (atan (12 / 19)) (atan (dy / dx))); [assumption|].
        assert (19 * dy < 12 * dx) by (apply H1; lra). lra. }
      decide_edge.
  - intros [Hy Hs].
    destruct (Rtotal_order dx 0) as [Hx|[Hx|Hx]].
    + assert (Hx' : 0 < - dx) by lra.
      destruct (atan_slope_facts (- dy) (- dx) Hx') as (Hb & H1 & H2 & H3 & H4).
      rewrite (Hld Hx Hy).
      assert (atan (12 / 19) <= atan (- dy / - dx)).
      { destruct (Rle_dec (atan (12 / 19)) (atan (- dy / - dx))); [assumption|].
        assert (19 * - dy < 12 * - dx) by (apply H1; lra). lra. }
      decide_edge.
    + subst dx. rewrite (Math_atan2_down dy Hy). decide_edge.
    + destruct (atan_slope_facts dy dx Hx) as (Hb & H1 & H2 & H3 & H4).
      rewrite (Hr Hx).
      assert (atan (dy / dx) <= - atan (12 / 19)).
      { destruct (Rle_dec (atan (dy / dx)) (- atan (12 / 19))); [assumption|].
        assert (- (12 * dx) < 19 * dy) by (apply H2; lra). lra. }
      decide_edge.
  - intros [-> ->]. rewrite Math_atan2_origin. decide_edge.
Qed.



(** ** Where a connector ends *)










Lemma horizontal_direction (fromPoint toPoint : Position) :
  y toPoint = y fromPoint -> x toPoint <> x fromPoint ->
  tan (direction fromPoint toPoint) = 0.
Proof.
  intros Hy Hx. unfold direction. rewrite tan_Math_atan2 by lra.
  rewrite Hy. field. lra.
Qed.

(** X14: A horizontal connection ends 105 short of the target centre on the
    source's side, 95 for half the card and 10 for the arrowhead.  Drawn to
    the right it ends at the height of the centre.  Drawn to the left its
    height is the centre's plus 95 times the tangent of the straight angle,
    which is 0 in exact arithmetic only, so the abscissa alone is stated. *)
Theorem getEdgeIntersection_horizontal (fromPoint toPoint : Position) :
  y toPoint = y fromPoint ->
  (x fromPoint < x toPoint ->
   getEdgeIntersection fromPoint toPoint
   = mkPosition (x toPoint - 95 - 10) (y toPoint))
  /\ (x toPoint < x fromPoint ->
      x (getEdgeIntersection fromPoint toPoint) = x toPoint + 95 + 10).
Proof.
  intros Hy.
  set (dx := x toPoint - x fromPoint).
  assert (Hdy : y toPoint - y fromPoint = 0) by lra.
  destruct (struckEdge_cases (y toPoint - y fromPoint) dx) as (HR & HL & _).
  rewrite Hdy, Rabs_R0 in HR, HL.
  split; intros Hx.
  - assert (Hpos : 0 < dx) by (unfold dx; lra).
    rewrite getEdgeIntersection_by_edge. unfold direction at 1.
    rewrite Hdy. fold dx. rewrite HR by (split; lra).
    unfold pullBack, edgePoint; cbv zeta; cbn [x y].
    rewrite horizontal_direction by lra. rewrite Hdy. fold dx.
    replace (dx * dx + 0 * 0) with (dx * dx) by ring.
    rewrite sqrt_square by lra. f_equal; field; lra.
  - assert (Hneg : 0 < - dx) by (unfold dx; lra).
    rewrite getEdgeIntersection_by_edge. unfold direction at 1.
    rewrite Hdy. fold dx. rewrite HL by (split; lra).
    unfold pullBack, edgePoint; cbv zeta; cbn [x y]. rewrite Hdy. fold dx.
    replace (dx * dx + 0 * 0) with ((- dx) * (- dx)) by ring.
    rewrite sqrt_square by lra. field; lra.
Qed.

Lemma getEdgeIntersection_horizontal_witness :
  getEdgeIntersection (mkPosition 0 0) (mkPosition 100 0)
  = mkPosition (100 - 95 - 10) 0
  /\ x (getEdgeIntersection (mkPosition 400 50) (mkPosition 100 50))
     = 100 + 95 + 10.
Proof.
  split.
  - apply (proj1 (getEdgeIntersection_horizontal (mkPosition 0 0) (mkPosition 100 0)
                    eq_refl)).
    cbn [x]; lra.
  - apply (proj2 (getEdgeIntersection_horizontal (mkPosition 400 50)
                    (mkPosition 100 50) eq_refl)).
    cbn [x]; lra.
Defined.

(** ** Component centres *)

Lemma getComponentCenter_some (components : list MapComponent)
    (canvasWidth canvasHeight : R) (componentId : string) (q : Position) :
  getComponentCenter components canvasWidth canvasHeight componentId = Some q <->
  exists c p,
    isFirstWith (fun c => id c = componentId) components c
    /\ position c = Some p
    /\ q = mkPosition (x p / 100 * canvasWidth) (y p / 100 * canvasHeight).
Proof.
  unfold getComponentCenter.
  set (f := fun c : MapComponent => String.eqb (id c) componentId).
  assert (Hf : forall c, f c = true <-> id c = componentId)
    by (intros c; apply String.eqb_eq).
  destruct (find f components) as [c|] eqn:F.
  - apply (find_isFirstWith f _ _ _ Hf) in F.
    destruct (position c) as [p|] eqn:P; split.
    + intros E; injection E as <-. exists c, p; auto.
    + intros (c' & p' & F' & P' & ->).
      apply (find_isFirstWith f _ _ _ Hf) in F, F'.
      rewrite F in F'; injection F' as <-. rewrite P in P'; now injection P' as <-.
    + discriminate.
    + intros (c' & p' & F' & P' & _).
      apply (find_isFirstWith f _ _ _ Hf) in F, F'.
      rewrite F in F'; injection F' as <-. congruence.
  - split; [discriminate|].
    intros (c' & p' & F' & _). apply (find_isFirstWith f _ _ _ Hf) in F'.
    congruence.
Qed.

(** X15: With every position inside the 100 by 100 space, the centre computed
    for a component lies inside the canvas. *)
Theorem getComponentCenter_in_canvas (components : list MapComponent)
    (canvasWidth canvasHeight : R) (componentId : string) (q : Position) :
  0 <= canvasWidth -> 0 <= canvasHeight ->
  (forall c p, In c components -> position c = Some p ->
               0 <= x p <= 100 /\ 0 <= y p <= 100) ->
  getComponentCenter components canvasWidth canvasHeight componentId = Some q ->
  0 <= x q <= canvasWidth /\ 0 <= y q <= canvasHeight.
Proof.
  intros Hw Hh Hin H.
  apply getComponentCenter_some in H as (c & p & (pre & post & E & _) & P & ->).
  assert (Hc : In c components) by (rewrite E; apply in_elt).
  destruct (Hin c p Hc P) as [Hx Hy]. cbn [x y].
  unfold Rdiv. split; split; nra.
Qed.

Lemma getComponentCenter_in_canvas_witness :
  let components :=
    [ mkMapComponent "cloud-compute" "Cloud Compute and Storage"
        "Infrastructure as a service" commodity (Some buy)
        (mkPosition 85 25) (Some (mkPosition 80 30)) None true ] in
  let q := mkPosition (80 / 100 * 1000) (30 / 100 * 600) in
  getComponentCenter components 1000 600 "cloud-compute" = Some q
  /\ 0 <= x q <= 1000 /\ 0 <= y q <= 600.
Proof.
  intros components q.
  assert (E : getComponentCenter components 1000 600 "cloud-compute" = Some q)
    by reflexivity.
  split; [exact E|].
  apply (getComponentCenter_in_canvas components 1000 600 "cloud-compute" q);
    [lra | lra | | exact E].
  intros c p [<-|[]] P. injection P as <-. cbn [x y]. lra.
Defined.

(** X16: A dependency is drawn exactly when each of its two ids names a component
    that has a position, the first component with that id counting; the
    connector then starts at the centre of the source component. *)
Theorem connectorEndpoints_drawn_iff (components : list MapComponent)
    (canvasWidth canvasHeight : R) (dependency : Dependency)
    (fromPos toPos : Position) :
  connectorEndpoints components canvasWidth canvasHeight dependency
  = Some (fromPos, toPos) <->
  exists cf pf ct pt,
    isFirstWith (fun c => id c = fromComponentId dependency) components cf
    /\ position cf = Some pf
    /\ isFirstWith (fun c => id c = toComponentId dependency) components ct
    /\ position ct = Some pt
    /\ fromPos = mkPosition (x pf / 100 * canvasWidth) (y pf / 100 * canvasHeight)
    /\ toPos = getEdgeIntersection fromPos
                 (mkPosition (x pt / 100 * canvasWidth)
                             (y pt / 100 * canvasHeight)).
Proof.
  unfold connectorEndpoints.
  destruct (getComponentCenter components canvasWidth canvasHeight
                               (fromComponentId dependency)) as [f|] eqn:Ef.
  - destruct (getComponentCenter components canvasWidth canvasHeight
                                 (toComponentId dependency)) as [t|] eqn:Et.
    + apply getComponentCenter_some in Ef as (cf & pf & Ff & Pf & ->).
      apply getComponentCenter_some in Et as (ct & pt & Ft & Pt & ->).
      split.
      * intros E; injection E as <- <-. exists cf, pf, ct, pt. repeat split; auto.
      * intros (cf' & pf' & ct' & pt' & Ff' & Pf' & Ft' & Pt' & -> & ->).
        assert (Ec : Some (mkPosition (x pf' / 100 * canvasWidth)
                                      (y pf' / 100 * canvasHeight))
                     = Some (mkPosition (x pf / 100 * canvasWidth)
                                        (y pf / 100 * canvasHeight))).
        { rewrite <- !(proj2 (getComponentCenter_some components canvasWidth
                               canvasHeight (fromComponentId dependency) _)).
          - reflexivity.
          - exists cf, pf; auto.
          - exists cf', pf'; auto. }
        assert (Et' : Some (mkPosition (x pt' / 100 * canvasWidth)
                                       (y pt' / 100 * canvasHeight))
                      = Some (mkPosition (x pt / 100 * canvasWidth)
                                         (y pt / 100 * canvasHeight))).
        { rewrite <- !(proj2 (getComponentCenter_some components canvasWidth
                               canvasHeight (toComponentId dependency) _)).
          - reflexivity.
          - exists ct, pt; auto.
          - exists ct', pt'; auto. }
        injection Ec as -> ->. injection Et' as -> ->. reflexivity.
    + split; [discriminate|].
      intros (cf' & pf' & ct' & pt' & _ & _ & Ft' & Pt' & _).
      assert (E : getComponentCenter components canvasWidth canvasHeight
                                     (toComponentId dependency)
                  = Some (mkPosition (x pt' / 100 * canvasWidth)
                                     (y pt' / 100 * canvasHeight)))
        by (apply getComponentCenter_some; exists ct', pt'; auto).
      congruence.
  - split; [discriminate|].
    intros (cf' & pf' & _ & _ & Ff' & Pf' & _).
    assert (E : getComponentCenter components canvasWidth canvasHeight
                                   (fromComponentId dependency)
                = Some (mkPosition (x pf' / 100 * canvasWidth)
                                   (y pf' / 100 * canvasHeight)))
      by (apply getComponentCenter_some; exists cf', pf'; auto).
    congruence.
Qed.

(** ** The application: what its handlers keep *)

Section AppFacts.

Variable clock : nat -> Z.

(** Unfolds the setters of the application state. *)
Ltac app_unfold :=
  unfold App.addReturned, App.addCommentary, App.setComponents,
    App.setDependencies, App.setCommentary, App.setSelectedComponentId,
    App.setPendingDependencyFromId, App.setShowCertificate, App.setLastScore,
    App.setWorld, App.handleComponentSelect, App.handlePendingDependencySet.

Lemma addReturned_keeps (r : option Commentary * World) (s : App.State) :
  App.components (App.addReturned r s) = App.components s
  /\ App.dependencies (App.addReturned r s) = App.dependencies s
  /\ App.selectedComponentId (App.addReturned r s) = App.selectedComponentId s
  /\ App.pendingDependencyFromId (App.addReturned r s)
     = App.pendingDependencyFromId s
  /\ App.showCertificate (App.addReturned r s) = App.showCertificate s
  /\ App.lastScore (App.addReturned r s) = App.lastScore s.
Proof. app_unfold. destruct (fst r); cbn; repeat split. Qed.

Lemma scoreEffect_keeps (s : App.State) :
  App.components (App.scoreEffect clock s) = App.components s
  /\ App.dependencies (App.scoreEffect clock s) = App.dependencies s
  /\ App.selectedComponentId (App.scoreEffect clock s)
     = App.selectedComponentId s
  /\ App.pendingDependencyFromId (App.scoreEffect clock s)
     = App.pendingDependencyFromId s
  /\ App.showCertificate (App.scoreEffect clock s) = App.showCertificate s.
Proof.
  unfold App.scoreEffect. cbv zeta.
  destruct ((App.lastScore s <? App.score s)%Z
            && (Z.rem (App.score s) 25 =? 0)%Z && (0 <? App.score s)%Z).
  - destruct (addReturned_keeps
                (getScoreMilestoneCommentary clock (App.score s) (App.world s)) s)
      as (H1 & H2 & H3 & H4 & H5 & _).
    unfold App.setLastScore; cbn. auto.
  - unfold App.setLastScore; cbn. auto.
Qed.

(** The components after a placement: nothing changes for an unknown id,
    and otherwise every component with the id gets the position. *)
Lemma handleComponentPlace_components (componentId : string) (p : Position)
    (s : App.State) :
  App.components (App.handleComponentPlace clock componentId p s)
  = (if existsb (fun c => String.eqb (id c) componentId) (App.components s)
     then map (fun c => if String.eqb (id c) componentId
                        then App.withPosition p c else c)
              (App.components s)
     else App.components s)
  /\ App.dependencies (App.handleComponentPlace clock componentId p s)
     = App.dependencies s
  /\ App.selectedComponentId (App.handleComponentPlace clock componentId p s)
     = App.selectedComponentId s
  /\ App.pendingDependencyFromId (App.handleComponentPlace clock componentId p s)
     = App.pendingDependencyFromId s.
Proof.
  unfold App.handleComponentPlace.
  destruct (find (fun c => String.eqb (id c) componentId) (App.components s))
    as [c|] eqn:F.
  - assert (E : existsb (fun c => String.eqb (id c) componentId)
                        (App.components s) = true).
    { apply find_some in F as [Hin Hc]. apply existsb_exists. now exists c. }
    rewrite E. cbv zeta.
    match goal with
    | |- context [App.addReturned ?r ?t] =>
        destruct (addReturned_keeps r t) as (H1 & H2 & H3 & H4 & _)
    end.
    rewrite H1, H2, H3, H4. cbn. auto.
  - assert (E : existsb (fun c => String.eqb (id c) componentId)
                        (App.components s) = false).
    { destruct (existsb _ _) eqn:E; [|reflexivity].
      apply existsb_exists in E as (c & Hin & Hc).
      pose proof (find_none _ _ F c Hin) as Hn. cbn in Hn. congruence. }
    rewrite E. auto.
Qed.

Lemma handleClassificationChange_components (componentId : string)
    (k : ComponentClassification) (s : App.State) :
  App.components (App.handleClassificationChange clock componentId k s)
  = (if existsb (fun c => String.eqb (id c) componentId) (App.components s)
     then map (fun c => if String.eqb (id c) componentId
                        then App.withClassification k c else c)
              (App.components s)
     else App.components s)
  /\ App.dependencies (App.handleClassificationChange clock componentId k s)
     = App.dependencies s
  /\ App.selectedComponentId (App.handleClassificationChange clock componentId k s)
     = App.selectedComponentId s
  /\ App.pendingDependencyFromId
       (App.handleClassificationChange clock componentId k s)
     = App.pendingDependencyFromId s.
Proof.
  unfold App.handleClassificationChange.
  destruct (find (fun c => String.eqb (id c) componentId) (App.components s))
    as [c|] eqn:F.
  - assert (E : existsb (fun c => String.eqb (id c) componentId)
                        (App.components s) = true).
    { apply find_some in F as [Hin Hc]. apply existsb_exists. now exists c. }
    rewrite E. cbv zeta.
    match goal with
    | |- context [App.addReturned ?r ?t] =>
        destruct (addReturned_keeps r t) as (H1 & H2 & H3 & H4 & _)
    end.
    rewrite H1, H2, H3, H4. cbn. auto.
  - assert (E : existsb (fun c => String.eqb (id c) componentId)
                        (App.components s) = false).
    { destruct (existsb _ _) eqn:E; [|reflexivity].
      apply existsb_exists in E as (c & Hin & Hc).
      pose proof (find_none _ _ F c Hin) as Hn. cbn in Hn. congruence. }
    rewrite E. auto.
Qed.

(** The dependencies after [handleDependencyCreate]: unchanged when one
    joining the same pair is there, and otherwise one more at the end. *)
Lemma handleDependencyCreate_dependencies (fromId toId : string) (s : App.State) :
  App.components (App.handleDependencyCreate clock fromId toId s)
  = App.components s
  /\ App.selectedComponentId (App.handleDependencyCreate clock fromId toId s)
     = App.selectedComponentId s
  /\ App.pendingDependencyFromId (App.handleDependencyCreate clock fromId toId s)
     = App.pendingDependencyFromId s
  /\ ((existsb (fun d =>
                      (String.eqb (fromComponentId d) fromId
                       && String.eqb (toComponentId d) toId)
                      || (String.eqb (fromComponentId d) toId
                          && String.eqb (toComponentId d) fromId))
                   (App.dependencies s) = true
       /\ App.dependencies (App.handleDependencyCreate clock fromId toId s)
          = App.dependencies s)
      \/ (existsb (fun d =>
                     (String.eqb (fromComponentId d) fromId
                      && String.eqb (toComponentId d) toId)
                     || (String.eqb (fromComponentId d) toId
                         && String.eqb (toComponentId d) fromId))
                  (App.dependencies s) = false
          /\ exists newId,
               App.dependencies (App.handleDependencyCreate clock fromId toId s)
               = App.dependencies s ++ [mkDependency newId fromId toId])).
Proof.
  unfold App.handleDependencyCreate. cbv zeta.
  destruct (existsb _ (App.dependencies s)) eqn:E;
    [repeat split; left; split; reflexivity|].
  unfold dateNow.
  destruct (find (fun c => String.eqb (id c) fromId) (App.components s));
    destruct (find (fun c => String.eqb (id c) toId) (App.components s));
    try match goal with
        | |- context [App.addReturned ?r ?t] =>
            destruct (addReturned_keeps r t) as (H1 & H2 & H3 & H4 & _);
            rewrite H1, H2, H3, H4
        end;
    cbn; repeat split; right; (split; [reflexivity|]); eexists; reflexivity.
Qed.

End AppFacts.

(** ** Well-formed components *)

Lemma target_id (l : list MapComponent) :
  map id l = map (fun t => fst (fst (fst (fst (fst t))))) (map target l).
Proof. rewrite map_map. reflexivity. Qed.

Lemma componentsWellFormed_ids (l : list MapComponent) :
  componentsWellFormed l -> map id l = map id INITIAL_COMPONENTS.
Proof. intros [H _]. now rewrite !target_id, H. Qed.

Lemma INITIAL_COMPONENTS_ids_NoDup : NoDup (map id INITIAL_COMPONENTS).
Proof.
  cbn. repeat (constructor; [cbn; intros H;
                             repeat (destruct H as [H|H]; [discriminate H|]);
                             exact H|]).
  constructor.
Qed.

Lemma NoDup_map_injective {A B : Type} (f : A -> B) (l : list A) (a b : A) :
  NoDup (map f l) -> In a l -> In b l -> f a = f b -> a = b.
Proof.
  induction l as [|c l IH]; cbn; intros Hn Ha Hb E; [contradiction|].
  inversion Hn as [|? ? Hnotin Hn']; subst.
  destruct Ha as [->|Ha], Hb as [->|Hb].
  - reflexivity.
  - exfalso; apply Hnotin. rewrite E. now apply in_map.
  - exfalso; apply Hnotin. rewrite <- E. now apply in_map.
  - now apply IH.
Qed.

Lemma componentsWellFormed_unique (l : list MapComponent) (a b : MapComponent) :
  componentsWellFormed l -> In a l -> In b l -> id a = id b -> a = b.
Proof.
  intros H. apply NoDup_map_injective.
  rewrite (componentsWellFormed_ids l H). apply INITIAL_COMPONENTS_ids_NoDup.
Qed.

Lemma componentsWellFormed_isComponentId (l : list MapComponent) (c : MapComponent) :
  componentsWellFormed l -> In c l -> isComponentId (id c).
Proof.
  intros H Hc. unfold isComponentId.
  rewrite <- (componentsWellFormed_ids l H). now apply in_map.
Qed.

Lemma INITIAL_COMPONENTS_wellFormed : componentsWellFormed INITIAL_COMPONENTS.
Proof.
  split; [reflexivity|].
  unfold INITIAL_COMPONENTS.
  repeat (constructor;
          [unfold componentWellFormed; cbn; repeat split;
           solve [ discriminate | congruence | intros; exfalso; congruence ]|]).
  constructor.
Qed.

Lemma clamp_bounds (v : R) : 0 <= Rmax 0 (Rmin 100 v) <= 100.
Proof.
  split; [apply Rmax_l|].
  apply Rmax_lub; [lra | apply Rmin_l].
Qed.

Lemma withPosition_wellFormed (l : list MapComponent) (componentId : string)
    (p : Position) :
  0 <= x p <= 100 -> 0 <= y p <= 100 ->
  componentsWellFormed l ->
  componentsWellFormed
    (map (fun c => if String.eqb (id c) componentId
                   then App.withPosition p c else c) l).
Proof.
  intros Hx Hy [Ht Hf]. split.
  - rewrite <- Ht, map_map. apply map_ext.
    intros c. now destruct (String.eqb (id c) componentId).
  - apply Forall_map. eapply Forall_impl; [|exact Hf].
    intros c Hc. destruct (String.eqb (id c) componentId); [|exact Hc].
    unfold componentWellFormed, App.withPosition; cbn. repeat split.
    + discriminate.
    + injection H as <-. apply Hx.
    + injection H as <-. apply Hx.
    + injection H as <-. apply Hy.
    + injection H as <-. apply Hy.
Qed.

Lemma withClassification_wellFormed (l : list MapComponent)
    (componentId : string) (k : ComponentClassification) :
  componentsWellFormed l ->
  (exists c, In c l /\ id c = componentId /\ isPlaced c = true) ->
  componentsWellFormed
    (map (fun c => if String.eqb (id c) componentId
                   then App.withClassification k c else c) l).
Proof.
  intros H (c0 & Hin0 & Hid0 & Hp0). pose proof H as [Ht Hf]. split.
  - rewrite <- Ht, map_map. apply map_ext.
    intros c. now destruct (String.eqb (id c) componentId).
  - apply Forall_map. rewrite Forall_forall in *. intros c Hc.
    destruct (String.eqb (id c) componentId) eqn:E; [|now apply Hf].
    apply String.eqb_eq in E.
    assert (c = c0) by (apply (componentsWellFormed_unique l); congruence).
    subst c0. destruct (Hf c Hc) as (H1 & H2 & H3).
    unfold componentWellFormed, App.withClassification; cbn.
    split; [exact H1|]. split; [exact H2|]. intros _; exact Hp0.
Qed.

(** ** Well-formed dependencies *)

Lemma ForallOrdPairs_snoc {A : Type} (R : A -> A -> Prop) (l : list A) (n : A) :
  ForallOrdPairs R l -> Forall (fun a => R a n) l -> ForallOrdPairs R (l ++ [n]).
Proof.
  induction 1 as [|a l Ha Hl IH]; intros Hn; cbn.
  - constructor; constructor.
  - inversion Hn as [|? ? Han Hn']; subst.
    constructor; [|now apply IH].
    apply Forall_app; split; [exact Ha|]. constructor; [exact Han | constructor].
Qed.

Lemma existing_pair_iff (fromId toId : string) (d : Dependency) (newId : string) :
  (String.eqb (fromComponentId d) fromId && String.eqb (toComponentId d) toId)
  || (String.eqb (fromComponentId d) toId && String.eqb (toComponentId d) fromId)
  = true
  <-> samePair d (mkDependency newId fromId toId).
Proof.
  unfold samePair; cbn.
  rewrite orb_true_iff, !andb_true_iff, !String.eqb_eq. reflexivity.
Qed.

Lemma dependencies_snoc_wellFormed (l : list Dependency)
    (newId fromId toId : string) :
  dependenciesWellFormed l ->
  existsb (fun d =>
             (String.eqb (fromComponentId d) fromId
              && String.eqb (toComponentId d) toId)
             || (String.eqb (fromComponentId d) toId
                 && String.eqb (toComponentId d) fromId)) l = false ->
  fromId <> toId -> isComponentId fromId -> isComponentId toId ->
  dependenciesWellFormed (l ++ [mkDependency newId fromId toId]).
Proof.
  intros [Hp Hf] Hex Hne Hfrom Hto. split.
  - apply ForallOrdPairs_snoc; [exact Hp|].
    apply Forall_forall. intros d Hd Hs.
    apply (existing_pair_iff fromId toId d newId) in Hs.
    pose proof (existsb_false_forall _ _ Hex d Hd) as Hn. cbn in Hn. congruence.
  - apply Forall_app; split; [exact Hf|].
    constructor; [cbn; auto | constructor].
Qed.

(** ** Every state a user can bring about is well formed *)

Section Reachable.

Variable clock : nat -> Z.

Lemma initial_wellFormed : stateWellFormed (App.initial clock).
Proof.
  unfold stateWellFormed, App.initial; cbn.
  split; [apply INITIAL_COMPONENTS_wellFormed|].
  split; [split; constructor|]. split; discriminate.
Qed.

Lemma scoreEffect_wellFormed (s : App.State) :
  stateWellFormed s -> stateWellFormed (App.scoreEffect clock s).
Proof.
  unfold stateWellFormed.
  destruct (scoreEffect_keeps clock s) as (-> & -> & -> & -> & _). auto.
Qed.

Lemma handleComponentPlace_wellFormed (componentId : string) (p : Position)
    (s : App.State) :
  0 <= x p <= 100 -> 0 <= y p <= 100 ->
  stateWellFormed s ->
  stateWellFormed (App.handleComponentPlace clock componentId p s).
Proof.
  intros Hx Hy (Hc & Hd & Hs & Hp). unfold stateWellFormed.
  destruct (handleComponentPlace_components clock componentId p s)
    as (-> & -> & -> & ->).
  repeat split; auto.
  - destruct (existsb _ _); [|apply Hc].
    apply (withPosition_wellFormed _ _ _ Hx Hy Hc).
  - destruct (existsb _ _); [|apply Hc].
    apply (withPosition_wellFormed _ _ _ Hx Hy Hc).
  - apply Hd.
  - apply Hd.
Qed.

Lemma handleDrop_wellFormed (componentId : string) (clientX clientY : R)
    (rect : App.DOMRect) (s : App.State) :
  stateWellFormed s ->
  stateWellFormed (App.handleDrop clock componentId clientX clientY rect s).
Proof.
  intros H. unfold App.handleDrop.
  destruct (String.eqb componentId ""); [exact H|]. cbv zeta.
  apply handleComponentPlace_wellFormed; cbn [x y];
    [apply clamp_bounds | apply clamp_bounds | exact H].
Qed.

Lemma handleClassificationChange_wellFormed (componentId : string)
    (k : ComponentClassification) (s : App.State) :
  (exists c, In c (App.components s) /\ id c = componentId /\ isPlaced c = true) ->
  stateWellFormed s ->
  stateWellFormed (App.handleClassificationChange clock componentId k s).
Proof.
  intros Hex (Hc & Hd & Hs & Hp). unfold stateWellFormed.
  destruct (handleClassificationChange_components clock componentId k s)
    as (-> & -> & -> & ->).
  split; [|auto].
  destruct (existsb _ _); [|apply Hc].
  now apply withClassification_wellFormed.
Qed.

Lemma handleDependencyCreate_wellFormed (fromId toId : string) (s : App.State) :
  fromId <> toId -> isComponentId fromId -> isComponentId toId ->
  stateWellFormed s ->
  stateWellFormed (App.handleDependencyCreate clock fromId toId s).
Proof.
  intros Hne Hfrom Hto (Hc & Hd & Hs & Hp). unfold stateWellFormed.
  destruct (handleDependencyCreate_dependencies clock fromId toId s)
    as (-> & -> & -> & [[_ ->] | (Hex & newId & ->)]); [auto|].
  split; [exact Hc|]. split; [|auto].
  now apply dependencies_snoc_wellFormed.
Qed.

Lemma truthy_some (o : option string) :
  App.truthy o = true -> exists v, o = Some v.
Proof. destruct o as [v|]; [now exists v | discriminate]. Qed.

Lemma handleComponentClick_wellFormed (componentId : string) (s : App.State) :
  isComponentId componentId ->
  stateWellFormed s ->
  stateWellFormed (App.handleComponentClick clock componentId s).
Proof.
  intros Hid H. unfold App.handleComponentClick.
  destruct (App.truthy (App.pendingDependencyFromId s)) eqn:T.
  - destruct (truthy_some _ T) as [pending E]. rewrite E.
    assert (H1 : stateWellFormed
                   (if negb (String.eqb pending componentId)
                    then App.handleDependencyCreate clock pending componentId s
                    else s)).
    { destruct (String.eqb pending componentId) eqn:Ep; cbn [negb]; [exact H|].
      apply String.eqb_neq in Ep.
      apply handleDependencyCreate_wellFormed; auto.
      destruct H as (_ & _ & _ & Hp). now apply Hp. }
    destruct H1 as (Hc & Hd & _ & _).
    unfold stateWellFormed, App.handleComponentSelect,
      App.handlePendingDependencySet, App.setSelectedComponentId,
      App.setPendingDependencyFromId; cbn.
    repeat split; try apply Hc; try apply Hd; discriminate.
  - destruct H as (Hc & Hd & Hs & Hp).
    unfold stateWellFormed, App.handleComponentSelect,
      App.setSelectedComponentId; cbn.
    repeat split; try apply Hc; try apply Hd; auto.
    intros v. destruct (match App.selectedComponentId s with
                        | Some selected => String.eqb componentId selected
                        | None => false
                        end); [discriminate|].
    intros E; injection E as <-. exact Hid.
Qed.

Lemma handle_wellFormed (e : UI.Event) (u : UI.State) :
  stateWellFormed (UI.app u) -> UI.offered e u ->
  stateWellFormed (UI.app (UI.handle clock e u)).
Proof.
  intros H Hoff. pose proof H as (Hc & Hd & Hs & Hp).
  destruct e; cbn [UI.handle UI.app UI.offered] in *.
  - now apply handleDrop_wellFormed.
  - destruct Hoff as (c & Hin & Hid & Hpl & _).
    apply handleClassificationChange_wellFormed; [|exact H]. now exists c.
  - destruct Hoff as (c & Hin & <- & _).
    apply handleComponentClick_wellFormed; [|exact H].
    now apply (componentsWellFormed_isComponentId (App.components (UI.app u))).
  - unfold App.handleCanvasClick. destruct onCanvas; [|exact H].
    unfold stateWellFormed, App.handleComponentSelect,
      App.handlePendingDependencySet, App.setSelectedComponentId,
      App.setPendingDependencyFromId; cbn.
    repeat split; try apply Hc; try apply Hd; discriminate.
  - unfold App.createDependencyButton.
    destruct (App.truthy (App.selectedComponentId (UI.app u))); [|exact H].
    unfold stateWellFormed, App.handlePendingDependencySet,
      App.setPendingDependencyFromId; cbn.
    repeat split; try apply Hc; try apply Hd; auto.
  - unfold App.handleComplete, stateWellFormed, App.setShowCertificate,
      App.addCommentary, App.setCommentary, App.setWorld; cbn.
    repeat split; try apply Hc; try apply Hd; auto.
  - unfold stateWellFormed, App.setShowCertificate; cbn.
    repeat split; try apply Hc; try apply Hd; auto.
  - unfold App.handleRestart, stateWellFormed; cbn.
    split; [apply INITIAL_COMPONENTS_wellFormed|].
    split; [split; constructor|]. split; discriminate.
  - destruct (handleRudolphClick (UI.bezosClicks u)) as [egg clicks].
    cbn [UI.app]. destruct egg; [|exact H].
    unfold App.handleJeffBezosEasterEgg, stateWellFormed, App.addCommentary,
      App.setCommentary, App.setWorld; cbn.
    repeat split; try apply Hc; try apply Hd; auto.
Qed.

Lemma reachable_wellFormed (u : UI.State) :
  UI.reachable clock u -> stateWellFormed (UI.app u).
Proof.
  induction 1 as [|e s Hr IH Hoff].
  - apply initial_wellFormed.
  - unfold UI.step; cbn [UI.app].
    apply scoreEffect_wellFormed. now apply handle_wellFormed.
Qed.

End Reachable.

(** ** At most one dependency for each pair of the reference table *)

(** The entry of the reference table that [d] matches, if any. *)
Lemma existsb_find {A : Type} (f : A -> bool) (l : list A) :
  existsb f l = true -> exists a, find f l = Some a.
Proof.
  induction l as [|a l IH]; cbn; [discriminate|].
  destruct (f a); [now exists a | exact IH].
Qed.

Lemma ForallOrdPairs_filter {A : Type} (R : A -> A -> Prop) (f : A -> bool)
    (l : list A) :
  ForallOrdPairs R l -> ForallOrdPairs R (filter f l).
Proof.
  induction 1 as [|a l Ha Hl IH]; cbn; [constructor|].
  destruct (f a); [|exact IH].
  constructor; [|exact IH].
  apply Forall_forall. intros b Hb. apply filter_In in Hb as [Hb _].
  rewrite Forall_forall in Ha. now apply Ha.
Qed.

Lemma matching_same_entry (d e : Dependency) (from to : string) :
  (String.eqb (fromComponentId d) from && String.eqb (toComponentId d) to)
  || (String.eqb (fromComponentId d) to && String.eqb (toComponentId d) from)
  = true ->
  (String.eqb (fromComponentId e) from && String.eqb (toComponentId e) to)
  || (String.eqb (fromComponentId e) to && String.eqb (toComponentId e) from)
  = true ->
  samePair d e.
Proof.
  rewrite !orb_true_iff, !andb_true_iff, !String.eqb_eq. unfold samePair.
  intros [[-> ->]|[-> ->]] [[-> ->]|[-> ->]]; auto.
Qed.

Lemma keys_NoDup {K : Type} (key : Dependency -> option K)
    (l : list Dependency) :
  (forall d, In d l -> exists t, key d = Some t) ->
  (forall d e t, key d = Some t -> key e = Some t -> samePair d e) ->
  ForallOrdPairs (fun d e => ~ samePair d e) l ->
  NoDup (map key l).
Proof.
  intros Hkey Hsame. induction l as [|a l IH]; intros Hp; cbn; [constructor|].
  inversion Hp as [|? ? Ha Hl]; subst. constructor.
  - intros Hin. apply in_map_iff in Hin as (b & Eb & Hb).
    destruct (Hkey a (or_introl eq_refl)) as (t & Et).
    rewrite Forall_forall in Ha. apply (Ha b Hb).
    apply (Hsame a b t); congruence.
  - apply IH; [|exact Hl]. intros d Hd; apply Hkey; now right.
Qed.

Lemma correctCount_at_most_table (dependencies : list Dependency) :
  ForallOrdPairs (fun d e => ~ samePair d e) dependencies ->
  (correctCount dependencies <= 12)%nat.
Proof.
  intros Hp.
  set (entry := fun d : Dependency =>
         find (fun '(from, to) =>
                 (String.eqb (fromComponentId d) from
                  && String.eqb (toComponentId d) to)
                 || (String.eqb (fromComponentId d) to
                     && String.eqb (toComponentId d) from))
              CORRECT_DEPENDENCIES).
  set (correct := filter isCorrectDependency dependencies).
  assert (Hentry : forall d, In d correct ->
                     exists t, entry d = Some t /\ In t CORRECT_DEPENDENCIES).
  { intros d Hd. apply filter_In in Hd as [_ Hd].
    apply existsb_find in Hd as [t Ht]. exists t; split; [exact Ht|].
    now apply find_some in Ht as [Hin _]. }
  assert (Hnodup : NoDup (map entry correct)).
  { apply keys_NoDup.
    - intros d Hd. destruct (Hentry d Hd) as (t & Et & _). now exists t.
    - intros d e [from to] Hd He.
      apply find_some in Hd as [_ Hd]. apply find_some in He as [_ He].
      now apply (matching_same_entry d e from to).
    - now apply ForallOrdPairs_filter. }
  assert (Hincl : incl (map entry correct) (map Some CORRECT_DEPENDENCIES)).
  { intros k Hk. apply in_map_iff in Hk as (d & <- & Hd).
    destruct (Hentry d Hd) as (t & -> & Ht). now apply in_map. }
  pose proof (NoDup_incl_length Hnodup Hincl) as Hlen.
  rewrite !length_map in Hlen. exact Hlen.
Qed.

(** ** Properties of the states a user can bring about *)

Lemma filter_ext_in_eq {A : Type} (f g : A -> bool) (l : list A) :
  (forall a, In a l -> f a = g a) -> filter f l = filter g l.
Proof.
  induction l as [|a l IH]; intros H; cbn; [reflexivity|].
  rewrite (H a) by now left.
  rewrite IH by (intros b Hb; apply H; now right). reflexivity.
Qed.

Lemma forallb_ext_in {A : Type} (f g : A -> bool) (l : list A) :
  (forall a, In a l -> f a = g a) -> forallb f l = forallb g l.
Proof.
  induction l as [|a l IH]; intros H; cbn; [reflexivity|].
  rewrite (H a) by now left.
  rewrite IH by (intros b Hb; apply H; now right). reflexivity.
Qed.

Section ReachableStates.

Variable clock : nat -> Z.

(** X17: In every state a user can bring about, the components are the eleven
    of the game data with their targets untouched; a component is marked
    placed exactly when it has a position; its position lies in the 100 by
    100 space; and only placed components are classified. *)
Theorem reachable_components (u : UI.State) :
  UI.reachable clock u ->
  map target (App.components (UI.app u)) = map target INITIAL_COMPONENTS
  /\ forall c, In c (App.components (UI.app u)) ->
       (isPlaced c = true <-> position c <> None)
       /\ (forall p, position c = Some p ->
                     0 <= x p <= 100 /\ 0 <= y p <= 100)
       /\ (classification c <> None -> isPlaced c = true).
Proof.
  intros H. destruct (reachable_wellFormed clock u H) as ((Ht & Hf) & _).
  split; [exact Ht|]. rewrite Forall_forall in Hf. exact Hf.
Qed.

(** X18: In every state a user can bring about, no two dependencies join the
    same pair of components, in either direction, and every dependency joins
    two different components of the game. *)
Theorem reachable_dependencies (u : UI.State) :
  UI.reachable clock u ->
  ForallOrdPairs (fun d e => ~ samePair d e) (App.dependencies (UI.app u))
  /\ forall d, In d (App.dependencies (UI.app u)) ->
       fromComponentId d <> toComponentId d
       /\ isComponentId (fromComponentId d)
       /\ isComponentId (toComponentId d).
Proof.
  intros H. destruct (reachable_wellFormed clock u H) as (_ & (Hp & Hf) & _).
  split; [exact Hp|]. rewrite Forall_forall in Hf. exact Hf.
Qed.

(** X19: In every state a user can bring about, the second test of the position
    score, that a placed component has a position, never removes a
    component, and the completion bonus is 15 exactly when every component is
    classified. *)
Theorem reachable_placed_and_complete (u : UI.State) :
  UI.reachable clock u ->
  placedItems (App.components (UI.app u))
  = filter (fun c => isPlaced c) (App.components (UI.app u))
  /\ (calculateCompletionBonus (App.components (UI.app u)) = 15 <->
      forall c, In c (App.components (UI.app u)) -> classification c <> None).
Proof.
  intros H. destruct (reachable_wellFormed clock u H) as ((_ & Hf) & _).
  rewrite Forall_forall in Hf. split.
  - unfold placedItems. apply filter_ext_in_eq. intros c Hc.
    destruct (Hf c Hc) as (Hp & _). unfold isPlacedItem.
    destruct (isPlaced c) eqn:P; [|reflexivity].
    destruct (position c); [reflexivity|].
    now destruct (proj1 Hp eq_refl).
  - rewrite completionBonus_full_only. unfold allComplete. split.
    + intros Hall c Hc. now apply Hall.
    + intros Hall c Hc. split; [|now apply Hall].
      destruct (Hf c Hc) as (_ & _ & Hcl). apply Hcl. now apply Hall.
Qed.

(** X20: In every state a user can bring about, at most 12 of the dependencies
    are in the reference table, and the dependency score is its full 25 only
    when exactly 12 dependencies are declared, all of them in the table. *)
Theorem reachable_dependency_score (u : UI.State) :
  UI.reachable clock u ->
  (correctCount (App.dependencies (UI.app u)) <= 12)%nat
  /\ (calculateDependencyScore (App.dependencies (UI.app u)) = 25 ->
      List.length (App.dependencies (UI.app u)) = 12%nat
      /\ forall d, In d (App.dependencies (UI.app u)) -> matchesReferenceTable d).
Proof.
  intros H. destruct (reachable_wellFormed clock u H) as (_ & (Hp & _) & _).
  pose proof (correctCount_at_most_table _ Hp) as Hc.
  pose proof (correctCount_le (App.dependencies (UI.app u))) as Hle.
  split; [exact Hc|].
  rewrite dependencyScore_full_counts. intros E.
  assert (Hn : List.length (App.dependencies (UI.app u)) = 12%nat) by lia.
  split; [exact Hn|]. apply correctCount_all_iff. lia.
Qed.

End ReachableStates.

(** ** An instance: the example session *)

Lemma offered_ComponentClick (clock : nat -> Z) (u : UI.State)
    (componentId : string) :
  UI.reachable clock u -> isComponentId componentId ->
  UI.offered (UI.ComponentClick componentId) u.
Proof.
  intros H Hid. destruct (reachable_wellFormed clock u H) as (Hc & _).
  unfold isComponentId in Hid.
  rewrite <- (componentsWellFormed_ids _ Hc) in Hid.
  apply in_map_iff in Hid as (c & Ec & Hin).
  exists c. split; [exact Hin|]. split; [exact Ec|].
  destruct Hc as [_ Hf]. rewrite Forall_forall in Hf.
  destruct (Hf c Hin) as (Hp & _). unfold UI.shown.
  destruct (isPlaced c) eqn:P; [|reflexivity].
  destruct (position c); [reflexivity|]. now destruct (proj1 Hp eq_refl).
Qed.

Lemma exampleSession_reachable : UI.reachable exampleClock exampleSession.
Proof.
  unfold exampleSession.
  assert (H1 : UI.reachable exampleClock
                 (UI.step exampleClock
                    (UI.Drop "cloud-compute" 850 150 exampleRect)
                    (UI.initial exampleClock))).
  { apply UI.reachable_step; [apply UI.reachable_initial|]. cbn; lra. }
  assert (H2 : UI.reachable exampleClock
                 (UI.step exampleClock (UI.ComponentClick "cloud-compute")
                    (UI.step exampleClock
                       (UI.Drop "cloud-compute" 850 150 exampleRect)
                       (UI.initial exampleClock)))).
  { apply UI.reachable_step; [exact H1|].
    apply (offered_ComponentClick exampleClock); [exact H1|].
    unfold isComponentId; cbn; auto 12. }
  apply UI.reachable_step.
  - apply UI.reachable_step; [exact H2 | exact I].
  - apply (offered_ComponentClick exampleClock).
    + apply UI.reachable_step; [exact H2 | exact I].
    + unfold isComponentId; cbn; auto 12.
Qed.

Lemma reachable_components_witness :
  map target (App.components (UI.app exampleSession))
  = map target INITIAL_COMPONENTS
  /\ forall c, In c (App.components (UI.app exampleSession)) ->
       (isPlaced c = true <-> position c <> None)
       /\ (forall p, position c = Some p ->
                     0 <= x p <= 100 /\ 0 <= y p <= 100)
       /\ (classification c <> None -> isPlaced c = true).
Proof.
  exact (reachable_components exampleClock exampleSession
           exampleSession_reachable).
Defined.

Lemma reachable_dependencies_witness :
  ForallOrdPairs (fun d e => ~ samePair d e)
                 (App.dependencies (UI.app exampleSession))
  /\ forall d, In d (App.dependencies (UI.app exampleSession)) ->
       fromComponentId d <> toComponentId d
       /\ isComponentId (fromComponentId d)
       /\ isComponentId (toComponentId d).
Proof.
  exact (reachable_dependencies exampleClock exampleSession
           exampleSession_reachable).
Defined.

Lemma reachable_placed_and_complete_witness :
  placedItems (App.components (UI.app exampleSession))
  = filter (fun c => isPlaced c) (App.components (UI.app exampleSession))
  /\ (calculateCompletionBonus (App.components (UI.app exampleSession)) = 15 <->
      forall c, In c (App.components (UI.app exampleSession)) ->
                classification c <> None).
Proof.
  exact (reachable_placed_and_complete exampleClock exampleSession
           exampleSession_reachable).
Defined.

Lemma reachable_dependency_score_witness :
  (correctCount (App.dependencies (UI.app exampleSession)) <= 12)%nat
  /\ (calculateDependencyScore (App.dependencies (UI.app exampleSession)) = 25 ->
      List.length (App.dependencies (UI.app exampleSession)) = 12%nat
      /\ forall d, In d (App.dependencies (UI.app exampleSession)) ->
                   matchesReferenceTable d).
Proof.
  exact (reachable_dependency_score exampleClock exampleSession
           exampleSession_reachable).
Defined.

(** ** Gestures on the canvas *)

Section Gestures.

Variable clock : nat -> Z.

Lemma step_keeps (e : UI.Event) (u : UI.State) :
  App.components (UI.app (UI.step clock e u))
  = App.components (UI.app (UI.handle clock e u))
  /\ App.dependencies (UI.app (UI.step clock e u))
     = App.dependencies (UI.app (UI.handle clock e u))
  /\ App.selectedComponentId (UI.app (UI.step clock e u))
     = App.selectedComponentId (UI.app (UI.handle clock e u))
  /\ App.pendingDependencyFromId (UI.app (UI.step clock e u))
     = App.pendingDependencyFromId (UI.app (UI.handle clock e u))
  /\ App.showCertificate (UI.app (UI.step clock e u))
     = App.showCertificate (UI.app (UI.handle clock e u)).
Proof. unfold UI.step. cbn [UI.app]. apply scoreEffect_keeps. Qed.

Lemma createDependencyButton_selected (a : string) (s : App.State) :
  App.selectedComponentId s = Some a -> a <> "" ->
  App.createDependencyButton s = App.setPendingDependencyFromId (Some a) s.
Proof.
  intros E Ha. unfold App.createDependencyButton, App.truthy. rewrite E.
  apply String.eqb_neq in Ha. rewrite Ha. reflexivity.
Qed.

Lemma handleComponentClick_pending (a b : string) (s : App.State) :
  App.pendingDependencyFromId s = Some a -> a <> "" ->
  App.handleComponentClick clock b s
  = App.setSelectedComponentId None
      (App.setPendingDependencyFromId None
         (if String.eqb a b then s
          else App.handleDependencyCreate clock a b s)).
Proof.
  intros E Ha. unfold App.handleComponentClick, App.truthy. rewrite E.
  apply String.eqb_neq in Ha. rewrite Ha. cbn [negb].
  unfold App.handleComponentSelect, App.handlePendingDependencySet.
  destruct (String.eqb a b); reflexivity.
Qed.

(** X21: With a component selected, pressing "Create Dependency" and then
    clicking a component ends the gesture with nothing selected and nothing
    pending, leaves the components as they were, and adds the dependency from
    the selected component to the clicked one at the end of the list, unless
    the clicked component is the selected one or a dependency joins the two
    already, in either direction; then the dependencies stay as they were. *)
Theorem connect_gesture (a b : string) (u : UI.State) :
  App.selectedComponentId (UI.app u) = Some a -> a <> "" ->
  let u' := UI.step clock (UI.ComponentClick b)
              (UI.step clock UI.CreateDependencyButton u) in
  App.selectedComponentId (UI.app u') = None
  /\ App.pendingDependencyFromId (UI.app u') = None
  /\ App.components (UI.app u') = App.components (UI.app u)
  /\ if String.eqb a b || existsb (joins a b) (App.dependencies (UI.app u))
     then App.dependencies (UI.app u') = App.dependencies (UI.app u)
     else exists newId,
            App.dependencies (UI.app u')
            = App.dependencies (UI.app u) ++ [mkDependency newId a b].
Proof.
  intros Hsel Ha u'. subst u'.
  destruct (step_keeps UI.CreateDependencyButton u) as (C1 & D1 & _ & P1 & _).
  revert C1 D1 P1.
  generalize (UI.step clock UI.CreateDependencyButton u).
  intros u1 C1 D1 P1.
  cbn [UI.handle UI.app] in C1, D1, P1.
  rewrite (createDependencyButton_selected a _ Hsel Ha) in C1, D1, P1.
  cbn in C1, D1, P1.
  destruct (step_keeps (UI.ComponentClick b) u1) as (C2 & D2 & S2 & P2 & _).
  cbn [UI.handle UI.app] in C2, D2, S2, P2.
  rewrite (handleComponentClick_pending a b _ P1 Ha) in C2, D2, S2, P2.
  rewrite C2, D2, S2, P2. clear C2 D2 S2 P2.
  unfold App.setSelectedComponentId, App.setPendingDependencyFromId.
  cbn [App.selectedComponentId App.pendingDependencyFromId App.components
       App.dependencies].
  split; [reflexivity|]. split; [reflexivity|].
  destruct (String.eqb a b) eqn:Eab.
  - cbn [orb]. split; assumption.
  - cbn [orb].
    destruct (handleDependencyCreate_dependencies clock a b (UI.app u1))
      as (C3 & _ & _ & D3).
    split; [congruence|].
    rewrite D1 in D3. change (existsb _ (App.dependencies (UI.app u)))
      with (existsb (joins a b) (App.dependencies (UI.app u))) in D3.
    destruct D3 as [[E ->]|[E (newId & ->)]]; rewrite E.
    + reflexivity.
    + exists newId. reflexivity.
Qed.




End Gestures.


(** ** The position score in play *)

Lemma Rsum_at_least (l : list R) (lo : R) :
  (forall r, In r l -> lo <= r) -> INR (List.length l) * lo <= Rsum l.
Proof.
  induction l as [|a l IH]; intros H.
  - cbn; lra.
  - assert (Ha : lo <= a) by (apply H; now left).
    assert (Hl : INR (List.length l) * lo <= Rsum l)
      by (apply IH; intros r Hr; apply H; now right).
    change (List.length (a :: l)) with (S (List.length l)).
    rewrite S_INR. cbn [Rsum]. lra.
Qed.

(** No point of the 100 by 100 space is more than 125 away from a correct
    position of the game data. *)
Lemma target_within_reach (p q : Position) :
  In q (map correctPosition INITIAL_COMPONENTS) ->
  0 <= x p <= 100 -> 0 <= y p <= 100 ->
  calculateDistance p q <= 125.
Proof.
  intros Hq Hx Hy. unfold calculateDistance. cbv zeta.
  rewrite <- (sqrt_square 125) by lra. apply sqrt_le_1_alt.
  cbn [map INITIAL_COMPONENTS initialComponent correctPosition In] in Hq.
  repeat (destruct Hq as [<-|Hq]; [cbn [x y]; nra|]). destruct Hq.
Qed.

Lemma componentsWellFormed_targets (l : list MapComponent) (c : MapComponent) :
  componentsWellFormed l -> In c l ->
  In (correctPosition c) (map correctPosition INITIAL_COMPONENTS).
Proof.
  intros [Ht _] Hc.
  assert (E : forall k, map correctPosition k = map snd (map target k)).
  { intros k. rewrite map_map. reflexivity. }
  rewrite E, <- Ht, <- E. now apply in_map.
Qed.

Lemma itemPositionValue_within_reach (c : MapComponent) (p : Position) :
  position c = Some p ->
  calculateDistance p (correctPosition c) <= 125 ->
  1 <= itemPositionValue 141 c.
Proof.
  intros P H. unfold itemPositionValue; rewrite P.
  set (d := calculateDistance p (correctPosition c)) in *.
  assert (Hd : 0 <= d) by apply calculateDistance_nonneg.
  pose proof (normalizedDistance_bounds d Hd) as Hn.
  assert (Hl : Rmin (d / 141) 1 <= d / 141) by apply Rmin_l.
  assert (Hm : Rmin (d / 141) 1 <= 125 / 141) by lra.
  assert (Hs : 16 / 141 <= 1 - Rmin (d / 141) 1) by lra.
  assert (Hq : 16 / 141 * (16 / 141) <= (1 - Rmin (d / 141) 1) ^ 2) by nra.
  lra.
Qed.

Section ReachablePositions.

Variable clock : nat -> Z.

(** X3: In every state a user can bring about, a component that has a
    position is at most 125 away from its correct position, so that the cap
    of the normalised distance, at 141, is never reached; and as soon as one
    component is placed the position score is at least 3/10, and never 0. *)
Theorem reachable_position_score (u : UI.State) :
  UI.reachable clock u ->
  (forall c p, In c (App.components (UI.app u)) -> position c = Some p ->
               calculateDistance p (correctPosition c) <= 125)
  /\ ((exists c, In c (App.components (UI.app u)) /\ isPlaced c = true) ->
      3 / 10 <= calculatePositionScore (App.components (UI.app u)) <= 30).
Proof.
  intros H. destruct (reachable_wellFormed clock u H) as (Hw & _).
  assert (Hf : forall c, In c (App.components (UI.app u)) ->
                         componentWellFormed c).
  { destruct Hw as [_ Hf]. now rewrite Forall_forall in Hf. }
  assert (Hreach : forall c p, In c (App.components (UI.app u)) ->
                     position c = Some p ->
                     calculateDistance p (correctPosition c) <= 125).
  { intros c p Hc P. destruct (Hf c Hc) as (_ & Hb & _).
    destruct (Hb p P) as [Hx Hy].
    apply target_within_reach; [|exact Hx|exact Hy].
    now apply (componentsWellFormed_targets (App.components (UI.app u))). }
  split; [exact Hreach|].
  intros (c & Hc & Hp).
  split; [|apply calculatePositionScore_bounds].
  rewrite calculatePositionScore_formula. unfold positionScoreFormula.
  assert (Hin : In c (placedItems (App.components (UI.app u)))).
  { unfold placedItems. apply filter_In. split; [exact Hc|].
    unfold isPlacedItem. rewrite Hp. cbn [andb].
    destruct (Hf c Hc) as (Hq & _).
    destruct (position c); [reflexivity|]. now destruct (proj1 Hq Hp). }
  destruct (placedItems (App.components (UI.app u))) as [|c0 l0] eqn:E;
    [destruct Hin|].
  rewrite <- E. clear Hin.
  set (placed := placedItems (App.components (UI.app u))) in *.
  assert (Hlen : 0 < INR (List.length placed))
    by (rewrite E; apply lt_0_INR; cbn; lia).
  assert (Hs : INR (List.length (map (itemPositionValue 141) placed)) * 1
               <= Rsum (map (itemPositionValue 141) placed)).
  { apply Rsum_at_least. intros r Hr.
    apply in_map_iff in Hr as (d & <- & Hd).
    destruct (placedItems_position _ _ Hd) as (Hd1 & _ & p & P).
    apply (itemPositionValue_within_reach d p P). now apply Hreach. }
  rewrite length_map in Hs.
  set (n := INR (List.length placed)) in *.
  set (s := Rsum (map (itemPositionValue 141) placed)) in *.
  assert (Hq : 1 <= s / n).
  { apply Rmult_le_reg_r with (r := n); [exact Hlen|].
    replace (s / n * n) with s by (field; lra). lra. }
  lra.
Qed.

End ReachablePositions.

(** The cloud dropped in the lower left of the canvas of the example, away
    from its correct position: it is within reach, and it scores. *)
Lemma reachable_position_score_witness :
  let u := UI.step exampleClock (UI.Drop "cloud-compute" 200 450 exampleRect)
             (UI.initial exampleClock) in
  (forall c p, In c (App.components (UI.app u)) -> position c = Some p ->
               calculateDistance p (correctPosition c) <= 125)
  /\ 3 / 10 <= calculatePositionScore (App.components (UI.app u)) <= 30.
Proof.
  intros u.
  assert (Hr : UI.reachable exampleClock u).
  { apply UI.reachable_step; [apply UI.reachable_initial|]. cbn; lra. }
  destruct (reachable_position_score exampleClock u Hr) as [Hd Hs].
  split; [exact Hd|]. apply Hs.
  destruct (step_keeps exampleClock
              (UI.Drop "cloud-compute" 200 450 exampleRect)
              (UI.initial exampleClock)) as (Ec & _).
  fold u in Ec. rewrite Ec. cbn [UI.handle UI.app]. unfold App.handleDrop.
  change (String.eqb "cloud-compute" "") with false. cbv zeta iota.
  match goal with
  | |- context [App.handleComponentPlace ?c ?i ?p ?s] =>
      destruct (handleComponentPlace_components c i p s) as (-> & _);
      exists (App.withPosition p
                (initialComponent "cloud-compute" "Cloud Compute and Storage"
                   "Infrastructure as a service" commodity buy 85 25))
  end.
  split; [|reflexivity].
  cbn. auto 12.
Defined.

(** ** Milestones of the score *)

Lemma fresh_game_score : calculateTotalScore INITIAL_COMPONENTS [] = 0%Z.
Proof.
  unfold calculateTotalScore.
  change (calculatePositionScore INITIAL_COMPONENTS) with 0.
  change (calculateClassificationScore INITIAL_COMPONENTS) with 0.
  change (calculateDependencyScore []) with 0.
  assert (E : calculateCompletionBonus INITIAL_COMPONENTS = 0).
  { unfold calculateCompletionBonus.
    change (forallb (fun c => isPlaced c) INITIAL_COMPONENTS) with false.
    change (filter (fun c => isPlaced c) INITIAL_COMPONENTS)
      with (@nil MapComponent).
    change (filter (fun c => isSome (classification c)) INITIAL_COMPONENTS)
      with (@nil MapComponent).
    cbn [andb List.length INR completionBonus WEIGHTS].
    unfold Rdiv. rewrite !Rmult_0_l. lra. }
  cbv zeta. rewrite E.
  replace (0 + 0 + 0 + 0) with (IZR 0) by lra. apply Math_round_IZR.
Qed.

Lemma createCommentary_made (t : string) (type : CommentaryType) (clock : nat -> Z)
    (w : World) :
  text (fst (createCommentary clock t type w)) = t
  /\ commentaryType (fst (createCommentary clock t type w)) = type.
Proof. split; reflexivity. Qed.

Section Milestones.

Variable clock : nat -> Z.

Lemma score_in_range (s : App.State) : (0 <= App.score s <= 100)%Z.
Proof.
  unfold App.score, calculateTotalScore. apply Math_round_bounds.
  pose proof (calculatePositionScore_bounds (App.components s)).
  pose proof (calculateClassificationScore_bounds (App.components s)).
  pose proof (calculateDependencyScore_bounds (App.dependencies s)).
  pose proof (calculateCompletionBonus_bounds (App.components s)).
  lra.
Qed.

Lemma isMilestone_iff (score : Z) :
  (0 <= score <= 100)%Z ->
  isMilestone score = (Z.rem score 25 =? 0)%Z && (0 <? score)%Z.
Proof.
  intros H. unfold isMilestone. cbn [existsb]. rewrite orb_false_r.
  rewrite Z.rem_mod_nonneg by lia.
  destruct (Z.eqb_spec score 25) as [->|H25]; [reflexivity|].
  destruct (Z.eqb_spec score 50) as [->|H50]; [reflexivity|].
  destruct (Z.eqb_spec score 75) as [->|H75]; [reflexivity|].
  destruct (Z.eqb_spec score 100) as [->|H100]; [reflexivity|].
  cbn [orb]. symmetry. apply andb_false_iff.
  destruct (Z.eqb_spec (score mod 25) 0) as [E|E]; [|now left].
  right. apply Z.ltb_ge.
  apply Z.mod_divide in E; [|lia]. destruct E as [k E]. lia.
Qed.

Lemma getScoreMilestoneCommentary_milestone (score : Z) (w : World) :
  isMilestone score = true ->
  exists k,
    fst (getScoreMilestoneCommentary clock score w) = Some k
    /\ commentaryType k = if (75 <=? score)%Z then praise else hint.
Proof.
  unfold isMilestone. cbn [existsb]. rewrite orb_false_r.
  intros H. repeat (apply orb_prop in H as [H|H]);
    apply Z.eqb_eq in H; subst score; eexists; split; reflexivity.
Qed.

(** The score effect: it records the score, leaves the score as it is, and
    adds one commentary exactly when the score is above the recorded one and
    is 25, 50, 75 or 100; the commentary is a praise at 75 and 100 and a hint
    at 25 and 50. *)
Lemma scoreEffect_commentary (s : App.State) :
  App.lastScore (App.scoreEffect clock s) = App.score s
  /\ App.score (App.scoreEffect clock s) = App.score s
  /\ if (App.lastScore s <? App.score s)%Z && isMilestone (App.score s)
     then exists k,
            App.commentary (App.scoreEffect clock s) = App.commentary s ++ [k]
            /\ commentaryType k
               = if (75 <=? App.score s)%Z then praise else hint
     else App.commentary (App.scoreEffect clock s) = App.commentary s.
Proof.
  split; [|split].
  - unfold App.scoreEffect. cbv zeta. unfold App.setLastScore. reflexivity.
  - destruct (scoreEffect_keeps clock s) as (C & D & _).
    unfold App.score. now rewrite C, D.
  - rewrite (isMilestone_iff _ (score_in_range s)), andb_assoc.
    unfold App.scoreEffect. cbv zeta.
    destruct ((App.lastScore s <? App.score s)%Z
              && (Z.rem (App.score s) 25 =? 0)%Z && (0 <? App.score s)%Z)
      eqn:E; [|reflexivity].
    rewrite <- andb_assoc, <- (isMilestone_iff _ (score_in_range s)) in E.
    apply andb_prop in E as [_ E].
    destruct (getScoreMilestoneCommentary_milestone (App.score s) (App.world s) E)
      as (k & Ek & Tk).
    exists k. split; [|exact Tk].
    unfold App.addReturned. rewrite Ek. reflexivity.
Qed.

Lemma handleDependencyCreate_lastScore (fromId toId : string) (s : App.State) :
  App.lastScore (App.handleDependencyCreate clock fromId toId s)
  = App.lastScore s.
Proof.
  unfold App.handleDependencyCreate. cbv zeta.
  destruct (existsb _ (App.dependencies s)); [reflexivity|].
  unfold dateNow.
  destruct (find (fun c => String.eqb (id c) fromId) (App.components s));
    destruct (find (fun c => String.eqb (id c) toId) (App.components s));
    try match goal with
        | |- context [App.addReturned ?r ?t] =>
            destruct (addReturned_keeps r t) as (_ & _ & _ & _ & _ & ->)
        end;
    reflexivity.
Qed.

(** Every event but a restart leaves the recorded score to the effect. *)
Lemma handle_lastScore (e : UI.Event) (u : UI.State) :
  e <> UI.RestartButton ->
  App.lastScore (UI.app (UI.handle clock e u)) = App.lastScore (UI.app u).
Proof.
  intros He. destruct e as
    [componentId clientX clientY rect | componentId chosen | componentId
     | onCanvas | | | | | ];
    cbn [UI.handle UI.app]; try reflexivity.
  - unfold App.handleDrop.
    destruct (String.eqb componentId ""); [reflexivity|]. cbv zeta.
    unfold App.handleComponentPlace.
    destruct (find _ (App.components (UI.app u))); [|reflexivity].
    cbv zeta.
    match goal with
    | |- context [App.addReturned ?r ?t] =>
        destruct (addReturned_keeps r t) as (_ & _ & _ & _ & _ & ->)
    end.
    reflexivity.
  - unfold App.handleClassificationChange.
    destruct (find _ (App.components (UI.app u))); [|reflexivity].
    cbv zeta.
    match goal with
    | |- context [App.addReturned ?r ?t] =>
        destruct (addReturned_keeps r t) as (_ & _ & _ & _ & _ & ->)
    end.
    reflexivity.
  - unfold App.handleComponentClick.
    destruct (App.truthy (App.pendingDependencyFromId (UI.app u)));
      [|reflexivity].
    destruct (App.pendingDependencyFromId (UI.app u)) as [pending|];
      [|reflexivity].
    destruct (negb (String.eqb pending componentId)); [|reflexivity].
    cbn. apply handleDependencyCreate_lastScore.
  - unfold App.handleCanvasClick. destruct onCanvas; reflexivity.
  - unfold App.createDependencyButton.
    destruct (App.truthy (App.selectedComponentId (UI.app u))); reflexivity.
  - contradiction.
  - destruct (handleRudolphClick (UI.bezosClicks u)) as [[|] clicks];
      reflexivity.
Qed.

Lemma reachable_lastScore (u : UI.State) :
  UI.reachable clock u ->
  App.lastScore (UI.app u) = App.score (UI.app u).
Proof.
  induction 1 as [|e s _ _ _].
  - cbn [UI.initial UI.app]. unfold App.initial, App.score.
    cbn [App.lastScore App.components App.dependencies].
    symmetry. exact fresh_game_score.
  - unfold UI.step. cbn [UI.app].
    destruct (scoreEffect_commentary (UI.app (UI.handle clock e s)))
      as (-> & -> & _).
    reflexivity.
Qed.

(** X23: From a state a user can bring about, an event is followed by a
    milestone commentary exactly when it raises the score to 25, 50, 75 or
    100: the commentary comes after what the handler of the event added, and
    it is a praise at 75 and 100 and a hint at 25 and 50. *)
Theorem step_milestone (e : UI.Event) (u : UI.State) :
  UI.reachable clock u ->
  let handled := UI.app (UI.handle clock e u) in
  let after := UI.app (UI.step clock e u) in
  App.score after = App.score handled
  /\ if (App.score (UI.app u) <? App.score handled)%Z
        && isMilestone (App.score handled)
     then exists k,
            App.commentary after = App.commentary handled ++ [k]
            /\ commentaryType k
               = if (75 <=? App.score handled)%Z then praise else hint
     else App.commentary after = App.commentary handled.
Proof.
  intros Hr handled after. subst handled after.
  unfold UI.step. cbn [UI.app].
  destruct (scoreEffect_commentary (UI.app (UI.handle clock e u)))
    as (_ & Es & Hc).
  split; [exact Es|].
  assert (Hd : e = UI.RestartButton \/ e <> UI.RestartButton)
    by (destruct e; (now left) || (right; discriminate)).
  destruct Hd as [->|He].
  - (* the restarted game scores 0 *)
    assert (E0 : App.score (UI.app (UI.handle clock UI.RestartButton u)) = 0%Z)
      by exact fresh_game_score.
    rewrite E0 in *.
    pose proof (score_in_range (UI.app u)) as Hu.
    replace (App.score (UI.app u) <? 0)%Z with false
      by (symmetry; apply Z.ltb_ge; lia).
    cbn [andb]. rewrite andb_false_r in Hc. exact Hc.
  - rewrite (handle_lastScore e u He), (reachable_lastScore u Hr) in Hc.
    exact Hc.
Qed.

End Milestones.

(** ** What Rudolph says *)

Lemma find_ext_eq {A : Type} (f g : A -> bool) (l : list A) :
  (forall a, f a = g a) -> find f l = find g l.
Proof.
  intros H. induction l as [|a l IH]; [reflexivity|].
  cbn [find]. rewrite H, IH. reflexivity.
Qed.

Lemma logicalPairs_in_table (from to message : string) :
  In (from, to, message) logicalPairs -> In (from, to) CORRECT_DEPENDENCIES.
Proof.
  unfold logicalPairs.
  intros [E|[E|[E|[E|[]]]]]; injection E as <- <- _; cbn; auto 13.
Qed.

Section Remarks.

Variable clock : nat -> Z.

(** X24: A remark on a dependency is a praise, is made for the reversed
    dependency as well, and is made only for a dependency that the scoring
    counts as correct. *)
Theorem getDependencyCommentary_praise (fromComponent toComponent : MapComponent)
    (w : World) (k : Commentary) (newId : string) :
  fst (getDependencyCommentary clock fromComponent toComponent w) = Some k ->
  commentaryType k = praise
  /\ getDependencyCommentary clock toComponent fromComponent w
     = getDependencyCommentary clock fromComponent toComponent w
  /\ isCorrectDependency
       (mkDependency newId (id fromComponent) (id toComponent)) = true.
Proof.
  intros H. split; [|split].
  - unfold getDependencyCommentary in H. cbv zeta in H.
    destruct (find _ logicalPairs) as [[[from to] message]|];
      [|discriminate H].
    injection H as <-. reflexivity.
  - unfold getDependencyCommentary. cbv zeta.
    rewrite (find_ext_eq
               (fun '(from, to, _) =>
                  (String.eqb from (id toComponent)
                   && String.eqb to (id fromComponent))
                  || (String.eqb from (id fromComponent)
                      && String.eqb to (id toComponent)))
               (fun '(from, to, _) =>
                  (String.eqb from (id fromComponent)
                   && String.eqb to (id toComponent))
                  || (String.eqb from (id toComponent)
                      && String.eqb to (id fromComponent)))).
    + reflexivity.
    + intros [[from to] message]. apply orb_comm.
  - unfold getDependencyCommentary in H. cbv zeta in H.
    destruct (find _ logicalPairs) as [[[from to] message]|] eqn:F;
      [|discriminate H].
    apply find_some in F as [Hin Hm].
    apply logicalPairs_in_table in Hin.
    apply isCorrectDependency_iff. exists from, to. split; [exact Hin|].
    cbn [fromComponentId toComponentId].
    apply orb_true_iff in Hm as [Hm|Hm]; apply andb_true_iff in Hm as [H1 H2];
      apply String.eqb_eq in H1, H2; auto.
Qed.

(** A remark on a classification: a praise exactly when the scoring counts
    the classification as correct, a correction when build was chosen for a
    component to buy or buy for a component to build, and nothing
    otherwise. *)
Theorem getClassificationCommentary_kind (component : MapComponent)
    (chosen : Classification) (w : World) :
  option_map commentaryType
    (fst (getClassificationCommentary clock component (Some chosen) w))
  = if isClassificationCorrect
         (App.withClassification (Some chosen) component)
    then Some praise
    else match chosen, correctClassification component with
         | build, Some buy | buy, Some build => Some correction
         | _, _ => None
         end.
Proof.
  unfold getClassificationCommentary, isClassificationCorrect. cbv zeta.
  cbn [App.withClassification classification correctClassification].
  destruct chosen; destruct (correctClassification component) as [[| |]|];
    reflexivity.
Qed.

End Remarks.

Lemma getDependencyCommentary_praise_witness :
  let cloud :=
    initialComponent "cloud-compute" "Cloud Compute and Storage"
      "Infrastructure as a service" commodity buy 85 25 in
  let network :=
    initialComponent "network-comms" "Network & Communications"
      "Basic networking infrastructure" commodity buy 90 15 in
  let k := fst (createCommentary exampleClock
                  "Right! Cloud needs the network layer!" praise (mkWorld 0 0)) in
  commentaryType k = praise
  /\ getDependencyCommentary exampleClock cloud network (mkWorld 0 0)
     = getDependencyCommentary exampleClock network cloud (mkWorld 0 0)
  /\ isCorrectDependency (mkDependency "dep-1" (id network) (id cloud)) = true.
Proof.
  intros cloud network k.
  exact (getDependencyCommentary_praise exampleClock network cloud
           (mkWorld 0 0) k "dep-1" eq_refl).
Defined.

(** ** The certificate and the mascot *)

Section Certificate.

Variable clock : nat -> Z.

Lemma handleComponentPlace_showCertificate (componentId : string)
    (p : Position) (s : App.State) :
  App.showCertificate (App.handleComponentPlace clock componentId p s)
  = App.showCertificate s.
Proof.
  unfold App.handleComponentPlace.
  destruct (find _ (App.components s)); [|reflexivity]. cbv zeta.
  match goal with
  | |- context [App.addReturned ?r ?t] =>
      destruct (addReturned_keeps r t) as (_ & _ & _ & _ & -> & _)
  end.
  reflexivity.
Qed.

Lemma handleClassificationChange_showCertificate (componentId : string)
    (k : ComponentClassification) (s : App.State) :
  App.showCertificate (App.handleClassificationChange clock componentId k s)
  = App.showCertificate s.
Proof.
  unfold App.handleClassificationChange.
  destruct (find _ (App.components s)); [|reflexivity]. cbv zeta.
  match goal with
  | |- context [App.addReturned ?r ?t] =>
      destruct (addReturned_keeps r t) as (_ & _ & _ & _ & -> & _)
  end.
  reflexivity.
Qed.

Lemma handleDependencyCreate_showCertificate (fromId toId : string)
    (s : App.State) :
  App.showCertificate (App.handleDependencyCreate clock fromId toId s)
  = App.showCertificate s.
Proof.
  unfold App.handleDependencyCreate. cbv zeta.
  destruct (existsb _ (App.dependencies s)); [reflexivity|].
  unfold dateNow.
  destruct (find (fun c => String.eqb (id c) fromId) (App.components s));
    destruct (find (fun c => String.eqb (id c) toId) (App.components s));
    try match goal with
        | |- context [App.addReturned ?r ?t] =>
            destruct (addReturned_keeps r t) as (_ & _ & _ & _ & -> & _)
        end;
    reflexivity.
Qed.

Lemma handleComponentClick_keeps (componentId : string) (s : App.State) :
  App.components (App.handleComponentClick clock componentId s)
  = App.components s
  /\ App.showCertificate (App.handleComponentClick clock componentId s)
     = App.showCertificate s.
Proof.
  unfold App.handleComponentClick.
  destruct (App.truthy (App.pendingDependencyFromId s));
    [|split; reflexivity].
  destruct (App.pendingDependencyFromId s) as [pending|];
    [|split; reflexivity].
  destruct (negb (String.eqb pending componentId)); [|split; reflexivity].
  cbn. split.
  - apply handleDependencyCreate_dependencies.
  - apply handleDependencyCreate_showCertificate.
Qed.

Lemma allPlaced_withPosition (componentId : string) (p : Position)
    (l : list MapComponent) :
  forallb (fun c => isPlaced c) l = true ->
  forallb (fun c => isPlaced c)
          (map (fun c => if String.eqb (id c) componentId
                         then App.withPosition p c else c) l) = true.
Proof.
  induction l as [|c l IH]; [reflexivity|].
  cbn [forallb map]. intros H. apply andb_prop in H as [Hc Hl].
  rewrite (IH Hl), andb_true_r.
  destruct (String.eqb (id c) componentId); [reflexivity | exact Hc].
Qed.

Lemma allPlaced_withClassification (componentId : string)
    (k : ComponentClassification) (l : list MapComponent) :
  forallb (fun c => isPlaced c) l = true ->
  forallb (fun c => isPlaced c)
          (map (fun c => if String.eqb (id c) componentId
                         then App.withClassification k c else c) l) = true.
Proof.
  induction l as [|c l IH]; [reflexivity|].
  cbn [forallb map]. intros H. apply andb_prop in H as [Hc Hl].
  rewrite (IH Hl), andb_true_r.
  destruct (String.eqb (id c) componentId); exact Hc.
Qed.

Lemma handle_certificate (e : UI.Event) (u : UI.State) :
  UI.offered e u ->
  (App.showCertificate (UI.app u) = true ->
   App.allComponentsPlaced (UI.app u) = true) ->
  App.showCertificate (UI.app (UI.handle clock e u)) = true ->
  App.allComponentsPlaced (UI.app (UI.handle clock e u)) = true.
Proof.
  intros Ho J. unfold App.allComponentsPlaced in *.
  destruct e as
    [componentId clientX clientY rect | componentId chosen | componentId
     | onCanvas | | | | | ];
    cbn [UI.handle UI.app].
  - unfold App.handleDrop.
    destruct (String.eqb componentId ""); [exact J|]. cbv zeta.
    rewrite handleComponentPlace_showCertificate.
    match goal with
    | |- context [App.handleComponentPlace clock componentId ?p ?s] =>
        destruct (handleComponentPlace_components clock componentId p s)
          as (-> & _)
    end.
    intros H. destruct (existsb _ _); [|now apply J].
    apply allPlaced_withPosition. now apply J.
  - rewrite handleClassificationChange_showCertificate.
    destruct (handleClassificationChange_components clock componentId
                (Some chosen) (UI.app u)) as (-> & _).
    intros H. destruct (existsb _ _); [|now apply J].
    apply allPlaced_withClassification. now apply J.
  - destruct (handleComponentClick_keeps componentId (UI.app u)) as (-> & ->).
    exact J.
  - unfold App.handleCanvasClick. destruct onCanvas; exact J.
  - unfold App.createDependencyButton.
    destruct (App.truthy (App.selectedComponentId (UI.app u))); exact J.
  - intros _. exact Ho.
  - discriminate.
  - discriminate.
  - destruct (handleRudolphClick (UI.bezosClicks u)) as [[|] clicks];
      exact J.
Qed.

(** X25: The certificate shows only over a complete map: in every state a user
    can bring about in which the certificate is shown, every component is
    placed and has a position. *)
Theorem reachable_certificate (u : UI.State) (c : MapComponent) :
  UI.reachable clock u ->
  App.showCertificate (UI.app u) = true ->
  In c (App.components (UI.app u)) ->
  isPlaced c = true /\ position c <> None.
Proof.
  intros Hr Hs Hc.
  assert (J : App.showCertificate (UI.app u) = true ->
              App.allComponentsPlaced (UI.app u) = true).
  { clear Hs Hc. induction Hr as [|e s Hr IH Ho]; [discriminate|].
    unfold UI.step. cbn [UI.app]. unfold App.allComponentsPlaced.
    destruct (scoreEffect_keeps clock (UI.app (UI.handle clock e s)))
      as (-> & _ & _ & _ & ->).
    now apply handle_certificate. }
  pose proof (proj1 (forallb_forall _ _) (J Hs) c Hc) as Hp.
  split; [exact Hp|].
  destruct (reachable_wellFormed clock u Hr) as ((_ & Hf) & _).
  rewrite Forall_forall in Hf. destruct (Hf c Hc) as (Hw & _).
  now apply Hw.
Qed.

Lemma reachable_bezosClicks (u : UI.State) :
  UI.reachable clock u -> (UI.bezosClicks u < 3)%nat.
Proof.
  induction 1 as [|e s _ IH _]; [cbn; lia|].
  unfold UI.step. cbn [UI.bezosClicks].
  destruct e as
    [componentId clientX clientY rect | componentId chosen | componentId
     | onCanvas | | | | | ];
    cbn [UI.handle UI.bezosClicks]; try exact IH.
  unfold handleRudolphClick. cbv zeta.
  destruct (Nat.eqb_spec (UI.bezosClicks s + 1) 3); cbn [UI.bezosClicks]; lia.
Qed.

(** X26: Every third click on Rudolph brings the easter egg: the counter of
    clicks stays below 3, a click moves it one step round, and the click
    adds one commentary, the easter egg, exactly when two clicks were
    counted; another click adds nothing. *)
Theorem rudolph_every_third_click (u : UI.State) :
  UI.reachable clock u ->
  let u' := UI.step clock UI.RudolphClick u in
  (UI.bezosClicks u < 3)%nat
  /\ UI.bezosClicks u' = (S (UI.bezosClicks u) mod 3)%nat
  /\ if Nat.eqb (UI.bezosClicks u) 2
     then exists k,
            App.commentary (UI.app u') = App.commentary (UI.app u) ++ [k]
            /\ commentaryType k = easterEgg
     else App.commentary (UI.app u') = App.commentary (UI.app u).
Proof.
  intros Hr u'. subst u'.
  pose proof (reachable_bezosClicks u Hr) as Hn.
  pose proof (reachable_lastScore clock u Hr) as Hl.
  split; [exact Hn|].
  unfold UI.step. cbn [UI.app UI.bezosClicks UI.handle].
  unfold handleRudolphClick. cbv zeta.
  assert (Hcases : UI.bezosClicks u = 0%nat \/ UI.bezosClicks u = 1%nat
                   \/ UI.bezosClicks u = 2%nat) by lia.
  destruct Hcases as [E|[E|E]]; rewrite E; cbn [Nat.add Nat.eqb UI.app UI.bezosClicks];
    (split; [reflexivity|]).
  - destruct (scoreEffect_commentary clock (UI.app u)) as (_ & _ & Hc).
    rewrite Hl, Z.ltb_irrefl in Hc. exact Hc.
  - destruct (scoreEffect_commentary clock (UI.app u)) as (_ & _ & Hc).
    rewrite Hl, Z.ltb_irrefl in Hc. exact Hc.
  - destruct (scoreEffect_commentary clock
                (App.handleJeffBezosEasterEgg clock (UI.app u)))
      as (_ & _ & Hc).
    change (App.score (App.handleJeffBezosEasterEgg clock (UI.app u)))
      with (App.score (UI.app u)) in Hc.
    change (App.lastScore (App.handleJeffBezosEasterEgg clock (UI.app u)))
      with (App.lastScore (UI.app u)) in Hc.
    rewrite Hl, Z.ltb_irrefl in Hc. cbn [andb] in Hc. rewrite Hc.
    eexists. split; reflexivity.
Qed.

End Certificate.

(** ** The displays of the score *)

Section Displays.

Variable clock : nat -> Z.

(** X27: The cut-offs of the displays agree: the strategic-mapper badge goes
    with a certificate of one of the three highest levels and with one of the
    three highest labels of the score panel; the completion commentary is a
    praise exactly when the certificate reads more than participation and
    the score is drawn in gold or green; and the score is drawn in green
    exactly under the two highest labels. *)
Theorem score_displays_agree (components : list MapComponent)
    (dependencies : list Dependency) (w : World) :
  let score := calculateTotalScore components dependencies in
  (checkBadgeEarned "strategic-mapper" components dependencies = true <->
   In (Certificate.getPerformanceLevel score)
      ["Outstanding Strategic Excellence"; "Excellent Strategic Thinking";
       "Strong Strategic Understanding"])
  /\ (checkBadgeEarned "strategic-mapper" components dependencies = true <->
      In (ScorePanel.getScoreLabel score)
         ["Exceptional!"; "Excellent!"; "Very Good!"])
  /\ (commentaryType (fst (getCompletionCommentary clock score w)) = praise <->
      Certificate.getPerformanceLevel score <> "Strategic Participation")
  /\ (commentaryType (fst (getCompletionCommentary clock score w)) = praise <->
      In (ScorePanel.getScoreColor score)
         ["text-christmas-gold"; "text-christmas-green"])
  /\ (ScorePanel.getScoreColor score = "text-christmas-green" <->
      In (ScorePanel.getScoreLabel score) ["Exceptional!"; "Excellent!"]).
Proof.
  intros score.
  change (checkBadgeEarned "strategic-mapper" components dependencies)
    with (70 <=? score)%Z.
  generalize score. clear score. intros score.
  unfold Certificate.getPerformanceLevel, ScorePanel.getScoreLabel,
    ScorePanel.getScoreColor, getCompletionCommentary.
  destruct (Z.leb_spec 90 score); destruct (Z.leb_spec 80 score); try lia;
    destruct (Z.leb_spec 70 score); try lia;
    destruct (Z.leb_spec 60 score); try lia;
    destruct (Z.leb_spec 50 score); try lia;
    destruct (Z.leb_spec 40 score); try lia;
    destruct (Z.leb_spec 30 score); try lia;
    cbn [In]; repeat split; intros;
    try discriminate; try reflexivity; auto;
    repeat match goal with
           | H : _ \/ _ |- _ => destruct H
           | H : False |- _ => destruct H
           end;
    try discriminate; try congruence.
Qed.

End Displays.

(** ** The ids of the commentaries *)

Lemma string_of_uint_no_dash (d : Decimal.uint) :
  ~ In "-"%char (list_ascii_of_string (NilEmpty.string_of_uint d)).
Proof.
  induction d; cbn [NilEmpty.string_of_uint list_ascii_of_string In];
    intros H; try (destruct H as [H|H]; [discriminate H | now apply IHd]).
  exact H.
Qed.

Lemma string_of_nat_no_dash (n : nat) :
  ~ In "-"%char (list_ascii_of_string (string_of_nat n)).
Proof.
  unfold string_of_nat, NilZero.string_of_uint.
  destruct (Nat.to_uint n) eqn:E; try (rewrite <- E; apply string_of_uint_no_dash).
  cbn. intros [H|[]]. discriminate H.
Qed.

Lemma string_of_nat_inj (n m : nat) : string_of_nat n = string_of_nat m -> n = m.
Proof.
  unfold string_of_nat. intros H.
  assert (Hnil : forall k, Nat.to_uint k <> Decimal.Nil).
  { intros k. rewrite <- (DecimalNat.Unsigned.of_to k) at 1. rewrite DecimalNat.Unsigned.to_of.
    apply DecimalFacts.unorm_nonnil. }
  apply DecimalNat.Unsigned.to_uint_inj.
  pose proof (NilZero.usu _ (Hnil n)) as Hn.
  pose proof (NilZero.usu _ (Hnil m)) as Hm.
  rewrite H in Hn. congruence.
Qed.

Lemma dash_in_middle (s d : string) :
  In "-"%char (list_ascii_of_string (s ++ "-" ++ d)).
Proof.
  induction s as [|c s IH]; cbn; [now left | now right].
Qed.

(** What follows the last dash of a string is determined by the string. *)
Lemma dash_suffix_unique (s1 s2 d1 d2 : string) :
  ~ In "-"%char (list_ascii_of_string d1) ->
  ~ In "-"%char (list_ascii_of_string d2) ->
  (s1 ++ "-" ++ d1 = s2 ++ "-" ++ d2)%string -> d1 = d2.
Proof.
  intros H1 H2. revert s2.
  induction s1 as [|c s1 IH]; intros [|c2 s2] E; cbn in E.
  - now injection E.
  - injection E as _ E. destruct H1. rewrite E. apply dash_in_middle.
  - injection E as _ E. destruct H2. rewrite <- E. apply dash_in_middle.
  - injection E as _ E. now apply (IH s2).
Qed.

Lemma numbered_inj (n m : nat) (k k' : Commentary) :
  numbered n k -> numbered m k' -> commentaryId k = commentaryId k' -> n = m.
Proof.
  intros [f Ek] [f' Ek'] E. rewrite Ek, Ek' in E.
  apply string_of_nat_inj.
  apply (dash_suffix_unique f f'); [apply string_of_nat_no_dash ..|exact E].
Qed.

Lemma numbered_NoDup (ns : list nat) (ks : list Commentary) :
  Forall2 numbered ns ks -> NoDup ns -> NoDup (map commentaryId ks).
Proof.
  induction 1 as [|n k ns ks Hk Hf IH]; intros Hn; [constructor|].
  inversion Hn as [|? ? Hnotin Hrest]; subst. cbn [map]. constructor.
  - intros Hin. apply in_map_iff in Hin as (k' & E & Hin').
    apply Hnotin. clear IH Hrest Hnotin Hn.
    induction Hf as [|m k'' ns ks Hm Hf IH]; [destruct Hin'|].
    destruct Hin' as [<-|Hin'].
    + left. symmetry. now apply (numbered_inj n m k k'').
    + right. now apply IH.
  - now apply IH.
Qed.

Section CommentaryIds.

Variable clock : nat -> Z.

Lemma createCommentary_countsFrom (t : string) (type : CommentaryType)
    (w : World) :
  countsFrom w (some (createCommentary clock t type w)).
Proof.
  unfold countsFrom, some. cbn [fst snd]. split; [|reflexivity].
  exists ("commentary-" ++ string_of_Z (clock (clockReads w)))%string.
  cbn. reflexivity.
Qed.

Lemma none_countsFrom (w : World) : countsFrom w (None, w).
Proof. reflexivity. Qed.

Lemma getPlacementCommentary_countsFrom (c : MapComponent) (w : World) :
  countsFrom w (getPlacementCommentary clock c w).
Proof.
  unfold getPlacementCommentary.
  repeat match goal with
         | |- context [if ?b then _ else _] => destruct b
         end;
    apply createCommentary_countsFrom || apply none_countsFrom.
Qed.

Lemma getClassificationCommentary_countsFrom (c : MapComponent)
    (k : ComponentClassification) (w : World) :
  countsFrom w (getClassificationCommentary clock c k w).
Proof.
  unfold getClassificationCommentary.
  destruct k as [chosen|]; [|apply none_countsFrom]. cbv zeta.
  repeat match goal with
         | |- context [if ?b then _ else _] => destruct b
         end;
    try apply none_countsFrom;
    try (destruct chosen; apply createCommentary_countsFrom);
    apply createCommentary_countsFrom.
Qed.

Lemma getDependencyCommentary_countsFrom (a b : MapComponent) (w : World) :
  countsFrom w (getDependencyCommentary clock a b w).
Proof.
  unfold getDependencyCommentary. cbv zeta.
  destruct (find _ logicalPairs) as [[[from to] message]|].
  - apply createCommentary_countsFrom.
  - apply none_countsFrom.
Qed.

Lemma getScoreMilestoneCommentary_countsFrom (score : Z) (w : World) :
  countsFrom w (getScoreMilestoneCommentary clock score w).
Proof.
  unfold getScoreMilestoneCommentary.
  repeat match goal with
         | |- context [if ?b then _ else _] => destruct b
         end;
    apply createCommentary_countsFrom || apply none_countsFrom.
Qed.

Lemma wellNumbered_same (s t : App.State) :
  App.commentary t = App.commentary s ->
  commentaryIdCounter (App.world t) = commentaryIdCounter (App.world s) ->
  commentaryWellNumbered s -> commentaryWellNumbered t.
Proof.
  intros Ec Ew (ns & H1 & H2 & H3). exists ns. rewrite Ec, Ew. auto.
Qed.

Lemma wellNumbered_addReturned (r : option Commentary * World) (s : App.State) :
  countsFrom (App.world s) r ->
  commentaryWellNumbered s -> commentaryWellNumbered (App.addReturned r s).
Proof.
  unfold countsFrom, App.addReturned. intros Hr (ns & H1 & H2 & H3).
  destruct (fst r) as [k|].
  - destruct Hr as [Hk Hw].
    exists (ns ++ [commentaryIdCounter (App.world s)]).
    cbn [App.addCommentary App.setCommentary App.setWorld App.commentary
         App.world].
    unfold App.addCommentary, App.setCommentary, App.setWorld.
    cbn [App.commentary App.world]. rewrite Hw. split; [|split].
    + apply Forall2_app; [exact H1|]. constructor; [exact Hk | constructor].
    + apply NoDup_app; [exact H2 | repeat constructor; intros [] |].
      intros n Hn [<-|[]]. rewrite Forall_forall in H3.
      pose proof (H3 _ Hn). lia.
    + apply Forall_app. split.
      * apply (Forall_impl _ (P := fun n => (n < commentaryIdCounter (App.world s))%nat));
          [intros n; lia | exact H3].
      * constructor; [lia | constructor].
  - exists ns. unfold App.setWorld. cbn [App.commentary App.world].
    rewrite Hr. auto.
Qed.

Lemma wellNumbered_fresh (t : string) (type : CommentaryType) (w : World)
    (s : App.State) :
  App.commentary s = [fst (createCommentary clock t type w)] ->
  App.world s = snd (createCommentary clock t type w) ->
  commentaryWellNumbered s.
Proof.
  intros Ec Ew. exists [commentaryIdCounter w]. rewrite Ec, Ew.
  destruct (createCommentary_countsFrom t type w) as [Hk Hw].
  cbn [fst snd some] in Hk, Hw. split; [|split].
  - constructor; [exact Hk | constructor].
  - repeat constructor. intros [].
  - constructor; [|constructor]. rewrite Hw. lia.
Qed.

Lemma scoreEffect_wellNumbered (s : App.State) :
  commentaryWellNumbered s -> commentaryWellNumbered (App.scoreEffect clock s).
Proof.
  intros H. unfold App.scoreEffect. cbv zeta.
  match goal with |- context [if ?b then _ else _] => destruct b end.
  - apply (wellNumbered_same
             (App.addReturned
                (getScoreMilestoneCommentary clock (App.score s) (App.world s)) s));
      [reflexivity | reflexivity |].
    apply wellNumbered_addReturned;
      [apply getScoreMilestoneCommentary_countsFrom | exact H].
  - apply (wellNumbered_same s); [reflexivity | reflexivity | exact H].
Qed.

Lemma handleComponentPlace_wellNumbered (componentId : string) (p : Position)
    (s : App.State) :
  commentaryWellNumbered s ->
  commentaryWellNumbered (App.handleComponentPlace clock componentId p s).
Proof.
  intros H. unfold App.handleComponentPlace.
  destruct (find _ (App.components s)) as [c|]; [|exact H]. cbv zeta.
  apply wellNumbered_addReturned.
  - apply getPlacementCommentary_countsFrom.
  - apply (wellNumbered_same s); [reflexivity | reflexivity | exact H].
Qed.

Lemma handleClassificationChange_wellNumbered (componentId : string)
    (k : ComponentClassification) (s : App.State) :
  commentaryWellNumbered s ->
  commentaryWellNumbered (App.handleClassificationChange clock componentId k s).
Proof.
  intros H. unfold App.handleClassificationChange.
  destruct (find _ (App.components s)) as [c|]; [|exact H]. cbv zeta.
  apply wellNumbered_addReturned.
  - apply getClassificationCommentary_countsFrom.
  - apply (wellNumbered_same s); [reflexivity | reflexivity | exact H].
Qed.

Lemma handleDependencyCreate_wellNumbered (fromId toId : string)
    (s : App.State) :
  commentaryWellNumbered s ->
  commentaryWellNumbered (App.handleDependencyCreate clock fromId toId s).
Proof.
  intros H. unfold App.handleDependencyCreate. cbv zeta.
  destruct (existsb _ (App.dependencies s)); [exact H|].
  unfold dateNow.
  destruct (find (fun c => String.eqb (id c) fromId) (App.components s));
    destruct (find (fun c => String.eqb (id c) toId) (App.components s));
    try (apply wellNumbered_addReturned;
         [apply getDependencyCommentary_countsFrom|]);
    apply (wellNumbered_same s); try reflexivity; exact H.
Qed.

Lemma handle_wellNumbered (e : UI.Event) (u : UI.State) :
  commentaryWellNumbered (UI.app u) ->
  commentaryWellNumbered (UI.app (UI.handle clock e u)).
Proof.
  intros H. destruct e as
    [componentId clientX clientY rect | componentId chosen | componentId
     | onCanvas | | | | | ];
    cbn [UI.handle UI.app].
  - unfold App.handleDrop.
    destruct (String.eqb componentId ""); [exact H|]. cbv zeta.
    now apply handleComponentPlace_wellNumbered.
  - now apply handleClassificationChange_wellNumbered.
  - unfold App.handleComponentClick.
    destruct (App.truthy (App.pendingDependencyFromId (UI.app u)));
      [|apply (wellNumbered_same (UI.app u)); try reflexivity; exact H].
    destruct (App.pendingDependencyFromId (UI.app u)) as [pending|];
      [|apply (wellNumbered_same (UI.app u)); try reflexivity; exact H].
    destruct (negb (String.eqb pending componentId));
      [|apply (wellNumbered_same (UI.app u)); try reflexivity; exact H].
    apply (wellNumbered_same
             (App.handleDependencyCreate clock pending componentId (UI.app u)));
      [reflexivity | reflexivity |].
    now apply handleDependencyCreate_wellNumbered.
  - unfold App.handleCanvasClick. destruct onCanvas; [|exact H].
    apply (wellNumbered_same (UI.app u)); try reflexivity; exact H.
  - unfold App.createDependencyButton.
    destruct (App.truthy (App.selectedComponentId (UI.app u))); [|exact H].
    apply (wellNumbered_same (UI.app u)); try reflexivity; exact H.
  - unfold App.handleComplete. cbv zeta.
    apply (wellNumbered_same
             (App.addReturned
                (some (getCompletionCommentary clock (App.score (UI.app u))
                         (App.world (UI.app u))))
                (UI.app u)));
      [reflexivity | reflexivity |].
    apply wellNumbered_addReturned; [|exact H].
    unfold getCompletionCommentary.
    repeat match goal with
           | |- context [if ?b then _ else _] => destruct b
           end;
      apply createCommentary_countsFrom.
  - apply (wellNumbered_same (UI.app u)); try reflexivity; exact H.
  - unfold App.handleRestart, getWelcomeCommentary. cbv zeta.
    eapply wellNumbered_fresh; reflexivity.
  - destruct (handleRudolphClick (UI.bezosClicks u)) as [[|] clicks];
      [|exact H].
    unfold App.handleJeffBezosEasterEgg, getJeffBezosEasterEgg. cbv zeta.
    apply (wellNumbered_addReturned
             (some (createCommentary clock _ easterEgg (App.world (UI.app u))))
             (UI.app u));
      [apply createCommentary_countsFrom | exact H].
Qed.

Lemma reachable_wellNumbered (u : UI.State) :
  UI.reachable clock u -> commentaryWellNumbered (UI.app u).
Proof.
  induction 1 as [|e s _ IH _].
  - cbn [UI.initial UI.app]. unfold App.initial, getWelcomeCommentary.
    cbv zeta. eapply wellNumbered_fresh; reflexivity.
  - unfold UI.step. cbn [UI.app].
    apply scoreEffect_wellNumbered. now apply handle_wellNumbered.
Qed.

(** X28: In every state a user can bring about, no two commentaries have the
    same id, whatever the clock shows: a commentary that is added differs in
    its id from every commentary shown before. *)
Theorem reachable_commentary_ids (u : UI.State) :
  UI.reachable clock u ->
  NoDup (map commentaryId (App.commentary (UI.app u))).
Proof.
  intros H. destruct (reachable_wellNumbered u H) as (ns & H1 & H2 & _).
  now apply (numbered_NoDup ns).
Qed.

End CommentaryIds.

(** ** The ids of the dependencies *)

Lemma Z_to_int_proper (z : Z) :
  Z.to_int z <> Decimal.Pos Decimal.Nil /\ Z.to_int z <> Decimal.Neg Decimal.Nil.
Proof.
  destruct z as [|p|p]; cbn; split; try discriminate;
    intros E; injection E as E;
    now apply (DecimalPos.Unsigned.to_uint_nonnil p).
Qed.

Lemma string_of_Z_inj (a b : Z) : string_of_Z a = string_of_Z b -> a = b.
Proof.
  unfold string_of_Z. intros H. apply DecimalZ.to_int_inj.
  destruct (Z_to_int_proper a) as [Ha1 Ha2].
  destruct (Z_to_int_proper b) as [Hb1 Hb2].
  pose proof (NilZero.isi _ Ha1 Ha2) as Ia.
  pose proof (NilZero.isi _ Hb1 Hb2) as Ib.
  rewrite H in Ia. congruence.
Qed.

Lemma append_inj_l (p s t : string) : (p ++ s = p ++ t)%string -> s = t.
Proof.
  induction p as [|c p IH]; cbn; intros E; [exact E|].
  injection E as E. now apply IH.
Qed.

Section DependencyDates.

Variable clock : nat -> Z.

Lemma createCommentary_reads (t : string) (type : CommentaryType) (w : World) :
  (clockReads w <= clockReads (snd (createCommentary clock t type w)))%nat.
Proof. cbn. lia. Qed.

(** Solves [clockReads w <= clockReads (snd r)] for what a function of the
    commentary module returns. *)
Ltac reads_from :=
  repeat match goal with
         | |- context [if ?b then _ else _] => destruct b
         | |- context [match ?o with Some _ => _ | None => _ end] => destruct o
         | |- context [match ?c with build => _ | buy => _ | repurpose => _ end] =>
             destruct c
         | |- context [let '(_, _) := ?p in _] => destruct p
         end;
  cbn; lia.

Lemma getPlacementCommentary_reads (c : MapComponent) (w : World) :
  (clockReads w <= clockReads (snd (getPlacementCommentary clock c w)))%nat.
Proof. unfold getPlacementCommentary. reads_from. Qed.

Lemma getClassificationCommentary_reads (c : MapComponent)
    (k : ComponentClassification) (w : World) :
  (clockReads w
   <= clockReads (snd (getClassificationCommentary clock c k w)))%nat.
Proof. unfold getClassificationCommentary. cbv zeta. reads_from. Qed.

Lemma getDependencyCommentary_reads (a b : MapComponent) (w : World) :
  (clockReads w <= clockReads (snd (getDependencyCommentary clock a b w)))%nat.
Proof.
  unfold getDependencyCommentary. cbv zeta.
  destruct (find _ logicalPairs) as [[[from to] message]|]; cbn; lia.
Qed.

Lemma getScoreMilestoneCommentary_reads (score : Z) (w : World) :
  (clockReads w
   <= clockReads (snd (getScoreMilestoneCommentary clock score w)))%nat.
Proof. unfold getScoreMilestoneCommentary. reads_from. Qed.

Lemma getCompletionCommentary_reads (score : Z) (w : World) :
  (clockReads w
   <= clockReads (snd (getCompletionCommentary clock score w)))%nat.
Proof. unfold getCompletionCommentary. reads_from. Qed.

Lemma addReturned_world (r : option Commentary * World) (s : App.State) :
  App.world (App.addReturned r s) = snd r.
Proof. unfold App.addReturned. destruct (fst r); reflexivity. Qed.

Lemma wellDated_same (s t : App.State) :
  App.dependencies t = App.dependencies s ->
  (clockReads (App.world s) <= clockReads (App.world t))%nat ->
  dependenciesWellDated clock s -> dependenciesWellDated clock t.
Proof.
  intros Ed Ew (readings & H1 & H2 & H3). exists readings. rewrite Ed.
  split; [exact H1|]. split; [exact H2|].
  apply (Forall_impl _ (P := fun i => (i < clockReads (App.world s))%nat));
    [intros i; lia | exact H3].
Qed.

Lemma scoreEffect_reads (s : App.State) :
  (clockReads (App.world s)
   <= clockReads (App.world (App.scoreEffect clock s)))%nat.
Proof.
  unfold App.scoreEffect. cbv zeta.
  match goal with |- context [if ?b then _ else _] => destruct b end.
  - change (App.world (App.setLastScore ?v ?t)) with (App.world t).
    rewrite addReturned_world. apply getScoreMilestoneCommentary_reads.
  - cbn. lia.
Qed.

Lemma handleComponentPlace_reads (componentId : string) (p : Position)
    (s : App.State) :
  (clockReads (App.world s)
   <= clockReads (App.world (App.handleComponentPlace clock componentId p s)))%nat.
Proof.
  unfold App.handleComponentPlace.
  destruct (find _ (App.components s)) as [c|]; [|lia]. cbv zeta.
  rewrite addReturned_world.
  apply (getPlacementCommentary_reads c (App.world s)).
Qed.

Lemma handleClassificationChange_reads (componentId : string)
    (k : ComponentClassification) (s : App.State) :
  (clockReads (App.world s)
   <= clockReads
        (App.world (App.handleClassificationChange clock componentId k s)))%nat.
Proof.
  unfold App.handleClassificationChange.
  destruct (find _ (App.components s)) as [c|]; [|lia]. cbv zeta.
  rewrite addReturned_world.
  apply (getClassificationCommentary_reads c k (App.world s)).
Qed.

Lemma handleDependencyCreate_wellDated (fromId toId : string) (s : App.State) :
  dependenciesWellDated clock s ->
  dependenciesWellDated clock (App.handleDependencyCreate clock fromId toId s).
Proof.
  intros H. unfold App.handleDependencyCreate. cbv zeta.
  destruct (existsb _ (App.dependencies s)); [exact H|].
  unfold dateNow.
  set (w1 := mkWorld (commentaryIdCounter (App.world s))
                     (S (clockReads (App.world s)))).
  set (d := mkDependency _ fromId toId).
  set (s1 := App.setWorld w1 (App.setDependencies (App.dependencies s ++ [d]) s)).
  assert (H1 : dependenciesWellDated clock s1).
  { destruct H as (readings & F & N & B).
    exists (readings ++ [clockReads (App.world s)]).
    cbn [s1 App.setWorld App.setDependencies App.dependencies App.world w1
         clockReads].
    unfold s1, App.setWorld, App.setDependencies, w1.
    cbn [App.dependencies App.world clockReads].
    split; [|split].
    - apply Forall2_app; [exact F|]. constructor; [reflexivity | constructor].
    - apply NoDup_app; [exact N | repeat constructor; intros [] |].
      intros i Hi [<-|[]]. rewrite Forall_forall in B.
      pose proof (B _ Hi). lia.
    - apply Forall_app. split.
      + apply (Forall_impl _ (P := fun i => (i < clockReads (App.world s))%nat));
          [intros i; lia | exact B].
      + constructor; [lia | constructor]. }
  destruct (find (fun c => String.eqb (id c) fromId) (App.components s))
    as [a|]; [|exact H1].
  destruct (find (fun c => String.eqb (id c) toId) (App.components s))
    as [b|]; [|exact H1].
  apply (wellDated_same s1); [| |exact H1].
  - apply addReturned_keeps.
  - rewrite addReturned_world. apply getDependencyCommentary_reads.
Qed.

Lemma handle_wellDated (e : UI.Event) (u : UI.State) :
  dependenciesWellDated clock (UI.app u) ->
  dependenciesWellDated clock (UI.app (UI.handle clock e u)).
Proof.
  intros H. destruct e as
    [componentId clientX clientY rect | componentId chosen | componentId
     | onCanvas | | | | | ];
    cbn [UI.handle UI.app].
  - unfold App.handleDrop.
    destruct (String.eqb componentId ""); [exact H|]. cbv zeta.
    apply (wellDated_same (UI.app u)); [| |exact H].
    + apply handleComponentPlace_components.
    + apply handleComponentPlace_reads.
  - apply (wellDated_same (UI.app u)); [| |exact H].
    + apply handleClassificationChange_components.
    + apply handleClassificationChange_reads.
  - unfold App.handleComponentClick.
    destruct (App.truthy (App.pendingDependencyFromId (UI.app u)));
      [|apply (wellDated_same (UI.app u)); [reflexivity | cbn; lia | exact H]].
    destruct (App.pendingDependencyFromId (UI.app u)) as [pending|];
      [|apply (wellDated_same (UI.app u)); [reflexivity | cbn; lia | exact H]].
    destruct (negb (String.eqb pending componentId));
      [|apply (wellDated_same (UI.app u)); [reflexivity | cbn; lia | exact H]].
    apply (wellDated_same
             (App.handleDependencyCreate clock pending componentId (UI.app u)));
      [reflexivity | cbn; lia |].
    now apply handleDependencyCreate_wellDated.
  - unfold App.handleCanvasClick. destruct onCanvas; [|exact H].
    apply (wellDated_same (UI.app u)); [reflexivity | cbn; lia | exact H].
  - unfold App.createDependencyButton.
    destruct (App.truthy (App.selectedComponentId (UI.app u))); [|exact H].
    apply (wellDated_same (UI.app u)); [reflexivity | cbn; lia | exact H].
  - apply (wellDated_same (UI.app u)); [reflexivity | | exact H].
    unfold App.handleComplete. cbv zeta.
    change (App.world (App.setShowCertificate ?v ?t)) with (App.world t).
    change (App.world (App.addCommentary ?k ?t)) with (App.world t).
    change (App.world (App.setWorld ?w ?t)) with w.
    apply getCompletionCommentary_reads.
  - apply (wellDated_same (UI.app u)); [reflexivity | cbn; lia | exact H].
  - exists []. cbn. repeat constructor.
  - destruct (handleRudolphClick (UI.bezosClicks u)) as [[|] clicks];
      [|exact H].
    apply (wellDated_same (UI.app u)); [reflexivity | cbn; lia | exact H].
Qed.

Lemma reachable_wellDated (u : UI.State) :
  UI.reachable clock u -> dependenciesWellDated clock (UI.app u).
Proof.
  induction 1 as [|e s _ IH _].
  - exists []. cbn. repeat constructor.
  - unfold UI.step. cbn [UI.app].
    apply (wellDated_same (UI.app (UI.handle clock e s))).
    + apply scoreEffect_keeps.
    + apply scoreEffect_reads.
    + now apply handle_wellDated.
Qed.

End DependencyDates.

(** ** Instances: the example sessions *)

Lemma dropEach_reachable (clock : nat -> Z) (l : list MapComponent)
    (u : UI.State) :
  UI.reachable clock u -> UI.reachable clock (dropEach clock l u).
Proof.
  revert u. induction l as [|c l IH]; intros u H; [exact H|].
  cbn [dropEach fold_left]. apply IH.
  apply UI.reachable_step; [exact H|]. cbn; lra.
Qed.

Lemma dropEach_placed (clock : nat -> Z) (l : list MapComponent)
    (u : UI.State) :
  forallb (fun c => negb (String.eqb (id c) "")) l = true ->
  forallb (fun c => isPlaced c || existsb (fun a => String.eqb (id c) (id a)) l)
          (App.components (UI.app u)) = true ->
  App.allComponentsPlaced (UI.app (dropEach clock l u)) = true.
Proof.
  revert u. induction l as [|a l IH]; intros u Hne H.
  - cbn [dropEach fold_left]. unfold App.allComponentsPlaced.
    rewrite <- H. apply forallb_ext_in. intros c _.
    cbn [existsb]. now rewrite orb_false_r.
  - cbn [forallb] in Hne. apply andb_prop in Hne as [Ha Hne].
    cbn [dropEach fold_left]. apply IH; [exact Hne|].
    destruct (step_keeps clock (UI.Drop (id a) 500 300 exampleRect) u)
      as (-> & _).
    cbn [UI.handle UI.app]. unfold App.handleDrop.
    apply negb_true_iff in Ha. rewrite Ha. cbv zeta.
    match goal with
    | |- context [App.handleComponentPlace clock (id a) ?p ?s] =>
        destruct (handleComponentPlace_components clock (id a) p s)
          as (-> & _); set (q := p)
    end.
    rewrite forallb_forall in H.
    destruct (existsb (fun c => String.eqb (id c) (id a))
                      (App.components (UI.app u))) eqn:E.
    + apply forallb_forall. intros c' Hc'.
      apply in_map_iff in Hc' as (c & <- & Hc).
      pose proof (H c Hc) as Hq. cbn [existsb] in Hq.
      destruct (String.eqb (id c) (id a)) eqn:Eca; [reflexivity|].
      exact Hq.
    + apply forallb_forall. intros c Hc.
      pose proof (H c Hc) as Hq. cbn [existsb] in Hq.
      assert (Eca : String.eqb (id c) (id a) = false).
      { destruct (String.eqb (id c) (id a)) eqn:Eca; [|reflexivity].
        rewrite <- E. symmetry. apply existsb_exists. now exists c. }
      rewrite Eca in Hq. exact Hq.
Qed.

Lemma completedSession_reachable : UI.reachable exampleClock completedSession.
Proof.
  unfold completedSession. apply UI.reachable_step.
  - apply dropEach_reachable, UI.reachable_initial.
  - cbn [UI.offered]. apply dropEach_placed; reflexivity.
Qed.

Lemma completedSession_certificate :
  App.showCertificate (UI.app completedSession) = true.
Proof.
  unfold completedSession.
  destruct (step_keeps exampleClock UI.ViewCertificate
              (dropEach exampleClock INITIAL_COMPONENTS
                        (UI.initial exampleClock)))
    as (_ & _ & _ & _ & ->).
  reflexivity.
Qed.

Lemma reachable_first_component (clock : nat -> Z) (u : UI.State)
    (c : MapComponent) :
  UI.reachable clock u -> In (hd c (App.components (UI.app u)))
                             (App.components (UI.app u)).
Proof.
  intros H. destruct (reachable_wellFormed clock u H) as ((Ht & _) & _).
  destruct (App.components (UI.app u)); [discriminate Ht | now left].
Qed.

Lemma step_milestone_witness :
  let handled := UI.app (UI.handle exampleClock (UI.CanvasClick true)
                                   exampleSession) in
  let after := UI.app (UI.step exampleClock (UI.CanvasClick true)
                               exampleSession) in
  App.score after = App.score handled
  /\ if (App.score (UI.app exampleSession) <? App.score handled)%Z
        && isMilestone (App.score handled)
     then exists k,
            App.commentary after = App.commentary handled ++ [k]
            /\ commentaryType k
               = if (75 <=? App.score handled)%Z then praise else hint
     else App.commentary after = App.commentary handled.
Proof.
  exact (step_milestone exampleClock (UI.CanvasClick true) exampleSession
           exampleSession_reachable).
Defined.

Lemma reachable_certificate_witness :
  let c := hd (initialComponent "" "" "" genesis build 0 0)
              (App.components (UI.app completedSession)) in
  isPlaced c = true /\ position c <> None.
Proof.
  intros c.
  exact (reachable_certificate exampleClock completedSession c
           completedSession_reachable completedSession_certificate
           (reachable_first_component exampleClock completedSession _
              completedSession_reachable)).
Defined.

Lemma rudolph_every_third_click_witness :
  let u' := UI.step exampleClock UI.RudolphClick exampleSession in
  (UI.bezosClicks exampleSession < 3)%nat
  /\ UI.bezosClicks u' = (S (UI.bezosClicks exampleSession) mod 3)%nat
  /\ if Nat.eqb (UI.bezosClicks exampleSession) 2
     then exists k,
            App.commentary (UI.app u')
            = App.commentary (UI.app exampleSession) ++ [k]
            /\ commentaryType k = easterEgg
     else App.commentary (UI.app u') = App.commentary (UI.app exampleSession).
Proof.
  exact (rudolph_every_third_click exampleClock exampleSession
           exampleSession_reachable).
Defined.

Lemma reachable_commentary_ids_witness :
  NoDup (map commentaryId (App.commentary (UI.app completedSession))).
Proof.
  exact (reachable_commentary_ids exampleClock completedSession
           completedSession_reachable).
Defined.

(** After a drop of the cloud and a click on it, the cloud is selected and
    the dependencies are as before the drop. *)
Lemma session_selected (clock : nat -> Z) (rect : App.DOMRect) (px py : R)
    (u0 : UI.State) :
  App.selectedComponentId (UI.app u0) = None ->
  App.pendingDependencyFromId (UI.app u0) = None ->
  let u2 := UI.step clock (UI.ComponentClick "cloud-compute")
              (UI.step clock (UI.Drop "cloud-compute" px py rect) u0) in
  App.selectedComponentId (UI.app u2) = Some "cloud-compute"
  /\ App.dependencies (UI.app u2) = App.dependencies (UI.app u0).
Proof.
  intros S0 P0 u2. subst u2.
  destruct (step_keeps clock (UI.Drop "cloud-compute" px py rect) u0)
    as (_ & D1 & S1 & P1 & _).
  cbn [UI.handle UI.app] in D1, S1, P1. unfold App.handleDrop in D1, S1, P1.
  change (String.eqb "cloud-compute" "") with false in D1, S1, P1.
  cbv zeta iota in D1, S1, P1.
  match type of D1 with
  | context [App.handleComponentPlace ?c ?i ?p ?s] =>
      destruct (handleComponentPlace_components c i p s) as (_ & E1 & E2 & E3)
  end.
  rewrite E1 in D1. rewrite E2, S0 in S1. rewrite E3, P0 in P1.
  clear E1 E2 E3. revert D1 S1 P1.
  generalize (UI.step clock (UI.Drop "cloud-compute" px py rect) u0).
  intros u1 D1 S1 P1.
  destruct (step_keeps clock (UI.ComponentClick "cloud-compute") u1)
    as (_ & D2 & S2 & _).
  cbn [UI.handle UI.app] in D2, S2.
  unfold App.handleComponentClick in D2, S2. rewrite P1, S1 in D2, S2.
  cbn [App.truthy] in D2, S2. cbv iota in D2, S2.
  unfold App.handleComponentSelect, App.setSelectedComponentId in D2, S2.
  cbn [App.dependencies App.selectedComponentId] in D2, S2.
  split; [exact S2 | congruence].
Qed.

(** The example session: its last two steps are the gesture, made with the
    cloud selected, and they leave one dependency, from the cloud to the
    network. *)
Lemma connect_gesture_witness :
  let u := UI.step exampleClock (UI.ComponentClick "cloud-compute")
             (UI.step exampleClock
                (UI.Drop "cloud-compute" 850 150 exampleRect)
                (UI.initial exampleClock)) in
  App.selectedComponentId (UI.app exampleSession) = None
  /\ App.pendingDependencyFromId (UI.app exampleSession) = None
  /\ App.components (UI.app exampleSession) = App.components (UI.app u)
  /\ exists newId,
       App.dependencies (UI.app exampleSession)
       = [mkDependency newId "cloud-compute" "network-comms"].
Proof.
  intros u.
  destruct (session_selected exampleClock exampleRect 850 150
              (UI.initial exampleClock) eq_refl eq_refl) as [Hs Hd].
  fold u in Hs, Hd.
  pose proof (connect_gesture exampleClock "cloud-compute" "network-comms" u
                Hs ltac:(discriminate)) as H.
  cbv zeta in H. rewrite Hd in H. exact H.
Defined.

(** ** The ids of the dependencies in play *)

Lemma NoDup_map_iff {A B : Type} (f : A -> B) (l : list A) :
  NoDup l ->
  NoDup (map f l) <->
  forall a b, In a l -> In b l -> f a = f b -> a = b.
Proof.
  induction l as [|a l IH]; intros Hn.
  - cbn. split; [intros _ a b [] | intros _; constructor].
  - inversion Hn as [|? ? Hnotin Hrest]; subst. cbn [map]. split.
    + intros Hm. inversion Hm as [|? ? Hfa Hfl]; subst.
      intros b c [<-|Hb] [<-|Hc] E.
      * reflexivity.
      * destruct Hfa. rewrite E. now apply in_map.
      * destruct Hfa. rewrite <- E. now apply in_map.
      * now apply (proj1 (IH Hrest) Hfl).
    + intros Hinj. constructor.
      * intros Hin. apply in_map_iff in Hin as (b & E & Hb).
        apply Hnotin. rewrite (Hinj a b); [exact Hb | now left | now right |].
        now symmetry.
      * apply (IH Hrest). intros b c Hb Hc. apply Hinj; now right.
Qed.

Lemma madeAtReading_ids (clock : nat -> Z) (readings : list nat)
    (ds : list Dependency) :
  Forall2 (madeAtReading clock) readings ds ->
  map dependencyId ds
  = map (fun i => ("dep-" ++ string_of_Z (clock i))%string) readings.
Proof.
  induction 1 as [|i d readings ds Hd _ IH]; [reflexivity|].
  cbn [map]. now rewrite Hd, IH.
Qed.

Section DependencyIds.

Variable clock : nat -> Z.

(** X29: The id of a dependency is "dep-" and the instant that the clock
    showed at the reading made when the dependency was created.  In every
    state a user can bring about the dependencies come from readings that
    differ from one another, and no two dependencies have the same id exactly
    when the clock showed different instants at those readings. *)
Theorem reachable_dependency_ids (u : UI.State) :
  UI.reachable clock u ->
  exists readings,
    Forall2 (madeAtReading clock) readings (App.dependencies (UI.app u))
    /\ NoDup readings
    /\ (NoDup (map dependencyId (App.dependencies (UI.app u))) <->
        forall i j, In i readings -> In j readings ->
                    clock i = clock j -> i = j).
Proof.
  intros H. destruct (reachable_wellDated clock u H) as (readings & F & N & _).
  exists readings. split; [exact F|]. split; [exact N|].
  rewrite (madeAtReading_ids clock readings _ F).
  rewrite (NoDup_map_iff _ readings N). split.
  - intros Hk i j Hi Hj E. apply Hk; [exact Hi | exact Hj |]. now rewrite E.
  - intros Hc i j Hi Hj E. apply Hc; [exact Hi | exact Hj |].
    apply string_of_Z_inj. now apply (append_inj_l "dep-").
Qed.

Lemma click_selects (b : string) (u : UI.State) :
  App.selectedComponentId (UI.app u) = None ->
  App.pendingDependencyFromId (UI.app u) = None ->
  App.selectedComponentId (UI.app (UI.step clock (UI.ComponentClick b) u))
  = Some b
  /\ App.dependencies (UI.app (UI.step clock (UI.ComponentClick b) u))
     = App.dependencies (UI.app u).
Proof.
  intros S P.
  destruct (step_keeps clock (UI.ComponentClick b) u) as (_ & -> & -> & _).
  cbn [UI.handle UI.app]. unfold App.handleComponentClick. rewrite P, S.
  cbn [App.truthy]. cbv iota.
  unfold App.handleComponentSelect, App.setSelectedComponentId.
  cbn [App.dependencies App.selectedComponentId]. auto.
Qed.

Lemma gesture_appends (a b : string) (u : UI.State) :
  App.selectedComponentId (UI.app u) = Some a -> a <> "" ->
  String.eqb a b = false ->
  existsb (joins a b) (App.dependencies (UI.app u)) = false ->
  let u' := UI.step clock (UI.ComponentClick b)
              (UI.step clock UI.CreateDependencyButton u) in
  App.selectedComponentId (UI.app u') = None
  /\ App.pendingDependencyFromId (UI.app u') = None
  /\ exists newId,
       App.dependencies (UI.app u')
       = App.dependencies (UI.app u) ++ [mkDependency newId a b].
Proof.
  intros Hsel Ha Eab Hex u'. subst u'.
  destruct (step_keeps clock UI.CreateDependencyButton u) as (_ & D1 & _ & P1 & _).
  revert D1 P1.
  generalize (UI.step clock UI.CreateDependencyButton u).
  intros u1 D1 P1.
  cbn [UI.handle UI.app] in D1, P1.
  rewrite (createDependencyButton_selected a _ Hsel Ha) in D1, P1.
  cbn in D1, P1.
  destruct (step_keeps clock (UI.ComponentClick b) u1) as (_ & D2 & S2 & P2 & _).
  cbn [UI.handle UI.app] in D2, S2, P2.
  rewrite (handleComponentClick_pending clock a b _ P1 Ha) in D2, S2, P2.
  rewrite D2, S2, P2. clear D2 S2 P2. rewrite Eab.
  unfold App.setSelectedComponentId, App.setPendingDependencyFromId.
  cbn [App.selectedComponentId App.pendingDependencyFromId App.dependencies].
  split; [reflexivity|]. split; [reflexivity|].
  destruct (handleDependencyCreate_dependencies clock a b (UI.app u1))
    as (_ & _ & _ & D3).
  rewrite D1 in D3.
  change (existsb _ (App.dependencies (UI.app u)))
    with (existsb (joins a b) (App.dependencies (UI.app u))) in D3.
  rewrite Hex in D3. destruct D3 as [[E _]|[_ D3]]; [discriminate E | exact D3].
Qed.

(** A drop of the cloud, then the cloud joined to the network and the
    foundational models joined to the cloud, leave these two dependencies. *)
Lemma session_two_dependencies (rect : App.DOMRect) (px py : R)
    (u0 : UI.State) :
  App.dependencies (UI.app u0) = [] ->
  App.selectedComponentId (UI.app u0) = None ->
  App.pendingDependencyFromId (UI.app u0) = None ->
  exists id1 id2,
    App.dependencies
      (UI.app
         (UI.step clock (UI.ComponentClick "cloud-compute")
            (UI.step clock UI.CreateDependencyButton
               (UI.step clock (UI.ComponentClick "foundational-ai")
                  (UI.step clock (UI.ComponentClick "network-comms")
                     (UI.step clock UI.CreateDependencyButton
                        (UI.step clock (UI.ComponentClick "cloud-compute")
                           (UI.step clock
                              (UI.Drop "cloud-compute" px py rect) u0))))))))
    = [ mkDependency id1 "cloud-compute" "network-comms";
        mkDependency id2 "foundational-ai" "cloud-compute" ].
Proof.
  intros D0 S0 P0.
  destruct (session_selected clock rect px py u0 S0 P0) as [S2 D2].
  rewrite D0 in D2. revert S2 D2.
  generalize (UI.step clock (UI.ComponentClick "cloud-compute")
                (UI.step clock (UI.Drop "cloud-compute" px py rect) u0)).
  intros u2 S2 D2.
  destruct (gesture_appends "cloud-compute" "network-comms" u2 S2
              ltac:(discriminate) eq_refl ltac:(now rewrite D2))
    as (S4 & P4 & id1 & D4).
  rewrite D2 in D4. cbn [app] in D4. revert S4 P4 D4.
  generalize (UI.step clock (UI.ComponentClick "network-comms")
                (UI.step clock UI.CreateDependencyButton u2)).
  intros u4 S4 P4 D4.
  destruct (click_selects "foundational-ai" u4 S4 P4) as [S5 D5].
  rewrite D4 in D5. revert S5 D5.
  generalize (UI.step clock (UI.ComponentClick "foundational-ai") u4).
  intros u5 S5 D5.
  destruct (gesture_appends "foundational-ai" "cloud-compute" u5 S5
              ltac:(discriminate) eq_refl ltac:(now rewrite D5))
    as (_ & _ & id2 & D7).
  rewrite D5 in D7. exists id1, id2. exact D7.
Qed.

End DependencyIds.

Lemma twoDependencySession_reachable :
  UI.reachable exampleClock twoDependencySession.
Proof.
  unfold twoDependencySession.
  assert (H5 : UI.reachable exampleClock
                 (UI.step exampleClock (UI.ComponentClick "foundational-ai")
                    exampleSession)).
  { apply UI.reachable_step; [exact exampleSession_reachable|].
    apply (offered_ComponentClick exampleClock);
      [exact exampleSession_reachable|].
    unfold isComponentId; cbn; auto 12. }
  apply UI.reachable_step.
  - apply UI.reachable_step; [exact H5 | exact I].
  - apply (offered_ComponentClick exampleClock).
    + apply UI.reachable_step; [exact H5 | exact I].
    + unfold isComponentId; cbn; auto 12.
Qed.

Lemma twoDependencySession_dependencies :
  exists id1 id2,
    App.dependencies (UI.app twoDependencySession)
    = [ mkDependency id1 "cloud-compute" "network-comms";
        mkDependency id2 "foundational-ai" "cloud-compute" ].
Proof.
  exact (session_two_dependencies exampleClock exampleRect 850 150
           (UI.initial exampleClock) eq_refl eq_refl eq_refl).
Qed.

(** The session with two dependencies: they come from two readings of the
    clock, and their ids differ exactly when the clock showed different
    instants at the two. *)
Lemma reachable_dependency_ids_witness :
  List.length (App.dependencies (UI.app twoDependencySession)) = 2%nat
  /\ exists readings,
       Forall2 (madeAtReading exampleClock) readings
               (App.dependencies (UI.app twoDependencySession))
       /\ NoDup readings
       /\ (NoDup (map dependencyId
                      (App.dependencies (UI.app twoDependencySession))) <->
           forall i j, In i readings -> In j readings ->
                       exampleClock i = exampleClock j -> i = j).
Proof.
  split.
  - destruct twoDependencySession_dependencies as (id1 & id2 & ->).
    reflexivity.
  - exact (reachable_dependency_ids exampleClock twoDependencySession
             twoDependencySession_reachable).
Defined.

(** ** The path of a connector *)

